(** * Indicator and signal engine of the stock dashboard backend

    A shallow embedding of [backend/utils/technicalIndicators.js]
    (the indicator library) and of [backend/services/stockService.js]
    (provider chain, synthetic generator, indicator mapping and the
    signal generator), followed by the properties of the specification.

    Numbers.  JavaScript numbers are modelled as exact rationals
    extended with [NaN], [+Infinity] and [-Infinity]: the arithmetic of
    the source is kept operation by operation, the special values take
    part in it as IEEE 754 prescribes, and binary64 rounding is not
    modelled.  Finite results are kept in lowest terms ([Qred]), which
    changes no value.  A statement about the value of a sum, a product or
    a quotient is therefore a statement about the exact value; where the
    source rounds, overflows or underflows in binary64 the two differ,
    and [toFixed] is applied to the exact value.  Reading an array past
    its end gives [undefined] in JavaScript; a read that is consumed by
    an arithmetic operator, a comparison or a truthiness test, all of
    which treat [undefined] like [NaN], is modelled as [NaN] ([aget]);
    the one read that is stored as it is, the [MACD] field of
    [MACD.calculate], is kept as an optional value ([aread]).

    Effects.  The asynchronous functions of the service run their steps
    in sequence; they are functions of a state (cache, number of draws,
    number of clock readings) in a small state monad, and a thrown
    [Error] is the [Throw] case of their result.  [Math.random], the
    clock, the two live providers and [Math.sqrt] are given by a
    [World]; log entries are not kept.  Dates are day numbers (days
    since 1970-01-01, the [YYYY-MM-DD] part of [toISOString]), instants
    are milliseconds since the epoch, and the time zone of the process
    is part of its configuration.  Symbol and indicator names are ASCII
    strings. *)

From Stdlib Require Import QArith Qround Qabs ZArith List Lia Lqa Bool Ascii String.
From Stdlib Require Import Sorted Permutation.
From stdpp Require Import gmap strings list fin_maps.

Local Open Scope Z_scope.

(** ** JavaScript numbers *)

Module JSNum.

Inductive num : Type :=
| Fin (q : Q)
| PInf
| NInf
| NaN.

Definition Qltb (a b : Q) : bool := negb (Qle_bool b a).

Definition zero : num := Fin 0.
Definition of_Z (z : Z) : num := Fin (inject_Z z).

(** [a + b] *)
Definition nadd (a b : num) : num :=
  match a, b with
  | NaN, _ | _, NaN => NaN
  | Fin x, Fin y => Fin (Qred (x + y))
  | PInf, NInf | NInf, PInf => NaN
  | PInf, _ | _, PInf => PInf
  | NInf, _ | _, NInf => NInf
  end.

Definition nopp (a : num) : num :=
  match a with
  | Fin x => Fin (- x)
  | PInf => NInf
  | NInf => PInf
  | NaN => NaN
  end.

(** [a - b] *)
Definition nsub (a b : num) : num := nadd a (nopp b).

(** The infinity of the sign of [s * q], [NaN] when [q] is zero. *)
Definition inf_times (positive : bool) (q : Q) : num :=
  if Qeq_bool q 0 then NaN
  else if xorb positive (Qltb q 0) then PInf else NInf.

(** [a * b] *)
Definition nmul (a b : num) : num :=
  match a, b with
  | NaN, _ | _, NaN => NaN
  | Fin x, Fin y => Fin (Qred (x * y))
  | PInf, Fin y | Fin y, PInf => inf_times true y
  | NInf, Fin y | Fin y, NInf => inf_times false y
  | PInf, PInf | NInf, NInf => PInf
  | PInf, NInf | NInf, PInf => NaN
  end.

(** [a / b].  A finite zero divisor is taken as [+0]: the two divisions
    of the indicator library that can meet one (RSI's [avgGain / avgLoss]
    and Stochastic's [/ (highestHigh - lowestLow)]) divide by a sum of
    non-negative terms and by a difference of equal numbers, both [+0]. *)
Definition ndiv (a b : num) : num :=
  match a, b with
  | NaN, _ | _, NaN => NaN
  | Fin x, Fin y =>
      if Qeq_bool y 0 then
        (if Qeq_bool x 0 then NaN else if Qltb x 0 then NInf else PInf)
      else Fin (Qred (x / y))
  | Fin _, (PInf | NInf) => Fin 0
  | PInf, Fin y => if Qltb y 0 then NInf else PInf
  | NInf, Fin y => if Qltb y 0 then PInf else NInf
  | (PInf | NInf), (PInf | NInf) => NaN
  end.

(** [Math.abs] *)
Definition nabs (a : num) : num :=
  match a with
  | Fin x => Fin (Qabs x)
  | PInf | NInf => PInf
  | NaN => NaN
  end.

(** [a < b]; false as soon as one side is [NaN]. *)
Definition nltb (a b : num) : bool :=
  match a, b with
  | NaN, _ | _, NaN => false
  | Fin x, Fin y => Qltb x y
  | NInf, (Fin _ | PInf) => true
  | Fin _, PInf => true
  | _, _ => false
  end.

(** [a > b] *)
Definition ngtb (a b : num) : bool := nltb b a.

(** [Math.max(a, b)]: [NaN] as soon as one argument is. *)
Definition nmax (a b : num) : num :=
  match a, b with
  | NaN, _ | _, NaN => NaN
  | _, _ => if nltb a b then b else a
  end.

(** Truthiness of a number: neither zero nor [NaN]. *)
Definition truthy (a : num) : bool :=
  match a with
  | Fin x => negb (Qeq_bool x 0)
  | NaN => false
  | PInf | NInf => true
  end.

(** [parseFloat(x.toFixed(d))].  [toFixed] picks the integer [n] with
    [n / 10^d] nearest to [|x|], the larger one on a tie, and keeps the
    sign; at [|x| >= 1e21] it prints the number itself, and [NaN] and the
    infinities print as themselves: [parseFloat] reads all of these back. *)
Definition pow10 (d : nat) : Z := 10 ^ Z.of_nat d.

Definition round_half_up (d : nat) (x : Q) : Q :=
  Qred (inject_Z (Qfloor (x * inject_Z (pow10 d) + (1 # 2))) / inject_Z (pow10 d)).

Definition toFixed (d : nat) (a : num) : num :=
  match a with
  | Fin x =>
      if Qle_bool (inject_Z (pow10 21)) (Qabs x) then Fin x
      else if Qltb x 0 then Fin (- round_half_up d (- x))
      else Fin (round_half_up d x)
  | _ => a
  end.

(** Array read [values[i]], [undefined] read as [NaN]. *)
Definition aget (values : list num) (i : Z) : num :=
  if i <? 0 then NaN else default NaN (values !! Z.to_nat i).

(** Array read [values[i]] kept as a value: [None] is [undefined]. *)
Definition aread (values : list num) (i : Z) : option num :=
  if i <? 0 then None else values !! Z.to_nat i.

(** [ToNumber] of such a value: [undefined] becomes [NaN]. *)
Definition of_undefined (v : option num) : num := default NaN v.

(** The indices [lo, lo+1, ..., hi-1] of a counting [for] loop. *)
Definition zrange (lo hi : Z) : list Z :=
  map (fun k => lo + Z.of_nat k) (seq 0 (Z.to_nat (hi - lo))).

(** Predicates used in the statements: [is_fin a q] says that [a] is the
    finite number of value [q]. *)
Definition is_fin (a : num) (q : Q) : Prop := exists q', a = Fin q' /\ (q' == q)%Q.
Definition finite_pos (a : num) : Prop := exists q, a = Fin q /\ (0 < q)%Q.
Definition finite_nonneg (a : num) : Prop := exists q, a = Fin q /\ (0 <= q)%Q.
Definition is_zero (a : num) : Prop := exists q, a = Fin q /\ (q == 0)%Q.
Definition in_0_100 (a : num) : Prop :=
  exists q, a = Fin q /\ (0 <= q)%Q /\ (q <= 100)%Q.

(** What the running averages of RSI can be: [NaN], [+Infinity] or a
    finite number that is not negative. *)
Definition nonneg_or_nan (a : num) : Prop := a = NaN \/ a = PInf \/ finite_nonneg a.
Definition nan_or_0_100 (a : num) : Prop := a = NaN \/ in_0_100 a.

End JSNum.
Import JSNum.

(** ** The indicator library ([technicalIndicators.js])

    Every [calculate] keeps the loops of the source: a counting loop is
    a [map] or a recursion over its list of indices, an accumulator is a
    [fold_left] in the order of the source. *)

Module TechnicalIndicators.

(** [let sum = 0; for (j = 0; j < period; j++) sum += values[i - j]] *)
Definition window_sum (values : list num) (i period : Z) : num :=
  fold_left (fun sum j => nadd sum (aget values (i - j))) (zrange 0 period) zero.

Definition zlength {A} (l : list A) : Z := Z.of_nat (length l).

Module SMA.
Definition calculate (period : Z) (values : list num) : list num :=
    map (fun i => ndiv (window_sum values i period) (of_Z period))
        (zrange (period - 1) (zlength values)).
End SMA.

Module EMA.
  (** The second loop: each value is pushed and is [result[result.length - 1]]
      of the next round. *)
Fixpoint loop (multiplier : num) (values : list num) (idx : list Z) (last : num)
    : list num :=
    match idx with
    | [] => []
    | i :: rest =>
        let ema := nadd (nmul (aget values i) multiplier)
                        (nmul last (nsub (of_Z 1) multiplier)) in
        ema :: loop multiplier values rest ema
    end.

Definition seed (period : Z) (values : list num) : num :=
    ndiv (fold_left (fun sum i => nadd sum (aget values i)) (zrange 0 period) zero)
         (of_Z period).

Definition calculate (period : Z) (values : list num) : list num :=
    let multiplier := ndiv (of_Z 2) (nadd (of_Z period) (of_Z 1)) in
    let first := seed period values in
    first :: loop multiplier values (zrange period (zlength values)) first.
End EMA.

Module RSI.
Definition changes (values : list num) : list num :=
    map (fun i => nsub (aget values i) (aget values (i - 1)))
        (zrange 1 (zlength values)).

Definition gain_of (change : num) : num :=
    if ngtb change zero then change else zero.
Definition loss_of (change : num) : num :=
    if nltb change zero then nabs change else zero.

  (** [l.slice(0, e)] *)
Definition slice0 {A} (l : list A) (e : Z) : list A :=
    if e <? 0 then take (length l - Z.to_nat (- e)) l else take (Z.to_nat e) l.

  (** [l.reduce((a, b) => a + b, 0)] *)
Definition sum_list (l : list num) : num := fold_left nadd l zero.

Definition smooth (period : Z) (avg x : num) : num :=
    ndiv (nadd (nmul avg (of_Z (period - 1))) x) (of_Z period).

Definition rsi_value (avgGain avgLoss : num) : num :=
    let rs := ndiv avgGain avgLoss in
    nsub (of_Z 100) (ndiv (of_Z 100) (nadd (of_Z 1) rs)).

Fixpoint loop (period : Z) (gains losses : list num) (idx : list Z)
    (avgGain avgLoss : num) : list num :=
    match idx with
    | [] => []
    | i :: rest =>
        let avgGain' := smooth period avgGain (aget gains i) in
        let avgLoss' := smooth period avgLoss (aget losses i) in
        rsi_value avgGain' avgLoss' :: loop period gains losses rest avgGain' avgLoss'
    end.

Definition calculate (values : list num) (period : Z) : list num :=
    let gains := map gain_of (changes values) in
    let losses := map loss_of (changes values) in
    let avgGain := ndiv (sum_list (slice0 gains period)) (of_Z period) in
    let avgLoss := ndiv (sum_list (slice0 losses period)) (of_Z period) in
    loop period gains losses (zrange period (zlength gains)) avgGain avgLoss.
End RSI.

Module MACD.
(** [MACD] is [macdLine[i + signalStartIndex]] as read: [None] when the
    read is past the end of [macdLine] ([undefined]). *)
Record entry : Type := { MACD : option num; signal : num; histogram : num }.

Definition macdLine (values : list num) (fastPeriod slowPeriod : Z) : list num :=
    let fastEMA := EMA.calculate fastPeriod values in
    let slowEMA := EMA.calculate slowPeriod values in
    let startIndex := slowPeriod - fastPeriod in
    map (fun i => nsub (aget fastEMA (i + startIndex)) (aget slowEMA i))
        (zrange 0 (zlength fastEMA - startIndex)).

Definition calculate (values : list num) (fastPeriod slowPeriod signalPeriod : Z)
    : list entry :=
    let line := macdLine values fastPeriod slowPeriod in
    let signalLine := EMA.calculate signalPeriod line in
    let signalStartIndex := signalPeriod - 1 in
    map (fun i =>
           let macd := aread line (i + signalStartIndex) in
           let signal := aget signalLine i in
           let histogram := nsub (of_undefined macd) signal in
           {| MACD := macd; signal := signal; histogram := histogram |})
        (zrange 0 (zlength signalLine)).
End MACD.

Module BollingerBands.
Record entry : Type := { upper : num; middle : num; lower : num }.

Section WithSqrt.
    (** [Math.sqrt] has no exact counterpart on rationals: it is a
        parameter of the band computation. *)
Variable Math_sqrt : num -> num.

Definition band (period : Z) (values : list num) (stdDev : num) (i : Z) : entry :=
      let sma := ndiv (window_sum values i period) (of_Z period) in
      let variance :=
        fold_left (fun variance j =>
                     let dev := nsub (aget values (i - j)) sma in
                     nadd variance (nmul dev dev))
                  (zrange 0 period) zero in
      let standardDeviation := Math_sqrt (ndiv variance (of_Z period)) in
      {| upper := nadd sma (nmul standardDeviation stdDev);
         middle := sma;
         lower := nsub sma (nmul standardDeviation stdDev) |}.

Definition calculate (period : Z) (values : list num) (stdDev : num) : list entry :=
      map (band period values stdDev) (zrange (period - 1) (zlength values)).
End WithSqrt.
End BollingerBands.

Module Stochastic.
Record entry : Type := { k : num; d : num }.

Definition highestHigh (high : list num) (i period : Z) : num :=
    fold_left (fun hh j => if ngtb (aget high (i - j)) hh then aget high (i - j) else hh)
              (zrange 1 period) (aget high i).

Definition lowestLow (low : list num) (i period : Z) : num :=
    fold_left (fun ll j => if nltb (aget low (i - j)) ll then aget low (i - j) else ll)
              (zrange 1 period) (aget low i).

Definition percentK (high low close : list num) (period i : Z) : num :=
    let hh := highestHigh high i period in
    let ll := lowestLow low i period in
    nmul (ndiv (nsub (aget close i) ll) (nsub hh ll)) (of_Z 100).

Definition kValues (high low close : list num) (period : Z) : list num :=
    map (percentK high low close period) (zrange (period - 1) (zlength close)).

Definition calculate (high low close : list num) (period signalPeriod : Z)
    : list entry :=
    let ks := kValues high low close period in
    let dValues := SMA.calculate signalPeriod ks in
    let dStartIndex := signalPeriod - 1 in
    map (fun i => {| k := aget ks (i + dStartIndex); d := aget dValues i |})
        (zrange 0 (zlength dValues)).
End Stochastic.

Module ATR.
Definition trueRange (high low close : list num) (i : Z) : num :=
    let tr1 := nsub (aget high i) (aget low i) in
    let tr2 := nabs (nsub (aget high i) (aget close (i - 1))) in
    let tr3 := nabs (nsub (aget low i) (aget close (i - 1))) in
    nmax (nmax tr1 tr2) tr3.

Definition calculate (high low close : list num) (period : Z) : list num :=
    SMA.calculate period (map (trueRange high low close) (zrange 1 (zlength close))).
End ATR.

End TechnicalIndicators.

(** ** The stock service ([stockService.js]) *)

Module StockService.
Import TechnicalIndicators.

(** A call either returns or throws an [Error] with a message. *)
Inductive result (A : Type) : Type :=
| Ok (a : A)
| Throw (message : string).
Arguments Ok {A} a.
Arguments Throw {A} message.

(** Dates are day numbers (days since the epoch): the [YYYY-MM-DD]
    strings of the source name calendar days. *)
Module Bar.
Record t : Type :=
  { date : Z; open : num; high : num; low : num; close : num; volume : num }.
End Bar.

Module IndicatorPoint.
Record t : Type := { date : Z; value : option num; price : num }.
End IndicatorPoint.

Module MacdPoint.
Record t : Type :=
  { date : Z; macd : option num; signal : option num; histogram : option num }.
End MacdPoint.

Module BollingerPoint.
Record t : Type :=
  { date : Z; upper : option num; middle : option num; lower : option num;
    price : num }.
End BollingerPoint.

Module StochasticPoint.
Record t : Type := { date : Z; k : option num; d : option num }.
End StochasticPoint.

(** The points of [getMockIndicatorData]: a date and a value, no price. *)
Module MockPoint.
Record t : Type := { date : Z; value : option num }.
End MockPoint.

(** What [calculateTechnicalIndicator] and [getStockIndicator] return:
    an array whose records have the shape of the indicator; [None] in a
    field is JavaScript's [null]. *)
Inductive IndicatorData : Type :=
| Points (l : list IndicatorPoint.t)
| MacdData (l : list MacdPoint.t)
| BollingerData (l : list BollingerPoint.t)
| StochasticData (l : list StochasticPoint.t)
| MockData (l : list MockPoint.t).

Definition dates (data : IndicatorData) : list Z :=
  match data with
  | Points l => map IndicatorPoint.date l
  | MacdData l => map MacdPoint.date l
  | BollingerData l => map BollingerPoint.date l
  | StochasticData l => map StochasticPoint.date l
  | MockData l => map MockPoint.date l
  end.

(** [String.prototype.toLowerCase] on ASCII names. *)
Definition lower_ascii (c : ascii) : ascii :=
  let n := Ascii.nat_of_ascii c in
  if ((65 <=? n) && (n <=? 90))%nat then Ascii.ascii_of_nat (n + 32) else c.

Fixpoint toLowerCase (s : string) : string :=
  match s with
  | EmptyString => EmptyString
  | String c rest => String (lower_ascii c) (toLowerCase rest)
  end.

(** Element [l[i]] of an array of records, [None] for [undefined]. *)
Definition oget {A} (l : list A) (i : Z) : option A :=
  if i <? 0 then None else l !! Z.to_nat i.

Definition closes (historicalData : list Bar.t) : list num := map Bar.close historicalData.
Definition highs (historicalData : list Bar.t) : list num := map Bar.high historicalData.
Definition lows (historicalData : list Bar.t) : list num := map Bar.low historicalData.

(** [mapIndicatorToData]: the value is present when the index is in
    range and the indicator value is truthy. *)
Definition mapIndicatorToData (historicalData : list Bar.t)
  (indicatorValues : list num) (period : Z) : list IndicatorPoint.t :=
  imap (fun index dataPoint =>
          let indicatorIndex := Z.of_nat index - (period - 1) in
          {| IndicatorPoint.date := Bar.date dataPoint;
             IndicatorPoint.value :=
               if (0 <=? indicatorIndex) && truthy (aget indicatorValues indicatorIndex)
               then Some (toFixed 4 (aget indicatorValues indicatorIndex))
               else None;
             IndicatorPoint.price := Bar.close dataPoint |})
       historicalData.

(** The shape the specification gives to a single-valued result over
    [len] bars with a warm-up of [warmup] positions: one point per bar,
    [null] exactly at the first [warmup] positions, hence [len - warmup]
    values that are not [null]. *)
Definition nonNull (pt : IndicatorPoint.t) : bool :=
  match IndicatorPoint.value pt with Some _ => true | None => false end.

Definition nonnull_count (out : list IndicatorPoint.t) : nat :=
  length (List.filter nonNull out).

Definition warmUpShape (len : nat) (warmup : Z) (out : list IndicatorPoint.t) : Prop :=
  length out = len
  /\ (forall i pt, out !! i = Some pt ->
                  (Z.of_nat i < warmup <-> IndicatorPoint.value pt = None))
  /\ Z.of_nat (nonnull_count out) = Z.of_nat len - warmup.

Definition macd_points (historicalData : list Bar.t) (macd : list MACD.entry)
  : list MacdPoint.t :=
  imap (fun index dataPoint =>
          let e := oget macd (Z.of_nat index - 25) in
          {| MacdPoint.date := Bar.date dataPoint;
             MacdPoint.macd :=
               (fun x => match MACD.MACD x with
                         | Some v => toFixed 4 v
                         | None => NaN
                         end) <$> e;
             MacdPoint.signal := (fun x => toFixed 4 (MACD.signal x)) <$> e;
             MacdPoint.histogram := (fun x => toFixed 4 (MACD.histogram x)) <$> e |})
       historicalData.

Definition bollinger_points (historicalData : list Bar.t)
  (bb : list BollingerBands.entry) : list BollingerPoint.t :=
  imap (fun index dataPoint =>
          let e := oget bb (Z.of_nat index - 19) in
          {| BollingerPoint.date := Bar.date dataPoint;
             BollingerPoint.upper := (fun x => toFixed 2 (BollingerBands.upper x)) <$> e;
             BollingerPoint.middle := (fun x => toFixed 2 (BollingerBands.middle x)) <$> e;
             BollingerPoint.lower := (fun x => toFixed 2 (BollingerBands.lower x)) <$> e;
             BollingerPoint.price := Bar.close dataPoint |})
       historicalData.

Definition stochastic_points (historicalData : list Bar.t)
  (stoch : list Stochastic.entry) : list StochasticPoint.t :=
  imap (fun index dataPoint =>
          let e := oget stoch (Z.of_nat index - 13) in
          {| StochasticPoint.date := Bar.date dataPoint;
             StochasticPoint.k := (fun x => toFixed 2 (Stochastic.k x)) <$> e;
             StochasticPoint.d := (fun x => toFixed 2 (Stochastic.d x)) <$> e |})
       historicalData.

(** The indicator names of the [switch], after [toLowerCase]. *)
Definition supported_names : list string :=
  ["sma"; "sma20"; "sma50"; "ema"; "ema12"; "ema26"; "macd"; "rsi";
   "bollinger"; "bb"; "stochastic"; "atr"]%string.

Definition is_name (name : string) (cases : list string) : bool :=
  existsb (String.eqb name) cases.

Definition supported (indicator : string) : bool :=
  is_name (toLowerCase indicator) supported_names.

Section Indicators.
Variable Math_sqrt : num -> num.

Definition calculateTechnicalIndicator (historicalData : list Bar.t)
  (indicator : string) : result IndicatorData :=
  let closes := closes historicalData in
  let highs := highs historicalData in
  let lows := lows historicalData in
  let name := toLowerCase indicator in
  if is_name name ["sma"; "sma20"]%string then
    Ok (Points (mapIndicatorToData historicalData (SMA.calculate 20 closes) 20))
  else if is_name name ["sma50"]%string then
    Ok (Points (mapIndicatorToData historicalData (SMA.calculate 50 closes) 50))
  else if is_name name ["ema"; "ema12"]%string then
    Ok (Points (mapIndicatorToData historicalData (EMA.calculate 12 closes) 12))
  else if is_name name ["ema26"]%string then
    Ok (Points (mapIndicatorToData historicalData (EMA.calculate 26 closes) 26))
  else if is_name name ["macd"]%string then
    Ok (MacdData (macd_points historicalData (MACD.calculate closes 12 26 9)))
  else if is_name name ["rsi"]%string then
    Ok (Points (mapIndicatorToData historicalData (RSI.calculate closes 14) 14))
  else if is_name name ["bollinger"; "bb"]%string then
    Ok (BollingerData
          (bollinger_points historicalData
             (BollingerBands.calculate Math_sqrt 20 closes (of_Z 2))))
  else if is_name name ["stochastic"]%string then
    Ok (StochasticData
          (stochastic_points historicalData (Stochastic.calculate highs lows closes 14 3)))
  else if is_name name ["atr"]%string then
    Ok (Points (mapIndicatorToData historicalData (ATR.calculate highs lows closes 14) 14))
  else Throw ("Unsupported indicator: " +:+ indicator).

End Indicators.


(** *** Signals *)

Inductive SignalType : Type := BUY | SELL.
Inductive Strength : Type := Weak | Medium | Strong.

(** A description is a literal, or the RSI template
    [`RSI at ${latestRSI.toFixed(2)} indicates ... conditions`], kept
    with the number it prints and the word that follows. *)
Inductive Description : Type :=
| Text (s : string)
| RsiAt (latestRSI : num) (condition : string).

Record Signal : Type :=
  { type : SignalType; signal : string; strength : Strength;
    description : Description }.

Record Indicators : Type :=
  { sma20 : list IndicatorPoint.t; sma50 : list IndicatorPoint.t;
    ema12 : list IndicatorPoint.t; ema26 : list IndicatorPoint.t;
    rsi : list IndicatorPoint.t; macd : list MacdPoint.t;
    bb : list BollingerPoint.t }.

(** Truthiness of a field that is a number or [null] (or [undefined]). *)
Definition truthy_opt (v : option num) : bool :=
  match v with Some n => truthy n | None => false end.

(** [ToNumber] of such a field in a comparison: [null] counts as 0. *)
Definition to_number (v : option num) : num := default zero v.

Definition gt (a b : option num) : bool := ngtb (to_number a) (to_number b).
Definition lt (a b : option num) : bool := nltb (to_number a) (to_number b).

Definition goldenCross : Signal :=
  {| type := BUY; signal := "Golden Cross Pattern"; strength := Strong;
     description := Text "Price above SMA20, SMA20 above SMA50" |}.
Definition deathCross : Signal :=
  {| type := SELL; signal := "Death Cross Pattern"; strength := Strong;
     description := Text "Price below SMA20, SMA20 below SMA50" |}.
Definition rsiOverbought (latestRSI : num) : Signal :=
  {| type := SELL; signal := "RSI Overbought"; strength := Medium;
     description := RsiAt latestRSI "overbought" |}.
Definition rsiOversold (latestRSI : num) : Signal :=
  {| type := BUY; signal := "RSI Oversold"; strength := Medium;
     description := RsiAt latestRSI "oversold" |}.
Definition macdBullish : Signal :=
  {| type := BUY; signal := "MACD Bullish"; strength := Medium;
     description := Text "MACD line above signal line with positive histogram" |}.
Definition macdBearish : Signal :=
  {| type := SELL; signal := "MACD Bearish"; strength := Medium;
     description := Text "MACD line below signal line with negative histogram" |}.
Definition bollingerUpper : Signal :=
  {| type := SELL; signal := "Bollinger Upper Breach"; strength := Medium;
     description := Text "Price above upper Bollinger Band" |}.
Definition bollingerLower : Signal :=
  {| type := BUY; signal := "Bollinger Lower Breach"; strength := Medium;
     description := Text "Price below lower Bollinger Band" |}.

(** The four [if] blocks of [generateTradingSignals], each the list of
    what it pushes. *)
Definition movingAverageSignals (currentPrice : num) (latestSMA20 latestSMA50 : option num)
  : list Signal :=
  if truthy_opt latestSMA20 && truthy_opt latestSMA50 then
    if gt (Some currentPrice) latestSMA20 && gt latestSMA20 latestSMA50 then [goldenCross]
    else if lt (Some currentPrice) latestSMA20 && lt latestSMA20 latestSMA50 then [deathCross]
    else []
  else [].

Definition rsiSignals (latestRSI : option num) : list Signal :=
  if truthy_opt latestRSI then
    if gt latestRSI (Some (of_Z 70)) then [rsiOverbought (to_number latestRSI)]
    else if lt latestRSI (Some (of_Z 30)) then [rsiOversold (to_number latestRSI)]
    else []
  else [].

Definition macdSignals (latestMACD : option MacdPoint.t) : list Signal :=
  match latestMACD with
  | Some m =>
      if truthy_opt (MacdPoint.macd m) && truthy_opt (MacdPoint.signal m) then
        if gt (MacdPoint.macd m) (MacdPoint.signal m)
           && gt (MacdPoint.histogram m) (Some zero) then [macdBullish]
        else if lt (MacdPoint.macd m) (MacdPoint.signal m)
                && lt (MacdPoint.histogram m) (Some zero) then [macdBearish]
        else []
      else []
  | None => []
  end.

Definition bollingerSignals (currentPrice : num) (latestBB : option BollingerPoint.t)
  : list Signal :=
  match latestBB with
  | Some b =>
      if truthy_opt (BollingerPoint.upper b) && truthy_opt (BollingerPoint.lower b) then
        if gt (Some currentPrice) (BollingerPoint.upper b) then [bollingerUpper]
        else if lt (Some currentPrice) (BollingerPoint.lower b) then [bollingerLower]
        else []
      else []
  | None => []
  end.

(** [l[l.length - 1]?.value] *)
Definition latest_value (l : list IndicatorPoint.t) : option num :=
  last l ≫= IndicatorPoint.value.

(** [generateTradingSignals]; reading [.close] of the last bar of an
    empty series throws a [TypeError], whose message is kept. *)
Definition generateTradingSignals (historicalData : list Bar.t)
  (indicators : Indicators) : result (list Signal) :=
  match last historicalData with
  | None => Throw "Cannot read properties of undefined (reading 'close')"
  | Some bar =>
      let currentPrice := Bar.close bar in
      let latestSMA20 := latest_value (sma20 indicators) in
      let latestSMA50 := latest_value (sma50 indicators) in
      let latestRSI := latest_value (rsi indicators) in
      let latestMACD := last (macd indicators) in
      let latestBB := last (bb indicators) in
      Ok (movingAverageSignals currentPrice latestSMA20 latestSMA50
          ++ rsiSignals latestRSI
          ++ macdSignals latestMACD
          ++ bollingerSignals currentPrice latestBB)
  end.


(** *** Configuration, environment and state

    [Config] holds what the process is started with: the two settings
    read from [process.env] and the time zone ([TZ], or the setting of
    the host), given as the [LocalTZA(t, isUTC)] of ECMAScript: the
    offset in milliseconds of local time from UTC, at the instant [t]
    for [isUTC = true] and at the local time [t] otherwise.  [World]
    holds what the process cannot decide: the draws of [Math.random],
    the readings of the clock, the answers of the two live providers
    (already converted to bars) and [Math.sqrt].  [State] counts the
    draws and the clock readings made so far and holds the cache. *)

Record Config : Type :=
  { USE_LIVE_DATA : bool; ALPHA_VANTAGE_API_KEY : option string;
    TZ : Z -> bool -> Z }.

(** The time zone [UTC]. *)
Definition utc : Z -> bool -> Z := fun _ _ => 0.

(** [if (ALPHA_VANTAGE_API_KEY)]: set and not the empty string. *)
Definition key_configured (cfg : Config) : bool :=
  match ALPHA_VANTAGE_API_KEY cfg with
  | Some key => negb (String.eqb key "")
  | None => false
  end.

Record World : Type :=
  { Math_random : nat -> Q;
    Date_now : nat -> Z;
    yahooFinance_historical : string -> string -> result (list Bar.t);
    alpha_data : string -> string -> result (list Bar.t);
    Math_sqrt : num -> num }.

(** Modelled from the spec: the cache ([node-cache] behind
    [middleware/cache.js]) is a key-value store with a time to live per
    entry; [get] on a key that is absent or whose [expiresAt] has passed
    gives "absent", [set] stores the value with [expiresAt = now + ttl].
    The keys of the series and of the indicator results start with
    different prefixes ([stock_] and [indicator_]), so the one store is
    kept as two typed maps. *)
Record State : Type :=
  { draws : nat;
    reads : nat;
    stock_cache : gmap string (list Bar.t * Z);
    indicator_cache : gmap string (IndicatorData * Z) }.

Definition M (A : Type) : Type := State -> A * State.
Definition ret {A} (a : A) : M A := fun s => (a, s).
Definition bind {A B} (m : M A) (f : A -> M B) : M B :=
  fun s => let (a, s') := m s in f a s'.

Notation "'do' x <- m ; k" := (bind m (fun x => k))
  (at level 10, x pattern, m at level 100, k at level 200).

Fixpoint mapM {A B} (f : A -> M B) (l : list A) : M (list B) :=
  match l with
  | [] => ret []
  | a :: rest => do b <- f a; do bs <- mapM f rest; ret (b :: bs)
  end.

Definition ms_per_day : Z := 86400000.

Section Service.
Variable cfg : Config.
Variable w : World.

(** [Math.random()] *)
Definition random : M num :=
  fun s => (Fin (Math_random w (draws s)),
            {| draws := S (draws s); reads := reads s;
               stock_cache := stock_cache s; indicator_cache := indicator_cache s |}).

(** [Date.now()] / [new Date()], in milliseconds. *)
Definition now : M Z :=
  fun s => (Date_now w (reads s),
            {| draws := draws s; reads := S (reads s);
               stock_cache := stock_cache s; indicator_cache := indicator_cache s |}).

Definition live (expiresAt t : Z) : bool := t <=? expiresAt.

Definition cache_get_stock (key : string) : M (option (list Bar.t)) :=
  do t <- now;
  fun s => (match stock_cache s !! key with
            | Some (v, expiresAt) => if live expiresAt t then Some v else None
            | None => None
            end, s).

Definition cache_set_stock (key : string) (v : list Bar.t) (ttl : Z) : M unit :=
  do t <- now;
  fun s => (tt, {| draws := draws s; reads := reads s;
                   stock_cache := <[key := (v, t + ttl * 1000)]> (stock_cache s);
                   indicator_cache := indicator_cache s |}).

Definition cache_get_indicator (key : string) : M (option IndicatorData) :=
  do t <- now;
  fun s => (match indicator_cache s !! key with
            | Some (v, expiresAt) => if live expiresAt t then Some v else None
            | None => None
            end, s).

Definition cache_set_indicator (key : string) (v : IndicatorData) (ttl : Z) : M unit :=
  do t <- now;
  fun s => (tt, {| draws := draws s; reads := reads s;
                   stock_cache := stock_cache s;
                   indicator_cache := <[key := (v, t + ttl * 1000)]> (indicator_cache s) |}).

(** [getNumDaysFromTimeRange] *)
Definition getNumDaysFromTimeRange (timeRange : string) : Z :=
  if String.eqb timeRange "1d" then 1
  else if String.eqb timeRange "5d" then 5
  else if String.eqb timeRange "1w" then 7
  else if String.eqb timeRange "1m" then 30
  else if String.eqb timeRange "3m" then 90
  else if String.eqb timeRange "6m" then 180
  else if String.eqb timeRange "1y" then 365
  else if String.eqb timeRange "5y" then 365 * 5
  else if String.eqb timeRange "max" then 365 * 10
  else 30.

(** [getBasePrice]: the character codes of the symbol, summed. *)
Definition charCodes (symbol : string) : list Z :=
  map (fun c => Z.of_nat (nat_of_ascii c)) (list_ascii_of_string symbol).

Definition getBasePrice (symbol : string) : num :=
  let baseValue := fold_left Z.add (charCodes symbol) 0 in
  of_Z (10 + baseValue mod 490).

Definition nfloor (a : num) : num :=
  match a with Fin x => Fin (inject_Z (Qfloor x)) | _ => a end.

(** The date of a bar of [getMockStockData]:
    [date.setDate(date.getDate() - i)] moves the local time back by [i]
    calendar days, keeping the local time of day
    ([MakeDate(MakeDay(year, month, date - i), TimeWithinDay(t))] on the
    local time [t] is [t - i * msPerDay]), and converts the result to
    an instant with the offset in force there;
    [toISOString().split('T')[0]] is the UTC day of that instant. *)
Definition LocalTime (t : Z) : Z := t + TZ cfg t true.
Definition UTC (t : Z) : Z := t - TZ cfg t false.
Definition setDateBack (t i : Z) : Z := UTC (LocalTime t - i * ms_per_day).
Definition isoDate (t : Z) : Z := t / ms_per_day.

(** One round of the loop of [getMockStockData]: the bar pushed and the
    base price carried to the next round. *)
Definition mockBar (i : Z) (basePrice : num) : M (Bar.t * num) :=
  do t <- now;
  let date := isoDate (setDateBack t i) in
  let volatility := Fin (2 # 100) in
  do r1 <- random;
  let change := nmul (nmul basePrice volatility) (nsub r1 (Fin (1 # 2))) in
  let basePrice := nadd basePrice change in
  let basePrice := if nltb basePrice (of_Z 1) then of_Z 1 else basePrice in
  let open := basePrice in
  do r2 <- random;
  let high := nmul open (nadd (of_Z 1) (nmul r2 (Fin (15 # 1000)))) in
  do r3 <- random;
  let low := nmul open (nsub (of_Z 1) (nmul r3 (Fin (15 # 1000)))) in
  do r4 <- random;
  let close := nadd low (nmul r4 (nsub high low)) in
  do r5 <- random;
  let volume := nadd (nfloor (nmul r5 (of_Z 10000000))) (of_Z 500000) in
  ret ({| Bar.date := date;
          Bar.open := toFixed 2 open; Bar.high := toFixed 2 high;
          Bar.low := toFixed 2 low; Bar.close := toFixed 2 close;
          Bar.volume := volume |}, basePrice).

(** The arithmetic of one round on its own, given the date and the five
    draws: what [mockBar] computes (lemma [mockBar_unfold]). *)
Definition mockBarOf (date : Z) (r1 r2 r3 r4 r5 : num) (basePrice : num)
  : Bar.t * num :=
  let volatility := Fin (2 # 100) in
  let change := nmul (nmul basePrice volatility) (nsub r1 (Fin (1 # 2))) in
  let basePrice := nadd basePrice change in
  let basePrice := if nltb basePrice (of_Z 1) then of_Z 1 else basePrice in
  let open := basePrice in
  let high := nmul open (nadd (of_Z 1) (nmul r2 (Fin (15 # 1000)))) in
  let low := nmul open (nsub (of_Z 1) (nmul r3 (Fin (15 # 1000)))) in
  let close := nadd low (nmul r4 (nsub high low)) in
  ({| Bar.date := date;
      Bar.open := toFixed 2 open; Bar.high := toFixed 2 high;
      Bar.low := toFixed 2 low; Bar.close := toFixed 2 close;
      Bar.volume := nadd (nfloor (nmul r5 (of_Z 10000000))) (of_Z 500000) |},
   basePrice).

Fixpoint mockLoop (idx : list Z) (basePrice : num) : M (list Bar.t) :=
  match idx with
  | [] => ret []
  | i :: rest =>
      do bp <- mockBar i basePrice;
      do bars <- mockLoop rest (snd bp);
      ret (fst bp :: bars)
  end.

(** [getMockStockData]: [for (let i = numDays; i >= 0; i--)]. *)
Definition getMockStockData (symbol timeRange : string) : M (list Bar.t) :=
  let numDays := getNumDaysFromTimeRange timeRange in
  mockLoop (rev (zrange 0 (numDays + 1))) (getBasePrice symbol).

(** [getYahooFinanceData]: an empty answer throws; the answer is
    reversed into chronological order. *)
Definition getYahooFinanceData (symbol timeRange : string) : result (list Bar.t) :=
  match yahooFinance_historical w symbol timeRange with
  | Throw e => Throw e
  | Ok result =>
      if (length result =? 0)%nat then Throw ("No data found for symbol " +:+ symbol)
      else Ok (rev result)
  end.

(** [array.sort((a, b) => new Date(a.date) - new Date(b.date))]: a
    stable sort by date. *)
Fixpoint insertByDate (b : Bar.t) (l : list Bar.t) : list Bar.t :=
  match l with
  | [] => [b]
  | x :: rest => if Bar.date b <? Bar.date x then b :: l else x :: insertByDate b rest
  end.

Definition sortByDate (l : list Bar.t) : list Bar.t :=
  fold_left (fun acc b => insertByDate b acc) l [].

(** [getAlphaVantageData]: refuses without a client, then sorts the
    entries and keeps the last [numDays]. *)
Definition getAlphaVantageData (symbol timeRange : string) : result (list Bar.t) :=
  if negb (key_configured cfg) then Throw "Alpha Vantage API key not configured"
  else
    match alpha_data w symbol timeRange with
    | Throw e => Throw e
    | Ok result =>
        let numDays := Z.to_nat (getNumDaysFromTimeRange timeRange) in
        let sorted := sortByDate result in
        Ok (drop (length sorted - numDays) sorted)
    end.

(** The body of the [try] of [getStockData]. *)
Definition fetchStockData (symbol timeRange : string) : M (result (list Bar.t)) :=
  let cacheKey := "stock_" +:+ symbol +:+ "_" +:+ timeRange in
  do cachedData <- cache_get_stock cacheKey;
  match cachedData with
  | Some data => ret (Ok data)
  | None =>
      do stockData <-
        (if USE_LIVE_DATA cfg then
           match getYahooFinanceData symbol timeRange with
           | Ok data => ret data
           | Throw yError =>
               if key_configured cfg then
                 match getAlphaVantageData symbol timeRange with
                 | Ok data => ret data
                 | Throw aError => getMockStockData symbol timeRange
                 end
               else getMockStockData symbol timeRange
           end
         else getMockStockData symbol timeRange);
      let cacheTime := if USE_LIVE_DATA cfg then 60 else 300 in
      do _ <- cache_set_stock cacheKey stockData cacheTime;
      ret (Ok stockData)
  end.

(** [getStockData]: the [catch] turns whatever the body throws into
    one error. *)
Definition getStockData (symbol timeRange : string) : M (result (list Bar.t)) :=
  do r <- fetchStockData symbol timeRange;
  match r with
  | Ok data => ret (Ok data)
  | Throw _ => ret (Throw ("Failed to fetch stock data for " +:+ symbol))
  end.

(** [getMockIndicatorData] *)
Definition mockSma (stockData : list Bar.t) : list MockPoint.t :=
  let period := 14 in
  imap (fun index dataPoint =>
          if (Z.of_nat index <? period - 1) then
            {| MockPoint.date := Bar.date dataPoint; MockPoint.value := None |}
          else
            let sum := window_sum (closes stockData) (Z.of_nat index) period in
            {| MockPoint.date := Bar.date dataPoint;
               MockPoint.value := Some (toFixed 2 (ndiv sum (of_Z period))) |})
       stockData.

Definition mockValue (dataPoint : Bar.t) : M MockPoint.t :=
  do r <- random;
  ret {| MockPoint.date := Bar.date dataPoint;
         MockPoint.value :=
           Some (toFixed 2 (nmul (Bar.close dataPoint)
                                 (nadd (Fin (8 # 10)) (nmul r (Fin (4 # 10)))))) |}.

Definition getMockIndicatorData (symbol indicator timeRange : string)
  : M (list MockPoint.t) :=
  do stockData <- getMockStockData symbol timeRange;
  if String.eqb indicator "sma" then ret (mockSma stockData)
  else mapM mockValue stockData.

(** The body of the [try] of [getStockIndicator]. *)
Definition fetchStockIndicator (symbol indicator timeRange : string)
  : M (result IndicatorData) :=
  let cacheKey := "indicator_" +:+ symbol +:+ "_" +:+ indicator +:+ "_" +:+ timeRange in
  do cachedData <- cache_get_indicator cacheKey;
  match cachedData with
  | Some data => ret (Ok data)
  | None =>
      do historical <- getStockData symbol timeRange;
      match historical with
      | Throw e => ret (Throw e)
      | Ok historicalData =>
          if (length historicalData =? 0)%nat then
            ret (Throw ("No historical data available for " +:+ symbol))
          else
            do indicatorData <-
              (if USE_LIVE_DATA cfg then
                 match calculateTechnicalIndicator (Math_sqrt w) historicalData indicator with
                 | Ok data => ret data
                 | Throw error =>
                     do mock <- getMockIndicatorData symbol indicator timeRange;
                     ret (MockData mock)
                 end
               else
                 do mock <- getMockIndicatorData symbol indicator timeRange;
                 ret (MockData mock));
            do _ <- cache_set_indicator cacheKey indicatorData 300;
            ret (Ok indicatorData)
      end
  end.

Definition getStockIndicator (symbol indicator timeRange : string)
  : M (result IndicatorData) :=
  do r <- fetchStockIndicator symbol indicator timeRange;
  match r with
  | Ok data => ret (Ok data)
  | Throw _ => ret (Throw ("Failed to fetch indicator data for " +:+ symbol))
  end.

End Service.

End StockService.

(** ** Sample inputs *)

Module Examples.
Import StockService.

(** A bar whose four prices are all [c], dated [d]. *)
Definition flatBar (d : Z) (c : num) : Bar.t :=
  {| Bar.date := d; Bar.open := c; Bar.high := c; Bar.low := c; Bar.close := c;
     Bar.volume := of_Z 1000 |}.

(** The series of flat bars with the given closes, dated 0, 1, 2, ... *)
Definition series (closes : list num) : list Bar.t :=
  imap (fun i c => flatBar (Z.of_nat i) c) closes.

Definition oneToFive : list Bar.t := series (map of_Z [1; 2; 3; 4; 5]).
Definition fiveZeros : list Bar.t := series (replicate 5 zero).
Definition rising16 : list Bar.t := series (map of_Z (zrange 1 17)).
Definition flat16 : list Bar.t := series (replicate 16 (of_Z 5)).

(** Thirty-four closes for MACD(12, 26, 9): one entry is computed. *)
Definition macdCloses : list Z :=
  [18; 14; 28; 27; 22; 20; 28; 17; 23; 21; 13; 28; 21; 18; 21; 28; 21; 22; 10; 21;
   23; 14; 13; 28; 16; 18; 29; 12; 21; 22; 28; 14; 13; 25].
Definition macdSeries : list Bar.t := series (map of_Z macdCloses).

(** An indicator series whose latest value is [v]. *)
Definition latestIs (v : num) : list IndicatorPoint.t :=
  [{| IndicatorPoint.date := 0; IndicatorPoint.value := Some v;
      IndicatorPoint.price := of_Z 100 |}].

Definition bundle (sma20 sma50 rsi : list IndicatorPoint.t) : Indicators :=
  {| sma20 := sma20; sma50 := sma50; ema12 := []; ema26 := []; rsi := rsi;
     macd := []; bb := [] |}.

(** Live data on, no Alpha Vantage key, the process runs in UTC; Yahoo
    Finance is down; every draw is 1/2; the clock stands at day 20000;
    nothing is cached. *)
Definition liveNoKey : Config :=
  {| USE_LIVE_DATA := true; ALPHA_VANTAGE_API_KEY := None; TZ := utc |}.

Definition yahooDown : World :=
  {| Math_random := fun _ => (1 # 2)%Q;
     Date_now := fun _ => 20000 * ms_per_day;
     yahooFinance_historical := fun _ _ => Throw "getaddrinfo ENOTFOUND";
     alpha_data := fun _ _ => Throw "no client";
     Math_sqrt := fun x => x |}.

Definition freshState : State :=
  {| draws := 0; reads := 0; stock_cache := ∅; indicator_cache := ∅ |}.

End Examples.

(** ** The full analysis ([getTechnicalAnalysis])

    The analysis results are cached under keys of their own prefix
    ([technical_analysis_]): the state of the service is extended with
    that part of the store. *)

Module AnalysisService.
Import TechnicalIndicators StockService.

(** The analysis envelope; [indicators] holds the seven lists (its field
    [bb] is the [bollingerBands] of the source), [timestamp] the clock
    reading behind [new Date().toISOString()]. *)
Record Analysis : Type :=
  { symbol : string; timeRange : string; indicators : Indicators;
    signals : list Signal; timestamp : Z }.

Record AState : Type :=
  { service : State; analysis_cache : gmap string (Analysis * Z) }.

Definition MA (A : Type) : Type := AState -> A * AState.

(** A step of the service, run on the service part of the state. *)
Definition lift {A} (m : M A) : MA A :=
  fun s => let (a, s') := m (service s) in
           (a, {| service := s'; analysis_cache := analysis_cache s |}).

Section Analysis.
Variable cfg : Config.
Variable w : World.

Definition cache_get_analysis (key : string) : MA (option Analysis) :=
  fun s => let (t, s') := now w (service s) in
           (match analysis_cache s !! key with
            | Some (v, expiresAt) => if live expiresAt t then Some v else None
            | None => None
            end, {| service := s'; analysis_cache := analysis_cache s |}).

Definition cache_set_analysis (key : string) (v : Analysis) (ttl : Z) : MA unit :=
  fun s => let (t, s') := now w (service s) in
           (tt, {| service := s';
                   analysis_cache := <[key := (v, t + ttl * 1000)]> (analysis_cache s) |}).

(** The seven calls of [calculateTechnicalIndicator] and the call of
    [generateTradingSignals] on their results.  Each call returns the
    list of its indicator's kind; another kind cannot occur and is
    answered like a throw. *)
Definition analyse (historicalData : list Bar.t)
  : result (Indicators * list Signal) :=
  let calc := calculateTechnicalIndicator (Math_sqrt w) historicalData in
  match calc "sma20", calc "sma50", calc "ema12", calc "ema26",
        calc "rsi", calc "macd", calc "bollinger" with
  | Ok (Points sma20), Ok (Points sma50), Ok (Points ema12), Ok (Points ema26),
    Ok (Points rsi), Ok (MacdData macd), Ok (BollingerData bb) =>
      let indicators :=
        {| sma20 := sma20; sma50 := sma50; ema12 := ema12; ema26 := ema26;
           rsi := rsi; macd := macd; bb := bb |} in
      match generateTradingSignals historicalData indicators with
      | Ok signals => Ok (indicators, signals)
      | Throw e => Throw e
      end
  | _, _, _, _, _, _, _ => Throw "unexpected indicator result"
  end.

(** The body of the [try] of [getTechnicalAnalysis]. *)
Definition buildTechnicalAnalysis (symbol timeRange : string)
  : MA (result Analysis) :=
  let cacheKey := "technical_analysis_" +:+ symbol +:+ "_" +:+ timeRange in
  fun s0 =>
    let (cachedData, s1) := cache_get_analysis cacheKey s0 in
    match cachedData with
    | Some data => (Ok data, s1)
    | None =>
        let (historical, s2) := lift (getStockData cfg w symbol timeRange) s1 in
        match historical with
        | Throw e => (Throw e, s2)
        | Ok historicalData =>
            if (length historicalData =? 0)%nat then
              (Throw ("No historical data available for " +:+ symbol), s2)
            else
              match analyse historicalData with
              | Throw e => (Throw e, s2)
              | Ok (indicators, signals) =>
                  let (t, s3) := lift (now w) s2 in
                  let analysis :=
                    {| symbol := symbol; timeRange := timeRange;
                       indicators := indicators; signals := signals;
                       timestamp := t |} in
                  let (_, s4) := cache_set_analysis cacheKey analysis 600 s3 in
                  (Ok analysis, s4)
              end
        end
    end.

Definition getTechnicalAnalysis (symbol timeRange : string) : MA (result Analysis) :=
  fun s =>
    let (r, s') := buildTechnicalAnalysis symbol timeRange s in
    match r with
    | Ok data => (Ok data, s')
    | Throw _ => (Throw ("Failed to generate technical analysis for " +:+ symbol), s')
    end.

End Analysis.
End AnalysisService.

(** ** The helpers of the analysis view and of the comparison view
    ([TechnicalAnalysis.js], [StockComparison.js]) *)

Module AnalysisView.
Import StockService.

(** [getLatestValue]: [null] for an empty list, else [latest?.value]. *)
Definition getLatestValue (indicatorArray : list IndicatorPoint.t) : option num :=
  if (length indicatorArray =? 0)%nat then None
  else last indicatorArray ≫= IndicatorPoint.value.

Definition getLatestMACD (macdArray : list MacdPoint.t) : option MacdPoint.t :=
  if (length macdArray =? 0)%nat then None else last macdArray.

Definition getLatestBollinger (bbArray : list BollingerPoint.t)
  : option BollingerPoint.t :=
  if (length bbArray =? 0)%nat then None else last bbArray.

Definition getRSIStatus (rsi : option num) : string :=
  if negb (truthy_opt rsi) then "neutral"
  else if gt rsi (Some (of_Z 70)) then "overbought"
  else if lt rsi (Some (of_Z 30)) then "oversold"
  else "neutral".

Definition getRSIStatusText (rsi : option num) : string :=
  if negb (truthy_opt rsi) then "N/A"
  else if gt rsi (Some (of_Z 70)) then "Overbought"
  else if lt rsi (Some (of_Z 30)) then "Oversold"
  else "Neutral".

(** [!macd || !macd.macd || !macd.signal] *)
Definition macdMissing (macd : option MacdPoint.t) : bool :=
  match macd with
  | None => true
  | Some m => negb (truthy_opt (MacdPoint.macd m))
              || negb (truthy_opt (MacdPoint.signal m))
  end.

Definition macdAbove (macd : option MacdPoint.t) : bool :=
  match macd with
  | Some m => gt (MacdPoint.macd m) (MacdPoint.signal m)
  | None => false
  end.

Definition getMACDStatus (macd : option MacdPoint.t) : string :=
  if macdMissing macd then "neutral"
  else if macdAbove macd then "bullish" else "bearish".

Definition getMACDStatusText (macd : option MacdPoint.t) : string :=
  if macdMissing macd then "N/A"
  else if macdAbove macd then "Bullish" else "Bearish".

Definition getMARelationship (sma20 sma50 : option num) : string :=
  if negb (truthy_opt sma20) || negb (truthy_opt sma50) then "N/A"
  else if gt sma20 sma50 then "Bullish" else "Bearish".

Definition getMAStatus (sma20 sma50 : option num) : string :=
  if negb (truthy_opt sma20) || negb (truthy_opt sma50) then "neutral"
  else if gt sma20 sma50 then "bullish" else "bearish".

(** [!bb || !bb.upper || !bb.lower || !bb.price] *)
Definition bollingerMissing (bb : option BollingerPoint.t) : bool :=
  match bb with
  | None => true
  | Some b => negb (truthy_opt (BollingerPoint.upper b))
              || negb (truthy_opt (BollingerPoint.lower b))
              || negb (truthy (BollingerPoint.price b))
  end.

Definition getBollingerPosition (bb : option BollingerPoint.t) : string :=
  if bollingerMissing bb then "N/A"
  else match bb with
       | Some b =>
           if gt (Some (BollingerPoint.price b)) (BollingerPoint.upper b)
           then "Above Upper"
           else if lt (Some (BollingerPoint.price b)) (BollingerPoint.lower b)
                then "Below Lower" else "In Range"
       | None => "N/A"
       end.

Definition isBuy (s : Signal) : bool :=
  match type s with BUY => true | SELL => false end.
Definition isSell (s : Signal) : bool :=
  match type s with SELL => true | BUY => false end.

Definition getOverallSentiment (signals : list Signal) : string :=
  if (length signals =? 0)%nat then "neutral"
  else
    let buySignals := length (List.filter isBuy signals) in
    let sellSignals := length (List.filter isSell signals) in
    if (sellSignals <? buySignals)%nat then "bullish"
    else if (buySignals <? sellSignals)%nat then "bearish"
    else "neutral".

(** [calculatePerformance] of the comparison view. *)
Definition calculatePerformance (data : list Bar.t) : num :=
  if (length data <? 2)%nat then zero
  else
    let start := aget (closes data) 0 in
    let end_ := aget (closes data) (Z.of_nat (length data) - 1) in
    nmul (ndiv (nsub end_ start) start) (of_Z 100).

End AnalysisView.

(** ** Predicates and inputs of the further properties *)

Module Further.
Import StockService.

Definition finite (a : num) : Prop := exists q, a = Fin q.

(** [a <= b] between finite numbers. *)
Definition num_le (a b : num) : Prop :=
  exists x y, a = Fin x /\ b = Fin y /\ (x <= y)%Q.

(** [lo <= a <= hi] for a finite [a]. *)
Definition within (lo hi : Q) (a : num) : Prop :=
  exists q, a = Fin q /\ (lo <= q)%Q /\ (q <= hi)%Q.

(** [c] lies between [a] and [b], whichever is the larger. *)
Definition between (a b c : num) : Prop :=
  (num_le a c /\ num_le c b) \/ (num_le b c /\ num_le c a).

Definition optional_le (a b : option num) : Prop :=
  match a, b with
  | Some x, Some y => num_le x y
  | _, _ => True
  end.

Definition sortedByDate (l : list Bar.t) : Prop :=
  Sorted (fun a b => Bar.date a <= Bar.date b) l.

(** [NaN], [+Infinity] or [-Infinity]. *)
Definition nan_or_infinite (a : num) : Prop := a = NaN \/ a = PInf \/ a = NInf.

(** A bar whose high, low and close are finite numbers. *)
Definition finiteBar (bar : Bar.t) : Prop :=
  finite (Bar.high bar) /\ finite (Bar.low bar) /\ finite (Bar.close bar).

(** A bar whose low, close and high are finite and in that order. *)
Definition wellFormed (bar : Bar.t) : Prop :=
  num_le (Bar.low bar) (Bar.close bar) /\ num_le (Bar.close bar) (Bar.high bar).

(** A stand-in for [Math.sqrt] in sample inputs: the root of a whole
    square, and the whole part of the root of the whole part
    elsewhere. *)
Definition sampleSqrt (a : num) : num :=
  match a with
  | Fin q => Fin (inject_Z (Z.sqrt (Qfloor q)))
  | _ => a
  end.

Definition bar3 (d : Z) (low close high : Z) : Bar.t :=
  {| Bar.date := d; Bar.open := of_Z close; Bar.high := of_Z high;
     Bar.low := of_Z low; Bar.close := of_Z close; Bar.volume := of_Z 1000 |}.

(** An answer of Alpha Vantage out of order. *)
Definition shuffled : list Bar.t :=
  [bar3 3 1 2 3; bar3 1 4 5 6; bar3 2 7 8 9].

Definition alphaWorld : World :=
  {| Math_random := fun _ => (1 # 2)%Q;
     Date_now := fun _ => 20000 * ms_per_day;
     yahooFinance_historical := fun _ _ => Throw "getaddrinfo ENOTFOUND";
     alpha_data := fun _ _ => Ok shuffled;
     Math_sqrt := sampleSqrt |}.

Definition yahooUp : World :=
  {| Math_random := fun _ => (1 # 2)%Q;
     Date_now := fun _ => 20000 * ms_per_day;
     yahooFinance_historical := fun _ _ => Ok shuffled;
     alpha_data := fun _ _ => Throw "no client";
     Math_sqrt := sampleSqrt |}.

(** The provider chain inside [getStockData], and the time to live of
    what it caches (lemma [getStockData_on_miss]). *)
Definition providerChain (cfg : Config) (w : World) (symbol timeRange : string)
  : M (list Bar.t) :=
  if USE_LIVE_DATA cfg then
    match getYahooFinanceData w symbol timeRange with
    | Ok data => ret data
    | Throw yError =>
        if key_configured cfg then
          match getAlphaVantageData cfg w symbol timeRange with
          | Ok data => ret data
          | Throw aError => getMockStockData cfg w symbol timeRange
          end
        else getMockStockData cfg w symbol timeRange
    end
  else getMockStockData cfg w symbol timeRange.

Definition cacheTime (cfg : Config) : Z := if USE_LIVE_DATA cfg then 60 else 300.

Definition stockKey (symbol timeRange : string) : string :=
  "stock_" +:+ symbol +:+ "_" +:+ timeRange.

(** Alpha Vantage answers with an empty time series. *)
Definition alphaEmpty : World :=
  {| Math_random := fun _ => (1 # 2)%Q;
     Date_now := fun _ => 20000 * ms_per_day;
     yahooFinance_historical := fun _ _ => Throw "getaddrinfo ENOTFOUND";
     alpha_data := fun _ _ => Ok [];
     Math_sqrt := sampleSqrt |}.






(** The most recent defined value of an indicator list, in the words
    of the specification: the value of the last point whose value is
    not [null]. *)
Definition mostRecentDefined (l : list IndicatorPoint.t) : option num :=
  last (omap IndicatorPoint.value l).

(** Sixty closes that rise from bar to bar and jump at the end: the
    last twenty have the mean 124 and the standard deviation 18, the
    last fifty the mean 100.9. *)
Definition breakoutCloses : list Z :=
  zrange 61 101
  ++ [101; 103; 106; 109; 110; 113; 115; 117; 118; 119;
      122; 125; 127; 130; 132; 133; 136; 139; 141; 184].

Definition breakout : list Bar.t := Examples.series (map of_Z breakoutCloses).

(** The same closes mirrored: they fall from bar to bar and drop at the
    end. *)
Definition breakdown : list Bar.t :=
  Examples.series (map (fun c => of_Z (300 - c)) breakoutCloses).

(** Forty closes of 100, then 90 and 110 in turn: the last twenty have
    the mean 100 and the standard deviation 10. *)
Definition ranging : list Bar.t :=
  Examples.series (map of_Z (replicate 40 100 ++ concat (replicate 10 [90; 110]))).

(** Yahoo Finance answers, newest bar first, with one of these series
    for the symbols UP, DOWN and FLAT. *)
Definition marketWorld : World :=
  {| Math_random := fun _ => (1 # 2)%Q;
     Date_now := fun _ => 20000 * ms_per_day;
     yahooFinance_historical := fun symbol _ =>
       if String.eqb symbol "UP" then Ok (rev breakout)
       else if String.eqb symbol "DOWN" then Ok (rev breakdown)
       else if String.eqb symbol "FLAT" then Ok (rev ranging)
       else Throw "Not Found";
     alpha_data := fun _ _ => Throw "no client";
     Math_sqrt := sampleSqrt |}.

Definition analysisKey (symbol timeRange : string) : string :=
  "technical_analysis_" +:+ symbol +:+ "_" +:+ timeRange.

Definition freshAnalysisState : AnalysisService.AState :=
  {| AnalysisService.service := Examples.freshState;
     AnalysisService.analysis_cache := ∅ |}.

Definition liveWithKey : Config :=
  {| USE_LIVE_DATA := true; ALPHA_VANTAGE_API_KEY := Some "demo"; TZ := utc |}.

Definition mockOnly : Config :=
  {| USE_LIVE_DATA := false; ALPHA_VANTAGE_API_KEY := None; TZ := utc |}.

End Further.

(** * Properties *)

(** ** Arithmetic of the number model *)

Section NumFacts.
Local Open Scope Q_scope.

Lemma Qltb_true (a b : Q) : Qltb a b = true <-> a < b.
Proof.
  unfold Qltb. rewrite negb_true_iff. split; intros H.
  - apply Qnot_le_lt. intros Hle. apply Qle_bool_iff in Hle. congruence.
  - destruct (Qle_bool b a) eqn:E; [|reflexivity].
    apply Qle_bool_iff in E. exfalso. apply (Qlt_not_le _ _ H E).
Qed.

Lemma Qltb_false (a b : Q) : Qltb a b = false <-> b <= a.
Proof.
  unfold Qltb. rewrite negb_false_iff. apply Qle_bool_iff.
Qed.

Lemma Qeq_bool_false (a b : Q) : Qeq_bool a b = false <-> ~ a == b.
Proof.
  split.
  - apply Qeq_bool_neq.
  - intros H. destruct (Qeq_bool a b) eqn:E; [|reflexivity].
    apply Qeq_bool_iff in E. contradiction.
Qed.

Lemma is_fin_Fin (q : Q) : is_fin (Fin q) q.
Proof. exists q. split; [reflexivity | apply Qeq_refl]. Qed.

Lemma is_fin_eq (a : num) (x y : Q) : is_fin a x -> x == y -> is_fin a y.
Proof. intros (q & -> & Hq) Hxy. exists q. split; [reflexivity|]. now rewrite Hq. Qed.

Lemma is_fin_of_Z (z : Z) : is_fin (of_Z z) (inject_Z z).
Proof. apply is_fin_Fin. Qed.

Lemma is_fin_add (a b : num) (x y : Q) :
  is_fin a x -> is_fin b y -> is_fin (nadd a b) (x + y).
Proof.
  intros (p & -> & Hp) (q & -> & Hq). exists (Qred (p + q)). split; [reflexivity|].
  now rewrite Qred_correct, Hp, Hq.
Qed.

Lemma is_fin_opp (a : num) (x : Q) : is_fin a x -> is_fin (nopp a) (- x).
Proof. intros (p & -> & Hp). exists (- p). split; [reflexivity|]. now rewrite Hp. Qed.

Lemma is_fin_sub (a b : num) (x y : Q) :
  is_fin a x -> is_fin b y -> is_fin (nsub a b) (x - y).
Proof. intros Ha Hb. unfold nsub. apply is_fin_add; [assumption | now apply is_fin_opp]. Qed.

Lemma is_fin_mul (a b : num) (x y : Q) :
  is_fin a x -> is_fin b y -> is_fin (nmul a b) (x * y).
Proof.
  intros (p & -> & Hp) (q & -> & Hq). exists (Qred (p * q)). split; [reflexivity|].
  now rewrite Qred_correct, Hp, Hq.
Qed.

Lemma is_fin_div (a b : num) (x y : Q) :
  is_fin a x -> is_fin b y -> ~ y == 0 -> is_fin (ndiv a b) (x / y).
Proof.
  intros (p & -> & Hp) (q & -> & Hq) Hy. simpl.
  assert (E : Qeq_bool q 0 = false) by (apply Qeq_bool_false; now rewrite Hq).
  rewrite E. exists (Qred (p / q)). split; [reflexivity|].
  now rewrite Qred_correct, Hp, Hq.
Qed.

Lemma nltb_fin (a b : num) (x y : Q) :
  is_fin a x -> is_fin b y -> (nltb a b = true <-> x < y).
Proof.
  intros (p & -> & Hp) (q & -> & Hq). simpl. rewrite Qltb_true. now rewrite Hp, Hq.
Qed.

Lemma nltb_fin_false (a b : num) (x y : Q) :
  is_fin a x -> is_fin b y -> (nltb a b = false <-> y <= x).
Proof.
  intros (p & -> & Hp) (q & -> & Hq). simpl. rewrite Qltb_false. now rewrite Hp, Hq.
Qed.

Lemma truthy_fin (a : num) (x : Q) : is_fin a x -> (truthy a = true <-> ~ x == 0).
Proof.
  intros (p & -> & Hp). simpl. rewrite negb_true_iff, Qeq_bool_false. now rewrite Hp.
Qed.

End NumFacts.

(** ** Loops and array reads *)

Section ListFacts.

Lemma zrange_length (lo hi : Z) : length (zrange lo hi) = Z.to_nat (hi - lo).
Proof. unfold zrange. now rewrite length_map, length_seq. Qed.

Lemma zrange_lookup (lo hi : Z) (k : nat) :
  (k < Z.to_nat (hi - lo))%nat -> zrange lo hi !! k = Some (lo + Z.of_nat k).
Proof.
  intros Hk. unfold zrange.
  change (map ?f ?l) with (f <$> l).
  rewrite list_lookup_fmap, lookup_seq_lt by assumption. reflexivity.
Qed.

Lemma elem_of_zrange (lo hi i : Z) : In i (zrange lo hi) <-> lo <= i < hi.
Proof.
  unfold zrange. rewrite in_map_iff. split.
  - intros (k & <- & Hk). apply in_seq in Hk. lia.
  - intros Hi. exists (Z.to_nat (i - lo)). split; [lia|]. apply in_seq. lia.
Qed.

Lemma zrange_nil (lo hi : Z) : hi <= lo -> zrange lo hi = [].
Proof. intros H. unfold zrange. now replace (Z.to_nat (hi - lo)) with 0%nat by lia. Qed.

Lemma aget_lookup (l : list num) (i : Z) (v : num) :
  0 <= i -> l !! Z.to_nat i = Some v -> aget l i = v.
Proof.
  intros Hi Hl. unfold aget. destruct (Z.ltb_spec i 0); [lia|]. now rewrite Hl.
Qed.

Lemma aget_Forall (P : num -> Prop) (l : list num) (i : Z) :
  Forall P l -> 0 <= i < Z.of_nat (length l) -> P (aget l i).
Proof.
  intros HP Hi.
  destruct (lookup_lt_is_Some_2 l (Z.to_nat i)) as [v Hv]; [lia|].
  rewrite (aget_lookup l i v) by (assumption || lia).
  rewrite Forall_forall in HP. apply HP.
  eapply list_elem_of_lookup_2; eassumption.
Qed.

Lemma aget_out_of_range (l : list num) (i : Z) :
  i < 0 \/ Z.of_nat (length l) <= i -> aget l i = NaN.
Proof.
  intros Hi. unfold aget. destruct (Z.ltb_spec i 0); [reflexivity|].
  rewrite lookup_ge_None_2 by lia. reflexivity.
Qed.

Lemma map_imap_proj {A B C} (proj : B -> C) (g : A -> C) (f : nat -> A -> B)
  (l : list A) :
  (forall i x, proj (f i x) = g x) -> map proj (imap f l) = map g l.
Proof.
  revert f. induction l as [|x l IH]; intros f Hf; [reflexivity|].
  cbn. rewrite Hf. f_equal. apply IH. intros i y. apply Hf.
Qed.

End ListFacts.

(** ** Dates and length of every indicator result *)

Section Shape.
Import StockService.

Lemma dates_mapIndicatorToData hd vals period :
  map IndicatorPoint.date (mapIndicatorToData hd vals period) = map Bar.date hd.
Proof. apply map_imap_proj. reflexivity. Qed.

Lemma dates_macd_points hd m : map MacdPoint.date (macd_points hd m) = map Bar.date hd.
Proof. apply map_imap_proj. reflexivity. Qed.

Lemma dates_bollinger_points hd b :
  map BollingerPoint.date (bollinger_points hd b) = map Bar.date hd.
Proof. apply map_imap_proj. reflexivity. Qed.

Lemma dates_stochastic_points hd st :
  map StochasticPoint.date (stochastic_points hd st) = map Bar.date hd.
Proof. apply map_imap_proj. reflexivity. Qed.

(** Splits on the string tests of the [switch], one case label at a time. *)
Ltac switch_on_name :=
  repeat match goal with
         | |- context [String.eqb ?a ?b] => destruct (String.eqb a b); cbn [orb]
         end.

Lemma calculateTechnicalIndicator_dates sqrt hd indicator data :
  calculateTechnicalIndicator sqrt hd indicator = Ok data ->
  dates data = map Bar.date hd.
Proof.
  unfold calculateTechnicalIndicator, is_name. cbn [existsb].
  intros H.
  repeat match type of H with
         | (if ?c then _ else _) = _ => destruct c
         end;
    try discriminate; injection H as <-; cbn [dates];
    auto using dates_mapIndicatorToData, dates_macd_points,
      dates_bollinger_points, dates_stochastic_points.
Qed.

Lemma calculateTechnicalIndicator_supported sqrt hd indicator :
  supported indicator = true ->
  exists data, calculateTechnicalIndicator sqrt hd indicator = Ok data.
Proof.
  unfold supported, supported_names, calculateTechnicalIndicator, is_name.
  cbn [existsb].
  switch_on_name; intros H; try discriminate; eexists; reflexivity.
Qed.


End Shape.

(** ** The claims on the shape of the results and on the signal rules *)

Section Claims.
Import StockService Examples.

(** C10.  For every input series and every supported indicator name,
    [calculateTechnicalIndicator] returns a list with one record per
    input bar, and the i-th record carries the date of the i-th bar,
    whatever the kind of record (single-valued, MACD, Bollinger,
    Stochastic). *)
Theorem indicator_output_keeps_length_and_dates
  (sqrt : num -> num) (hd : list Bar.t) (indicator : string) :
  supported indicator = true ->
  exists data,
    calculateTechnicalIndicator sqrt hd indicator = Ok data
    /\ length (dates data) = length hd
    /\ forall i bar, hd !! i = Some bar -> dates data !! i = Some (Bar.date bar).
Proof.
  intros Hs.
  destruct (calculateTechnicalIndicator_supported sqrt hd indicator Hs) as [data Hd].
  exists data. split; [assumption|].
  rewrite (calculateTechnicalIndicator_dates _ _ _ _ Hd).
  split; [apply length_map|].
  intros i bar Hi. change (map Bar.date hd) with (Bar.date <$> hd).
  now rewrite list_lookup_fmap, Hi.
Qed.

Lemma indicator_output_keeps_length_and_dates_witness :
  exists data,
    calculateTechnicalIndicator (fun x => x) oneToFive "RSI" = Ok data
    /\ length (dates data) = length oneToFive
    /\ forall i bar, oneToFive !! i = Some bar -> dates data !! i = Some (Bar.date bar).
Proof.
  apply (indicator_output_keeps_length_and_dates (fun x => x) oneToFive "RSI").
  reflexivity.
Defined.

End Claims.

(** ** The signal generator *)

Section Signals.
Import StockService Examples.

Lemma truthy_zero (z : num) : is_zero z -> truthy z = false.
Proof.
  intros (q & -> & Hq). simpl. apply negb_false_iff. now apply Qeq_bool_iff.
Qed.

Lemma movingAverageSignals_cases price l20 l50 :
  Forall (fun s => s = goldenCross \/ s = deathCross) (movingAverageSignals price l20 l50).
Proof.
  unfold movingAverageSignals.
  repeat match goal with |- context [if ?c then _ else _] => destruct c end;
    repeat (apply Forall_cons || apply Forall_nil); auto.
Qed.

Lemma rsiSignals_cases l :
  Forall (fun s => exists r, s = rsiOverbought r \/ s = rsiOversold r) (rsiSignals l).
Proof.
  unfold rsiSignals.
  repeat match goal with |- context [if ?c then _ else _] => destruct c end;
    repeat (apply Forall_cons || apply Forall_nil); eauto.
Qed.

Lemma macdSignals_cases l :
  Forall (fun s => s = macdBullish \/ s = macdBearish) (macdSignals l).
Proof.
  unfold macdSignals. destruct l; [|constructor].
  repeat match goal with |- context [if ?c then _ else _] => destruct c end;
    repeat (apply Forall_cons || apply Forall_nil); auto.
Qed.

Lemma bollingerSignals_cases price l :
  Forall (fun s => s = bollingerUpper \/ s = bollingerLower) (bollingerSignals price l).
Proof.
  unfold bollingerSignals. destruct l; [|constructor].
  repeat match goal with |- context [if ?c then _ else _] => destruct c end;
    repeat (apply Forall_cons || apply Forall_nil); auto.
Qed.

Lemma movingAverageSignals_golden price s20 s50 :
  ngtb price s20 = true -> ngtb s20 s50 = true ->
  truthy s20 = true -> truthy s50 = true ->
  movingAverageSignals price (Some s20) (Some s50) = [goldenCross].
Proof.
  intros H1 H2 T1 T2. unfold movingAverageSignals, gt, to_number, ngtb in *.
  cbn [truthy_opt default from_option id]. now rewrite T1, T2, H1, H2.
Qed.

Lemma above_70_truthy (r : num) : ngtb r (of_Z 70) = true -> truthy r = true.
Proof.
  unfold ngtb, of_Z. destruct r as [q| | |]; simpl; try congruence.
  rewrite Qltb_true, negb_true_iff, Qeq_bool_false.
  intros H E. rewrite E in H. discriminate H.
Qed.

Lemma rsiSignals_overbought r :
  ngtb r (of_Z 70) = true -> rsiSignals (Some r) = [rsiOverbought r].
Proof.
  intros H. pose proof (above_70_truthy r H) as T.
  unfold rsiSignals, gt, to_number, ngtb in *.
  cbn [truthy_opt default from_option id]. now rewrite T, H.
Qed.

Lemma movingAverageSignals_zero price l20 l50 z :
  is_zero z -> l20 = Some z \/ l50 = Some z -> movingAverageSignals price l20 l50 = [].
Proof.
  intros Hz [-> | ->]; unfold movingAverageSignals; cbn [truthy_opt];
    rewrite (truthy_zero z Hz); [reflexivity | now rewrite andb_false_r].
Qed.

Lemma rsiSignals_zero z : is_zero z -> rsiSignals (Some z) = [].
Proof. intros Hz. unfold rsiSignals. cbn [truthy_opt]. now rewrite (truthy_zero z Hz). Qed.

End Signals.

Section SignalClaims.
Import StockService Examples.

(** The generator on lists given by hand.  A moving average of exactly
    0 counts as absent: with price 100, SMA20 95 and SMA50 0 the chain
    price > SMA20 > SMA50 holds and no signal is produced. *)
Lemma golden_cross_skipped_when_sma50_is_zero :
  ngtb (of_Z 100) (of_Z 95) = true
  /\ ngtb (of_Z 95) zero = true
  /\ generateTradingSignals [flatBar 0 (of_Z 100)]
       (bundle (latestIs (of_Z 95)) (latestIs zero) []) = Ok [].
Proof. repeat split. Qed.

(** On a non-empty series the signals are the concatenation of what
    the four rules push, in the order MA cross, RSI, MACD, Bollinger,
    each rule reading the last point of its list.  Where the last
    points hold values, the MA rule pushes the Strong BUY "Golden Cross
    Pattern" whenever price > SMA20 > SMA50 and neither average is 0,
    and the RSI rule pushes the Medium SELL "RSI Overbought" whenever
    RSI > 70; the two rules are decided separately.  (The RSI list that
    the service builds never holds a value at its last point, lemma
    [rsi_latest_value_is_null].) *)
Lemma signals_by_rule_in_order (hd : list Bar.t) (ind : Indicators) (bar : Bar.t) :
  last hd = Some bar ->
  exists ma rs mc bo,
    generateTradingSignals hd ind = Ok (ma ++ rs ++ mc ++ bo)
    /\ Forall (fun s => s = goldenCross \/ s = deathCross) ma
    /\ Forall (fun s => exists r, s = rsiOverbought r \/ s = rsiOversold r) rs
    /\ Forall (fun s => s = macdBullish \/ s = macdBearish) mc
    /\ Forall (fun s => s = bollingerUpper \/ s = bollingerLower) bo
    /\ (forall s20 s50,
          latest_value (sma20 ind) = Some s20 ->
          latest_value (sma50 ind) = Some s50 ->
          ngtb (Bar.close bar) s20 = true -> ngtb s20 s50 = true ->
          truthy s20 = true -> truthy s50 = true ->
          ma = [goldenCross])
    /\ (forall r,
          latest_value (rsi ind) = Some r -> ngtb r (of_Z 70) = true ->
          rs = [rsiOverbought r])
    /\ (type goldenCross = BUY /\ strength goldenCross = Strong)
    /\ (forall r, type (rsiOverbought r) = SELL /\ strength (rsiOverbought r) = Medium).
Proof.
  intros Hlast. unfold generateTradingSignals. rewrite Hlast.
  eexists _, _, _, _. split; [reflexivity|].
  split; [apply movingAverageSignals_cases|].
  split; [apply rsiSignals_cases|].
  split; [apply macdSignals_cases|].
  split; [apply bollingerSignals_cases|].
  split.
  { intros s20 s50 -> ->. apply movingAverageSignals_golden. }
  split.
  { intros r ->. apply rsiSignals_overbought. }
  split; [split; reflexivity | intros r; split; reflexivity].
Qed.

Lemma signals_by_rule_in_order_witness :
  exists ma rs mc bo,
    generateTradingSignals [flatBar 0 (of_Z 100)]
      (bundle (latestIs (of_Z 95)) (latestIs (of_Z 90)) (latestIs (of_Z 75)))
    = Ok (ma ++ rs ++ mc ++ bo)
    /\ ma = [goldenCross] /\ rs = [rsiOverbought (of_Z 75)].
Proof.
  destruct (signals_by_rule_in_order [flatBar 0 (of_Z 100)]
              (bundle (latestIs (of_Z 95)) (latestIs (of_Z 90)) (latestIs (of_Z 75)))
              (flatBar 0 (of_Z 100)) eq_refl)
    as (ma & rs & mc & bo & Hgen & _ & _ & _ & _ & Hma & Hrs & _).
  exists ma, rs, mc, bo. split; [exact Hgen|]. split.
  - apply (Hma (of_Z 95) (of_Z 90)); reflexivity.
  - apply (Hrs (of_Z 75)); reflexivity.
Defined.

(** C9.  A computed indicator value of exactly 0 is returned as [null]
    by [mapIndicatorToData], like a warm-up position; and a latest SMA20,
    SMA50 or RSI value of exactly 0 makes [generateTradingSignals] skip
    the rule that reads it: the signals are those of the other rules. *)
Theorem zero_value_is_null_and_skips_the_rule :
  (forall (hd : list Bar.t) (vals : list num) (period : Z) (i : nat) (bar : Bar.t),
      hd !! i = Some bar ->
      is_zero (aget vals (Z.of_nat i - (period - 1))) ->
      mapIndicatorToData hd vals period !! i
      = Some {| IndicatorPoint.date := Bar.date bar; IndicatorPoint.value := None;
                IndicatorPoint.price := Bar.close bar |})
  /\ (forall (hd : list Bar.t) (ind : Indicators) (bar : Bar.t) (z : num),
        last hd = Some bar -> is_zero z ->
        latest_value (sma20 ind) = Some z \/ latest_value (sma50 ind) = Some z ->
        generateTradingSignals hd ind
        = Ok (rsiSignals (latest_value (rsi ind))
              ++ macdSignals (last (macd ind))
              ++ bollingerSignals (Bar.close bar) (last (bb ind))))
  /\ (forall (hd : list Bar.t) (ind : Indicators) (bar : Bar.t) (z : num),
        last hd = Some bar -> is_zero z ->
        latest_value (rsi ind) = Some z ->
        generateTradingSignals hd ind
        = Ok (movingAverageSignals (Bar.close bar) (latest_value (sma20 ind))
                (latest_value (sma50 ind))
              ++ macdSignals (last (macd ind))
              ++ bollingerSignals (Bar.close bar) (last (bb ind)))).
Proof.
  split; [|split].
  - intros hd vals period i bar Hi Hz. unfold mapIndicatorToData.
    rewrite list_lookup_imap, Hi. cbn [fmap option_fmap option_map].
    now rewrite (truthy_zero _ Hz), andb_false_r.
  - intros hd ind bar z Hlast Hz Hor. unfold generateTradingSignals. rewrite Hlast.
    now rewrite (movingAverageSignals_zero _ _ _ z Hz Hor).
  - intros hd ind bar z Hlast Hz Hr. unfold generateTradingSignals. rewrite Hlast, Hr.
    now rewrite (rsiSignals_zero z Hz).
Qed.

Lemma zero_value_is_null_and_skips_the_rule_witness :
  mapIndicatorToData fiveZeros (TechnicalIndicators.SMA.calculate 3 (closes fiveZeros)) 3 !! 2%nat
  = Some {| IndicatorPoint.date := 2; IndicatorPoint.value := None;
            IndicatorPoint.price := zero |}
  /\ generateTradingSignals [flatBar 0 (of_Z 100)]
       (bundle (latestIs (of_Z 95)) (latestIs zero) (latestIs (of_Z 75)))
     = Ok [rsiOverbought (of_Z 75)].
Proof.
  destruct zero_value_is_null_and_skips_the_rule as (Hmap & Hma & _). split.
  - apply (Hmap fiveZeros _ 3 2%nat (flatBar 2 zero)); [reflexivity|].
    exists 0%Q. split; reflexivity.
  - rewrite (Hma [flatBar 0 (of_Z 100)] _ (flatBar 0 (of_Z 100)) zero);
      [reflexivity | reflexivity | exists 0%Q; split; reflexivity | right; reflexivity].
Defined.

End SignalClaims.

(** ** RSI: range of the values and division by zero *)

Section RsiFacts.
Import TechnicalIndicators.
Local Open Scope Q_scope.

Lemma finite_nonneg_is_fin (a : num) : finite_nonneg a <-> exists x, is_fin a x /\ 0 <= x.
Proof.
  split.
  - intros (q & -> & Hq). exists q. split; [apply is_fin_Fin | assumption].
  - intros (x & (q & -> & Hq) & Hx). exists q. split; [reflexivity | now rewrite Hq].
Qed.

Lemma nonneg_zero : nonneg_or_nan zero.
Proof. right; right. exists 0. split; [reflexivity | apply Qle_refl]. Qed.

Lemma nadd_nonneg (a b : num) :
  nonneg_or_nan a -> nonneg_or_nan b -> nonneg_or_nan (nadd a b).
Proof.
  intros [-> | [-> | Ha]] [-> | [-> | Hb]];
    try (left; reflexivity); try (right; left; reflexivity).
  - destruct b; [right; left| | |]; try reflexivity; destruct Hb as (? & ? & ?); discriminate.
  - destruct a; [left| | |]; try reflexivity; destruct Ha as (? & ? & ?); discriminate.
  - destruct a; [right; left| | |]; try reflexivity; destruct Ha as (? & ? & ?); discriminate.
  - right; right. apply finite_nonneg_is_fin in Ha, Hb.
    destruct Ha as (x & Hx & Hx0), Hb as (y & Hy & Hy0).
    apply finite_nonneg_is_fin. exists (x + y). split; [now apply is_fin_add | lra].
Qed.

Lemma nmul_nonneg (a : num) (z : Z) :
  (0 <= z)%Z -> nonneg_or_nan a -> nonneg_or_nan (nmul a (of_Z z)).
Proof.
  intros Hz [-> | [-> | Ha]]; [left; reflexivity | |].
  - unfold of_Z. cbn [nmul]. unfold inf_times.
    destruct (Qeq_bool (inject_Z z) 0); [left; reflexivity|].
    assert (E : Qltb (inject_Z z) 0 = false).
    { apply Qltb_false. change 0 with (inject_Z 0). now rewrite <- Zle_Qle. }
    rewrite E. right; left; reflexivity.
  - right; right. apply finite_nonneg_is_fin in Ha. destruct Ha as (x & Hx & Hx0).
    apply finite_nonneg_is_fin. exists (x * inject_Z z). split.
    + apply is_fin_mul; [assumption | apply is_fin_of_Z].
    + apply Qmult_le_0_compat; [assumption|].
      change 0 with (inject_Z 0). now rewrite <- Zle_Qle.
Qed.

Lemma ndiv_nonneg (a : num) (z : Z) :
  (0 < z)%Z -> nonneg_or_nan a -> nonneg_or_nan (ndiv a (of_Z z)).
Proof.
  intros Hz Ha.
  assert (Hq : 0 < inject_Z z) by (change 0 with (inject_Z 0); now rewrite <- Zlt_Qlt).
  destruct Ha as [-> | [-> | Ha]]; [left; reflexivity | |].
  - unfold of_Z. cbn [ndiv].
    assert (E : Qltb (inject_Z z) 0 = false) by (apply Qltb_false; lra).
    rewrite E. right; left; reflexivity.
  - right; right. apply finite_nonneg_is_fin in Ha. destruct Ha as (x & Hx & Hx0).
    apply finite_nonneg_is_fin. exists (x / inject_Z z). split.
    + apply is_fin_div; [assumption | apply is_fin_of_Z | lra].
    + apply Qle_shift_div_l; [assumption | lra].
Qed.

Lemma gain_of_nonneg (c : num) : nonneg_or_nan (RSI.gain_of c).
Proof.
  unfold RSI.gain_of, ngtb, zero. destruct c as [q| | |]; cbn [nltb];
    try apply nonneg_zero; [|right; left; reflexivity].
  destruct (Qltb 0 q) eqn:E; [|apply nonneg_zero].
  apply Qltb_true in E. right; right. exists q. split; [reflexivity | lra].
Qed.

Lemma loss_of_nonneg (c : num) : nonneg_or_nan (RSI.loss_of c).
Proof.
  unfold RSI.loss_of, zero. destruct c as [q| | |]; cbn [nltb nabs];
    try apply nonneg_zero; [|right; left; reflexivity].
  destruct (Qltb q 0) eqn:E; [|apply nonneg_zero].
  right; right. exists (Qabs q). split; [reflexivity | apply Qabs_nonneg].
Qed.

Lemma sum_list_nonneg (l : list num) :
  Forall nonneg_or_nan l -> nonneg_or_nan (RSI.sum_list l).
Proof.
  unfold RSI.sum_list. generalize nonneg_zero. generalize zero.
  induction l as [|x l IH]; intros acc Hacc Hl; [exact Hacc|].
  inversion Hl; subst. cbn [fold_left]. apply IH; [|assumption].
  now apply nadd_nonneg.
Qed.

Lemma slice0_Forall {A} (P : A -> Prop) (l : list A) (e : Z) :
  Forall P l -> Forall P (RSI.slice0 l e).
Proof. intros H. unfold RSI.slice0. destruct (e <? 0)%Z; now apply Forall_take. Qed.

Lemma aget_nonneg (l : list num) (i : Z) :
  Forall nonneg_or_nan l -> nonneg_or_nan (aget l i).
Proof.
  intros H. destruct (Z_lt_dec i 0) as [Hn|Hn].
  - rewrite aget_out_of_range by lia. left; reflexivity.
  - destruct (Z_lt_dec i (Z.of_nat (length l))).
    + apply aget_Forall; [assumption | lia].
    + rewrite aget_out_of_range by lia. left; reflexivity.
Qed.

Lemma smooth_nonneg (period : Z) (avg x : num) :
  (1 <= period)%Z -> nonneg_or_nan avg -> nonneg_or_nan x ->
  nonneg_or_nan (RSI.smooth period avg x).
Proof.
  intros Hp Ha Hx. unfold RSI.smooth.
  apply ndiv_nonneg; [lia|]. apply nadd_nonneg; [|assumption].
  apply nmul_nonneg; [lia | assumption].
Qed.

End RsiFacts.

Section Rounding.
Local Open Scope Q_scope.

Lemma pow10_pos (d : nat) : (0 < pow10 d)%Z.
Proof. unfold pow10. apply Z.pow_pos_nonneg; lia. Qed.

Lemma pow10_posQ (d : nat) : 0 < inject_Z (pow10 d).
Proof. change 0 with (inject_Z 0). rewrite <- Zlt_Qlt. apply pow10_pos. Qed.

Lemma Qfloor_half (n : Z) : Qfloor (inject_Z n + (1 # 2)) = n.
Proof.
  apply Z.le_antisymm.
  - apply Z.lt_succ_r. rewrite Zlt_Qlt.
    apply Qle_lt_trans with (inject_Z n + (1 # 2)); [apply Qfloor_le|].
    unfold Z.succ. rewrite inject_Z_plus. change (inject_Z 1) with 1. lra.
  - rewrite <- (Qfloor_Z n) at 1. apply Qfloor_resp_le. lra.
Qed.

(** Rounding moves a number by at most half a unit of the last digit. *)
Lemma round_half_up_close (d : nat) (x : Q) :
  Qabs (round_half_up d x - x) <= 1 / (2 * inject_Z (pow10 d)).
Proof.
  unfold round_half_up. rewrite Qred_correct.
  pose proof (pow10_posQ d) as HP. set (P := inject_Z (pow10 d)) in *.
  pose proof (Qfloor_le (x * P + (1 # 2))) as Hlo.
  pose proof (Qlt_floor (x * P + (1 # 2))) as Hhi.
  rewrite inject_Z_plus in Hhi. change (inject_Z 1) with 1 in Hhi.
  set (F := inject_Z (Qfloor (x * P + (1 # 2)))) in *.
  assert (E : F / P - x == (F - x * P) / P) by (field; lra).
  rewrite E. apply Qabs_Qle_condition. split.
  - apply Qle_shift_div_l; [assumption|].
    assert (E2 : - (1 / (2 * P)) * P == - (1 # 2)) by (field; lra).
    rewrite E2. lra.
  - apply Qle_shift_div_r; [assumption|].
    assert (E2 : 1 / (2 * P) * P == 1 # 2) by (field; lra).
    rewrite E2. lra.
Qed.

Lemma round_half_up_mono (d : nat) (x y : Q) :
  x <= y -> round_half_up d x <= round_half_up d y.
Proof.
  intros H. unfold round_half_up. rewrite !Qred_correct.
  pose proof (pow10_posQ d) as HP.
  apply Qmult_le_compat_r; [|apply Qlt_le_weak, Qinv_lt_0_compat, HP].
  rewrite <- Zle_Qle. apply Qfloor_resp_le.
  apply Qplus_le_compat; [|apply Qle_refl].
  apply Qmult_le_compat_r; [assumption | now apply Qlt_le_weak].
Qed.

Lemma round_half_up_Z (d : nat) (n : Z) : round_half_up d (inject_Z n) == inject_Z n.
Proof.
  unfold round_half_up. rewrite Qred_correct.
  pose proof (pow10_posQ d) as HP.
  rewrite <- inject_Z_mult, Qfloor_half, inject_Z_mult. field. lra.
Qed.

Lemma toFixed_0_100 (d : nat) (a : num) : in_0_100 a -> in_0_100 (toFixed d a).
Proof.
  intros (x & -> & H0 & H100). cbn [toFixed].
  destruct (Qle_bool _ _); [exists x; auto|].
  destruct (Qltb x 0) eqn:E; [apply Qltb_true in E; lra|].
  eexists. split; [reflexivity|]. split.
  - rewrite <- (round_half_up_Z d 0). now apply round_half_up_mono.
  - rewrite <- (round_half_up_Z d 100). now apply round_half_up_mono.
Qed.

End Rounding.

Section RsiClaim.
Import TechnicalIndicators StockService Examples.
Local Open Scope Q_scope.

Lemma rsi_value_fin (p q : Q) :
  0 <= p -> 0 < q ->
  is_fin (RSI.rsi_value (Fin p) (Fin q)) (100 - 100 / (1 + p / q)).
Proof.
  intros Hp Hq. unfold RSI.rsi_value.
  assert (Hr : 0 <= p / q) by (apply Qle_shift_div_l; [assumption | lra]).
  apply is_fin_sub; [apply is_fin_of_Z|].
  apply is_fin_div; [apply is_fin_of_Z | | lra].
  apply is_fin_add; [apply is_fin_of_Z|].
  apply is_fin_div; [apply is_fin_Fin | apply is_fin_Fin | lra].
Qed.

Lemma rsi_value_range (g l : num) :
  nonneg_or_nan g -> nonneg_or_nan l -> nan_or_0_100 (RSI.rsi_value g l).
Proof.
  intros [-> | [-> | (p & -> & Hp)]] [-> | [-> | (q & -> & Hq)]];
    try (left; reflexivity).
  - (* Infinity / finite *)
    right. unfold RSI.rsi_value. cbn [ndiv].
    assert (E : Qltb q 0 = false) by (apply Qltb_false; assumption). rewrite E.
    eexists. split; [reflexivity|]. split; vm_compute; discriminate.
  - (* finite / Infinity *)
    right. unfold RSI.rsi_value. cbn [ndiv].
    eexists. split; [reflexivity|]. split; vm_compute; discriminate.
  - unfold RSI.rsi_value at 1.
    destruct (Qeq_bool q 0) eqn:Eq.
    + cbn [ndiv]. rewrite Eq. destruct (Qeq_bool p 0) eqn:Ep; [left; reflexivity|].
      assert (E : Qltb p 0 = false) by (apply Qltb_false; assumption). rewrite E.
      right. eexists. split; [reflexivity|]. split; vm_compute; discriminate.
    + fold (RSI.rsi_value (Fin p) (Fin q)).
      apply Qeq_bool_false in Eq. assert (Hq' : 0 < q) by lra.
      destruct (rsi_value_fin p q Hp Hq') as (r & -> & Hr). right.
      exists r. split; [reflexivity|]. rewrite Hr.
      assert (Hd : 0 <= p / q) by (apply Qle_shift_div_l; [assumption | lra]).
      assert (H1 : 0 <= 100 / (1 + p / q)) by (apply Qle_shift_div_l; lra).
      assert (H2 : 100 / (1 + p / q) <= 100) by (apply Qle_shift_div_r; lra).
      lra.
Qed.

(** [avgLoss = 0] with a positive [avgGain]: the quotient is [Infinity]
    and the value is 100. *)
Lemma rsi_value_saturates (g l : num) :
  finite_pos g -> is_zero l -> is_fin (RSI.rsi_value g l) 100.
Proof.
  intros (p & -> & Hp) (q & -> & Hq). unfold RSI.rsi_value. cbn [ndiv].
  assert (E1 : Qeq_bool q 0 = true) by now apply Qeq_bool_iff.
  assert (E2 : Qeq_bool p 0 = false) by (apply Qeq_bool_false; lra).
  assert (E3 : Qltb p 0 = false) by (apply Qltb_false; lra).
  rewrite E1, E2, E3. eexists. split; [reflexivity|]. reflexivity.
Qed.

(** [avgLoss = 0] and [avgGain = 0]: the quotient is [0 / 0]. *)
Lemma rsi_value_undefined (g l : num) :
  is_zero g -> is_zero l -> RSI.rsi_value g l = NaN.
Proof.
  intros (p & -> & Hp) (q & -> & Hq). unfold RSI.rsi_value. cbn [ndiv].
  assert (E1 : Qeq_bool q 0 = true) by now apply Qeq_bool_iff.
  assert (E2 : Qeq_bool p 0 = true) by now apply Qeq_bool_iff.
  now rewrite E1, E2.
Qed.

Lemma rsi_loop_range period gains losses idx g l :
  (1 <= period)%Z ->
  Forall nonneg_or_nan gains -> Forall nonneg_or_nan losses ->
  nonneg_or_nan g -> nonneg_or_nan l ->
  Forall nan_or_0_100 (RSI.loop period gains losses idx g l).
Proof.
  intros Hp Hg Hl. revert g l.
  induction idx as [|i idx IH]; intros g l Hg0 Hl0; cbn [RSI.loop]; [constructor|].
  assert (Hg1 : nonneg_or_nan (RSI.smooth period g (aget gains i)))
    by (apply smooth_nonneg; auto using aget_nonneg).
  assert (Hl1 : nonneg_or_nan (RSI.smooth period l (aget losses i)))
    by (apply smooth_nonneg; auto using aget_nonneg).
  constructor; [now apply rsi_value_range | now apply IH].
Qed.

Lemma rsi_calculate_range (values : list num) (period : Z) :
  (1 <= period)%Z -> Forall nan_or_0_100 (RSI.calculate values period).
Proof.
  intros Hp. unfold RSI.calculate.
  assert (Hg : Forall nonneg_or_nan (map RSI.gain_of (RSI.changes values))).
  { apply Forall_forall. intros x Hx. apply list_elem_of_In, in_map_iff in Hx.
    destruct Hx as (c & <- & _). apply gain_of_nonneg. }
  assert (Hl : Forall nonneg_or_nan (map RSI.loss_of (RSI.changes values))).
  { apply Forall_forall. intros x Hx. apply list_elem_of_In, in_map_iff in Hx.
    destruct Hx as (c & <- & _). apply loss_of_nonneg. }
  apply rsi_loop_range; try assumption.
  - apply ndiv_nonneg; [lia|]. apply sum_list_nonneg. now apply slice0_Forall.
  - apply ndiv_nonneg; [lia|]. apply sum_list_nonneg. now apply slice0_Forall.
Qed.

(** C3, as stated, fails on a flat series: both averages are 0, the
    division is [0 / 0], and the RSI value is [NaN] instead of 100. *)
Lemma rsi_of_flat_series_is_nan :
  RSI.calculate (closes flat16) 14 = [NaN]
  /\ ~ Forall in_0_100 (RSI.calculate (closes flat16) 14).
Proof.
  assert (E : RSI.calculate (closes flat16) 14 = [NaN]) by (vm_compute; reflexivity).
  split; [exact E|]. rewrite E. intros H. inversion H as [|? ? (q & Hq & _) _].
  discriminate Hq.
Qed.

End RsiClaim.

Section RsiTheorem.
Import TechnicalIndicators StockService Examples.

Lemma aget_NaN_or_elem (l : list num) (i : Z) : aget l i = NaN \/ aget l i ∈ l.
Proof.
  destruct (Z_lt_dec i 0); [left; apply aget_out_of_range; lia|].
  destruct (Z_lt_dec i (Z.of_nat (length l))); [|left; apply aget_out_of_range; lia].
  right. destruct (lookup_lt_is_Some_2 l (Z.to_nat i)) as [v Hv]; [lia|].
  rewrite (aget_lookup l i v) by (assumption || lia).
  eapply list_elem_of_lookup_2; eassumption.
Qed.

(** Every value that [mapIndicatorToData] lets through satisfies what
    all truthy indicator values satisfy, rounded to four decimals. *)
Lemma mapIndicatorToData_values (P : num -> Prop) hd vals period :
  (forall v, v ∈ vals -> truthy v = true -> P (toFixed 4 v)) ->
  Forall (fun pt => forall v, IndicatorPoint.value pt = Some v -> P v)
         (mapIndicatorToData hd vals period).
Proof.
  intros HP. apply Forall_forall. intros pt Hpt.
  apply elem_of_lookup_imap in Hpt. destruct Hpt as (i & bar & -> & _).
  cbn [IndicatorPoint.value]. intros v.
  destruct (0 <=? _)%Z; cbn [andb]; [|discriminate].
  destruct (truthy _) eqn:T; [|discriminate].
  intros [= <-]. apply HP; [|assumption].
  destruct (aget_NaN_or_elem vals (Z.of_nat i - (period - 1))) as [E|E]; [|assumption].
  rewrite E in T. discriminate T.
Qed.

(** C3 (amended).  Every RSI value is [NaN] or lies in [0,100], so every
    non-null RSI value returned to the caller lies in [0,100]; when
    [avgLoss] is 0 the value is 100 if [avgGain] is positive, and is
    [NaN] if [avgGain] is 0 as well (a flat window). *)
Theorem rsi_values_bounded_or_nan (hd : list Bar.t) (period : Z) :
  1 <= period ->
  Forall nan_or_0_100 (RSI.calculate (closes hd) period)
  /\ Forall (fun pt => forall v, IndicatorPoint.value pt = Some v -> in_0_100 v)
       (mapIndicatorToData hd (RSI.calculate (closes hd) period) period)
  /\ (forall g l, finite_pos g -> is_zero l -> is_fin (RSI.rsi_value g l) 100)
  /\ (forall g l, is_zero g -> is_zero l -> RSI.rsi_value g l = NaN).
Proof.
  intros Hp. pose proof (rsi_calculate_range (closes hd) period Hp) as Hr.
  split; [exact Hr|]. split; [|split].
  - apply mapIndicatorToData_values. intros v Hv T.
    rewrite Forall_forall in Hr. destruct (Hr v Hv) as [-> | Hin]; [discriminate T|].
    now apply toFixed_0_100.
  - apply rsi_value_saturates.
  - apply rsi_value_undefined.
Qed.

Lemma rsi_values_bounded_or_nan_witness :
  Forall nan_or_0_100 (RSI.calculate (closes rising16) 14)
  /\ RSI.calculate (closes rising16) 14 = [of_Z 100].
Proof.
  split.
  - apply (rsi_values_bounded_or_nan rising16 14). lia.
  - vm_compute. reflexivity.
Defined.

End RsiTheorem.

(** ** Stochastic: a window of zero width *)

Section StochasticClaim.
Import TechnicalIndicators StockService Examples Further.
Local Open Scope Q_scope.

(** C7, as stated, fails on a flat series: the window has zero width,
    [%K] is [0 / 0], and the record returned for the bar at index 13
    carries [NaN] in both fields. *)
Lemma stochastic_of_flat_series_is_nan :
  exists l,
    calculateTechnicalIndicator (fun x => x) flat16 "stochastic" = Ok (StochasticData l)
    /\ l !! 13%nat = Some {| StochasticPoint.date := 13%Z;
                             StochasticPoint.k := Some NaN;
                             StochasticPoint.d := Some NaN |}.
Proof. eexists. split; vm_compute; reflexivity. Qed.

Lemma percentK_zero_width (high low close : list num) (period i : Z) (h l c : Q) :
  Stochastic.highestHigh high i period = Fin h ->
  Stochastic.lowestLow low i period = Fin l ->
  h == l ->
  aget close i = Fin c ->
  Stochastic.percentK high low close period i
  = (if Qeq_bool c l then NaN else if Qltb c l then NInf else PInf).
Proof.
  intros Hh Hl Ehl Hc. unfold Stochastic.percentK. rewrite Hh, Hl, Hc.
  unfold nsub. cbn [nopp nadd ndiv].
  assert (E0 : Qeq_bool (Qred (h + - l)) 0 = true).
  { apply Qeq_bool_iff. rewrite Qred_correct. lra. }
  rewrite E0.
  destruct (Qeq_bool c l) eqn:Ecl.
  - apply Qeq_bool_iff in Ecl.
    assert (E1 : Qeq_bool (Qred (c + - l)) 0 = true).
    { apply Qeq_bool_iff. rewrite Qred_correct. lra. }
    now rewrite E1.
  - apply Qeq_bool_false in Ecl.
    assert (E1 : Qeq_bool (Qred (c + - l)) 0 = false).
    { apply Qeq_bool_false. rewrite Qred_correct. lra. }
    rewrite E1. destruct (Qltb c l) eqn:Elt.
    + apply Qltb_true in Elt.
      assert (E2 : Qltb (Qred (c + - l)) 0 = true).
      { apply Qltb_true. rewrite Qred_correct. lra. }
      now rewrite E2.
    + apply Qltb_false in Elt.
      assert (E2 : Qltb (Qred (c + - l)) 0 = false).
      { apply Qltb_false. rewrite Qred_correct. lra. }
      now rewrite E2.
Qed.

Lemma nadd_nan_or_infinite (a b : num) :
  nan_or_infinite a \/ nan_or_infinite b -> nan_or_infinite (nadd a b).
Proof.
  unfold nan_or_infinite.
  destruct a as [x| | |], b as [y| | |]; cbn;
    intros [[H | [H | H]] | [H | [H | H]]]; try discriminate H; auto.
Qed.

Lemma fold_sum_nan_or_infinite (g : Z -> num) (l : list Z) (acc : num) :
  nan_or_infinite acc \/ (exists j, In j l /\ nan_or_infinite (g j)) ->
  nan_or_infinite (fold_left (fun sum j => nadd sum (g j)) l acc).
Proof.
  revert acc. induction l as [|x l IH]; intros acc H.
  - destruct H as [H | (j & [] & _)]. exact H.
  - cbn [fold_left]. apply IH. destruct H as [H | (j & [<- | Hin] & Hj)].
    + left. apply nadd_nan_or_infinite. now left.
    + left. apply nadd_nan_or_infinite. now right.
    + right. now exists j.
Qed.

Lemma ndiv_nan_or_infinite (a : num) (z : Z) :
  nan_or_infinite a -> nan_or_infinite (ndiv a (of_Z z)).
Proof.
  unfold nan_or_infinite, of_Z. intros [-> | [-> | ->]]; cbn; auto;
    destruct (Qltb (inject_Z z) 0); auto.
Qed.

Lemma toFixed_nan_or_infinite (d : nat) (a : num) :
  nan_or_infinite a -> toFixed d a = a.
Proof. intros [-> | [-> | ->]]; reflexivity. Qed.

Lemma aget_map_zrange (f : Z -> num) (lo hi n : Z) :
  (0 <= n < hi - lo)%Z -> aget (map f (zrange lo hi)) n = f (lo + n)%Z.
Proof.
  intros Hn. apply aget_lookup; [lia|].
  change (map f (zrange lo hi)) with (f <$> zrange lo hi).
  rewrite list_lookup_fmap, zrange_lookup by lia. cbn. f_equal. f_equal. lia.
Qed.

(** The record that [calculateTechnicalIndicator] returns for the bar
    of position [r], [13 <= r <= L - 3]: its [k] is the [%K] of the
    window that ends two bars later, its [d] the average of the [%K] of
    the windows that end at the bars [r], [r + 1] and [r + 2]. *)
Lemma stochastic_record (hd : list Bar.t) (r : Z) :
  (13 <= r)%Z -> (r + 3 <= zlength hd)%Z ->
  let K := Stochastic.percentK (highs hd) (lows hd) (closes hd) 14 in
  stochastic_points hd (Stochastic.calculate (highs hd) (lows hd) (closes hd) 14 3)
    !! Z.to_nat r
  = Some {| StochasticPoint.date := default 0%Z (Bar.date <$> hd !! Z.to_nat r);
            StochasticPoint.k := Some (toFixed 2 (K (r + 2)%Z));
            StochasticPoint.d :=
              Some (toFixed 2 (ndiv (fold_left (fun sum j => nadd sum (K (r + 2 - j)%Z))
                                               (zrange 0 3) zero)
                                    (of_Z 3))) |}.
Proof.
  intros Hr HL K.
  assert (Hc : zlength (closes hd) = zlength hd)
    by (unfold zlength, closes; now rewrite length_map).
  unfold stochastic_points. rewrite list_lookup_imap.
  destruct (lookup_lt_is_Some_2 hd (Z.to_nat r)) as [bar Hbar];
    [unfold zlength in HL; lia|].
  rewrite Hbar. cbn [fmap option_fmap option_map default from_option id].
  assert (Hks : zlength (Stochastic.kValues (highs hd) (lows hd) (closes hd) 14)
                = (zlength hd - 13)%Z).
  { unfold Stochastic.kValues, zlength at 1. rewrite length_map, zrange_length, Hc.
    unfold zlength in *. lia. }
  assert (Hk : forall n, (0 <= n < zlength hd - 13)%Z ->
             aget (Stochastic.kValues (highs hd) (lows hd) (closes hd) 14) n
             = K (13 + n)%Z).
  { intros n Hn. unfold Stochastic.kValues.
    rewrite aget_map_zrange by (rewrite Hc; lia). reflexivity. }
  assert (Hd : zlength (SMA.calculate 3
                          (Stochastic.kValues (highs hd) (lows hd) (closes hd) 14))
               = (zlength hd - 15)%Z)
    by (unfold SMA.calculate, zlength at 1; rewrite length_map, zrange_length, Hks; lia).
  unfold oget. replace (Z.of_nat (Z.to_nat r)) with r by lia.
  destruct (Z.ltb_spec (r - 13) 0); [lia|].
  unfold Stochastic.calculate. cbv zeta.
  change (map ?f (zrange 0 ?n) !! ?m) with ((f <$> zrange 0 n) !! m).
  rewrite list_lookup_fmap, zrange_lookup by (rewrite Hd; lia).
  cbn [fmap option_fmap option_map Stochastic.k Stochastic.d].
  replace (0 + Z.of_nat (Z.to_nat (r - 13)))%Z with (r - 13)%Z by lia.
  rewrite Hk by lia. replace (13 + (r - 13 + (3 - 1)))%Z with (r + 2)%Z by lia.
  unfold SMA.calculate. rewrite aget_map_zrange by (rewrite Hks; lia).
  unfold window_sum. do 3 f_equal.
  change (zrange 0 3) with [0; 1; 2]%Z. cbn [fold_left].
  rewrite !Hk by lia.
  replace (13 + (3 - 1 + (r - 13) - 0))%Z with (r + 2 - 0)%Z by lia.
  replace (13 + (3 - 1 + (r - 13) - 1))%Z with (r + 2 - 1)%Z by lia.
  replace (13 + (3 - 1 + (r - 13) - 2))%Z with (r + 2 - 2)%Z by lia.
  reflexivity.
Qed.

(** C7 (amended).  Nothing guards the division of [%K]: over a window
    of 14 bars whose highest high equals its lowest low, [%K] is [NaN]
    when the close equals that low, [-Infinity] when it is below and
    [+Infinity] when it is above.  In the result of
    [calculateTechnicalIndicator] the [%K] of the window that ends at
    the bar [i] is the [k] of the record of position [i - 2], unchanged
    by [toFixed(2)], for [i >= 15] (the [%K] of the first two windows is
    the [k] of no record); and every record whose [%D] averages it, those
    of the positions [r] with [13 <= r <= L - 3] and [r <= i <= r + 2],
    has a [%D] that is [NaN] or infinite. *)
Theorem stochastic_zero_width_is_unguarded
  (Math_sqrt : num -> num) (hd : list Bar.t) (i : Z) (h l c : Q) :
  (13 <= i < zlength hd)%Z ->
  Stochastic.highestHigh (highs hd) i 14 = Fin h ->
  Stochastic.lowestLow (lows hd) i 14 = Fin l ->
  h == l ->
  aget (closes hd) i = Fin c ->
  let k := if Qeq_bool c l then NaN else if Qltb c l then NInf else PInf in
  Stochastic.percentK (highs hd) (lows hd) (closes hd) 14 i = k
  /\ exists records,
       calculateTechnicalIndicator Math_sqrt hd "stochastic" = Ok (StochasticData records)
       /\ ((15 <= i)%Z ->
           exists pt, records !! Z.to_nat (i - 2) = Some pt
                      /\ StochasticPoint.k pt = Some k)
       /\ (forall r, (13 <= r)%Z -> (r <= i <= r + 2)%Z -> (r + 3 <= zlength hd)%Z ->
             exists pt d, records !! Z.to_nat r = Some pt
                          /\ StochasticPoint.d pt = Some d /\ nan_or_infinite d).
Proof.
  intros Hi Hh Hl Ehl Hc k.
  pose proof (percentK_zero_width _ _ _ 14 i h l c Hh Hl Ehl Hc) as Hk. fold k in Hk.
  assert (Hnf : nan_or_infinite k).
  { subst k. unfold nan_or_infinite. destruct (Qeq_bool c l); [auto|].
    destruct (Qltb c l); auto. }
  split; [exact Hk|].
  exists (stochastic_points hd
            (Stochastic.calculate (highs hd) (lows hd) (closes hd) 14 3)).
  split; [reflexivity|]. split.
  - intros H15. eexists. split; [apply stochastic_record; lia|].
    cbn [StochasticPoint.k]. replace (i - 2 + 2)%Z with i by lia.
    rewrite Hk. now rewrite toFixed_nan_or_infinite.
  - intros r Hr Hri HL. eexists. eexists.
    split; [apply stochastic_record; lia|]. cbn [StochasticPoint.d].
    split; [reflexivity|].
    assert (Hd : nan_or_infinite
                   (ndiv (fold_left
                            (fun sum j =>
                               nadd sum (Stochastic.percentK (highs hd) (lows hd)
                                           (closes hd) 14 (r + 2 - j)%Z))
                            (zrange 0 3) zero) (of_Z 3))).
    { apply ndiv_nan_or_infinite, fold_sum_nan_or_infinite. right.
      exists (r + 2 - i)%Z. split; [apply elem_of_zrange; lia|].
      replace (r + 2 - (r + 2 - i))%Z with i by lia. now rewrite Hk. }
    now rewrite toFixed_nan_or_infinite.
Qed.

Lemma stochastic_zero_width_is_unguarded_witness :
  exists records pt,
    calculateTechnicalIndicator (fun x => x) flat16 "stochastic"
    = Ok (StochasticData records)
    /\ records !! 13%nat = Some pt
    /\ StochasticPoint.k pt = Some NaN.
Proof.
  destruct (stochastic_zero_width_is_unguarded (fun x => x) flat16 15 5 5 5)
    as (_ & records & Hcalc & Hk & _).
  - vm_compute. split; [discriminate | reflexivity].
  - vm_compute. reflexivity.
  - vm_compute. reflexivity.
  - reflexivity.
  - vm_compute. reflexivity.
  - destruct Hk as (pt & Hpt & Hkpt); [lia|].
    exists records, pt. split; [exact Hcalc|]. split; [exact Hpt | exact Hkpt].
Defined.

End StochasticClaim.

(** ** Warm-up of the moving averages *)

Section WarmUp.
Import TechnicalIndicators StockService Examples.
Local Open Scope Q_scope.

Lemma sma_calculate_length (period : Z) (values : list num) :
  (zlength (SMA.calculate period values) = Z.max 0 (zlength values - (period - 1)))%Z.
Proof.
  unfold SMA.calculate, zlength. rewrite length_map, zrange_length. lia.
Qed.

Lemma ema_loop_length m values idx last : length (EMA.loop m values idx last) = length idx.
Proof.
  revert last. induction idx as [|i idx IH]; intros last; [reflexivity|].
  cbn [EMA.loop length]. now rewrite IH.
Qed.

Lemma ema_calculate_length (period : Z) (values : list num) :
  (zlength (EMA.calculate period values) = 1 + Z.max 0 (zlength values - period))%Z.
Proof.
  unfold EMA.calculate, zlength. cbn [length].
  rewrite ema_loop_length, zrange_length. lia.
Qed.

End WarmUp.

Section WarmUpClaim.
Import TechnicalIndicators StockService Examples.

Lemma mapIndicatorToData_lookup hd vals period i pt :
  mapIndicatorToData hd vals period !! i = Some pt ->
  exists bar, hd !! i = Some bar
    /\ IndicatorPoint.date pt = Bar.date bar
    /\ IndicatorPoint.price pt = Bar.close bar
    /\ IndicatorPoint.value pt
       = let indicatorIndex := Z.of_nat i - (period - 1) in
         if (0 <=? indicatorIndex) && truthy (aget vals indicatorIndex)
         then Some (toFixed 4 (aget vals indicatorIndex)) else None.
Proof.
  unfold mapIndicatorToData. rewrite list_lookup_imap.
  destruct (hd !! i) as [bar|]; [|discriminate].
  intros [= <-]. exists bar. repeat split.
Qed.

Lemma nonnull_count_after (l : list IndicatorPoint.t) (w : nat) :
  (forall i pt, l !! i = Some pt -> ((i < w)%nat <-> IndicatorPoint.value pt = None)) ->
  nonnull_count l = (length l - w)%nat.
Proof.
  unfold nonnull_count. revert w. induction l as [|x l IH]; intros w H; [reflexivity|].
  pose proof (H 0%nat x eq_refl) as H0. cbn [List.filter]. unfold nonNull at 1.
  destruct w as [|w].
  - destruct (IndicatorPoint.value x) eqn:E;
      [|exfalso; destruct H0 as [_ H0]; specialize (H0 eq_refl); lia].
    cbn [length]. rewrite (IH 0%nat); [lia|].
    intros i pt Hi. specialize (H (S i) pt Hi). split; [lia|]. intros E'.
    apply H in E'. lia.
  - destruct (IndicatorPoint.value x) eqn:E.
    { destruct H0 as [H0 _]. discriminate H0. lia. }
    cbn [length]. rewrite (IH w); [lia|].
    intros i pt Hi. specialize (H (S i) pt Hi). rewrite <- H. lia.
Qed.

(** C1, as stated, fails in three ways.  RSI over 16 rising closes:
    the point at index 13 has a value although the warm-up is 14.  ATR
    over the same bars: likewise.  SMA(3) over five closes of 0: the
    averages are 0 and every point is [null]. *)
Lemma warm_up_fails_for_rsi_atr_and_zero_values :
  ~ warmUpShape 16 14
      (mapIndicatorToData rising16 (RSI.calculate (closes rising16) 14) 14)
  /\ ~ warmUpShape 16 14
         (mapIndicatorToData rising16
            (ATR.calculate (highs rising16) (lows rising16) (closes rising16) 14) 14)
  /\ ~ warmUpShape 5 2
         (mapIndicatorToData fiveZeros (SMA.calculate 3 (closes fiveZeros)) 3).
Proof.
  split; [|split].
  - intros (_ & H & _).
    specialize (H 13%nat {| IndicatorPoint.date := 13; IndicatorPoint.value := Some (of_Z 100);
                            IndicatorPoint.price := of_Z 14 |}).
    assert (E : Some (of_Z 100) = None) by (apply H; [vm_compute; reflexivity | lia]).
    discriminate E.
  - intros (_ & H & _).
    specialize (H 13%nat {| IndicatorPoint.date := 13; IndicatorPoint.value := Some (of_Z 1);
                            IndicatorPoint.price := of_Z 14 |}).
    assert (E : Some (of_Z 1) = None) by (apply H; [vm_compute; reflexivity | lia]).
    discriminate E.
  - intros (_ & H & _).
    specialize (H 2%nat {| IndicatorPoint.date := 2; IndicatorPoint.value := None;
                           IndicatorPoint.price := zero |}).
    assert (E : (2 < 2)%Z) by (apply H; vm_compute; reflexivity).
    lia.
Qed.

(** Over values that are all truthy, [mapIndicatorToData] has the
    warm-up [period - 1]. *)
Lemma mapIndicatorToData_shape_truthy hd vals period :
  1 <= period ->
  Forall (fun v => truthy v = true) vals ->
  zlength vals = zlength hd - (period - 1) ->
  warmUpShape (length hd) (period - 1) (mapIndicatorToData hd vals period).
Proof.
  intros Hp Hv Hlen. unfold zlength in Hlen.
  assert (Hpt : forall i pt, mapIndicatorToData hd vals period !! i = Some pt ->
                 (Z.of_nat i < period - 1 <-> IndicatorPoint.value pt = None)).
  { intros i pt Hi. pose proof (lookup_lt_Some _ _ _ Hi) as Hlt.
    unfold mapIndicatorToData in Hlt. rewrite length_imap in Hlt.
    apply mapIndicatorToData_lookup in Hi. destruct Hi as (bar & _ & _ & _ & ->).
    cbv zeta. destruct (Z.leb_spec 0 (Z.of_nat i - (period - 1))) as [Hge|Hneg];
      cbn [andb]; [|split; [reflexivity | lia]].
    rewrite (aget_Forall (fun v => truthy v = true)) by (assumption || lia).
    split; [lia | discriminate]. }
  split; [apply length_imap|]. split; [exact Hpt|].
  rewrite (nonnull_count_after _ (Z.to_nat (period - 1))).
  - unfold mapIndicatorToData. rewrite length_imap. lia.
  - intros i pt Hi. rewrite <- (Hpt i pt Hi). lia.
Qed.

(** C1 (amended).  On any series and for any list of indicator values,
    a value of the result is not [null] exactly when its position is
    past the first [p - 1] and the indicator value for it is a number
    other than 0.  So for SMA and EMA with period [p >= 1] over a
    series of at least [p] bars, when every value computed is a number
    other than 0, the result has one point per bar, the first [p - 1]
    values are [null], all later values are not, and exactly
    [L - (p - 1)] values are not [null]; SMA(3) over the closes 1, 2,
    3, 4, 5 gives [null, null, 2, 3, 4]. *)
Theorem moving_average_warm_up :
  (forall hd vals period i pt,
      mapIndicatorToData hd vals period !! i = Some pt ->
      (IndicatorPoint.value pt <> None
       <-> 0 <= Z.of_nat i - (period - 1)
           /\ truthy (aget vals (Z.of_nat i - (period - 1))) = true))
  /\ (forall hd p,
        1 <= p <= zlength hd ->
        (Forall (fun v => truthy v = true) (SMA.calculate p (closes hd)) ->
         warmUpShape (length hd) (p - 1)
           (mapIndicatorToData hd (SMA.calculate p (closes hd)) p))
        /\ (Forall (fun v => truthy v = true) (EMA.calculate p (closes hd)) ->
            warmUpShape (length hd) (p - 1)
              (mapIndicatorToData hd (EMA.calculate p (closes hd)) p)))
  /\ map IndicatorPoint.value
       (mapIndicatorToData oneToFive (SMA.calculate 3 (closes oneToFive)) 3)
     = [None; None; Some (of_Z 2); Some (of_Z 3); Some (of_Z 4)].
Proof.
  split; [|split].
  - intros hd vals period i pt Hi.
    apply mapIndicatorToData_lookup in Hi. destruct Hi as (bar & _ & _ & _ & ->).
    cbv zeta. destruct (Z.leb_spec 0 (Z.of_nat i - (period - 1))) as [Hge|Hneg];
      cbn [andb]; [|split; [congruence | lia]].
    destruct (truthy _); split; try congruence; try discriminate; auto.
    intros [_ H]. discriminate H.
  - intros hd p Hp.
    assert (Hlen : zlength (closes hd) = zlength hd)
      by (unfold zlength, closes; now rewrite length_map).
    split; intros Hv.
    + apply mapIndicatorToData_shape_truthy; [lia | assumption |].
      rewrite sma_calculate_length, Hlen. lia.
    + apply mapIndicatorToData_shape_truthy; [lia | assumption |].
      rewrite ema_calculate_length, Hlen. lia.
  - vm_compute. reflexivity.
Qed.

Lemma moving_average_warm_up_witness :
  warmUpShape 5 2 (mapIndicatorToData oneToFive (SMA.calculate 3 (closes oneToFive)) 3)
  /\ warmUpShape 5 2 (mapIndicatorToData oneToFive (EMA.calculate 3 (closes oneToFive)) 3)
  /\ (forall i pt,
        mapIndicatorToData fiveZeros (SMA.calculate 3 (closes fiveZeros)) 3 !! i = Some pt ->
        IndicatorPoint.value pt = None).
Proof.
  destruct moving_average_warm_up as (Hany & Hshape & _).
  destruct (Hshape oneToFive 3) as (Hs & He); [vm_compute; split; discriminate|].
  split; [|split].
  - apply Hs. vm_compute.
    repeat (apply List.Forall_cons; [reflexivity|]). apply List.Forall_nil.
  - apply He. vm_compute.
    repeat (apply List.Forall_cons; [reflexivity|]). apply List.Forall_nil.
  - intros i pt Hi. pose proof (lookup_lt_Some _ _ _ Hi) as Hlt.
    destruct (IndicatorPoint.value pt) as [v|] eqn:Ev; [|reflexivity].
    exfalso.
    assert (Hne : IndicatorPoint.value pt <> None) by (rewrite Ev; discriminate).
    apply (Hany _ _ _ _ _ Hi) in Hne. destruct Hne as (Hge & Ht).
    change (length (mapIndicatorToData fiveZeros (SMA.calculate 3 (closes fiveZeros)) 3))
      with 5%nat in Hlt.
    destruct i as [|[|[|[|[|i]]]]]; try lia; vm_compute in Ht; discriminate Ht.
Defined.

End WarmUpClaim.

(** ** MACD: the histogram before and after rounding *)

Section MacdClaim.
Import TechnicalIndicators StockService Examples.
Local Open Scope Q_scope.

Lemma toFixed_close (d : nat) (x : Q) :
  exists x', toFixed d (Fin x) = Fin x'
             /\ Qabs (x' - x) <= 1 / (2 * inject_Z (pow10 d)).
Proof.
  pose proof (pow10_posQ d) as HP. cbn [toFixed].
  destruct (Qle_bool _ _).
  { exists x. split; [reflexivity|].
    assert (E : x - x == 0) by ring. rewrite E. change (Qabs 0) with 0.
    apply Qle_shift_div_l; [|rewrite Qmult_0_l]; lra. }
  destruct (Qltb x 0).
  - eexists. split; [reflexivity|].
    assert (E : - round_half_up d (- x) - x == - (round_half_up d (- x) - - x)) by ring.
    rewrite E, Qabs_opp. apply round_half_up_close.
  - eexists. split; [reflexivity|]. apply round_half_up_close.
Qed.

(** C5, as stated, fails on the returned records: for these 34 closes
    the record of index 25 carries macd -0.4878, signal -0.6951 and
    histogram 0.2072, while -0.4878 - (-0.6951) = 0.2073. *)
Lemma macd_histogram_differs_after_rounding :
  exists l,
    calculateTechnicalIndicator (fun x => x) macdSeries "macd" = Ok (MacdData l)
    /\ l !! 25%nat
       = Some {| MacdPoint.date := 25%Z;
                 MacdPoint.macd := Some (Fin (-2439 # 5000));
                 MacdPoint.signal := Some (Fin (-6951 # 10000));
                 MacdPoint.histogram := Some (Fin (259 # 1250)) |}
    /\ ~ (259 # 1250) == (-2439 # 5000) - (-6951 # 10000).
Proof.
  eexists. split; [vm_compute; reflexivity|]. split; [vm_compute; reflexivity|].
  intros H. vm_compute in H. discriminate H.
Qed.

(** C5 (amended).  In every entry that [MACD.calculate] computes, the
    histogram is exactly MACD minus signal ([NaN] where MACD is
    [undefined]).  A returned record is empty
    (three nulls) or carries the three numbers of one entry, each
    rounded to four decimals on its own; so there the histogram agrees
    with macd minus signal up to 0.00015. *)
Theorem macd_histogram_exact_before_rounding (hd : list Bar.t) :
  Forall (fun e => MACD.histogram e
                   = nsub (of_undefined (MACD.MACD e)) (MACD.signal e))
         (MACD.calculate (closes hd) 12 26 9)
  /\ Forall (fun pt =>
               (MacdPoint.macd pt = None /\ MacdPoint.signal pt = None
                /\ MacdPoint.histogram pt = None)
               \/ exists e, e ∈ MACD.calculate (closes hd) 12 26 9
                    /\ MacdPoint.macd pt = Some (toFixed 4 (of_undefined (MACD.MACD e)))
                    /\ MacdPoint.signal pt = Some (toFixed 4 (MACD.signal e))
                    /\ MacdPoint.histogram pt
                       = Some (toFixed 4 (nsub (of_undefined (MACD.MACD e))
                                               (MACD.signal e))))
            (macd_points hd (MACD.calculate (closes hd) 12 26 9))
  /\ (forall m s : Q,
        exists m' s' h',
          toFixed 4 (Fin m) = Fin m' /\ toFixed 4 (Fin s) = Fin s'
          /\ toFixed 4 (nsub (Fin m) (Fin s)) = Fin h'
          /\ Qabs (h' - (m' - s')) <= 15 # 100000).
Proof.
  assert (Hraw : Forall (fun e => MACD.histogram e
                                  = nsub (of_undefined (MACD.MACD e)) (MACD.signal e))
                        (MACD.calculate (closes hd) 12 26 9)).
  { unfold MACD.calculate. apply Forall_forall. intros e He.
    apply list_elem_of_In, in_map_iff in He. destruct He as (i & <- & _). reflexivity. }
  split; [exact Hraw|]. split.
  - apply Forall_forall. intros pt Hpt. unfold macd_points in Hpt.
    apply elem_of_lookup_imap in Hpt. destruct Hpt as (i & bar & -> & _).
    cbn [MacdPoint.macd MacdPoint.signal MacdPoint.histogram].
    unfold oget. destruct (Z.of_nat i - 25 <? 0)%Z; [left; repeat split|].
    destruct (MACD.calculate (closes hd) 12 26 9 !! Z.to_nat (Z.of_nat i - 25)) as [e|] eqn:E;
      [|left; repeat split].
    right. exists e. cbn [fmap option_fmap option_map].
    assert (He : e ∈ MACD.calculate (closes hd) 12 26 9)
      by (eapply list_elem_of_lookup_2; eassumption).
    rewrite Forall_forall in Hraw. rewrite <- (Hraw e He).
    split; [exact He|]. split; [|split; reflexivity].
    destruct (MACD.MACD e); reflexivity.
  - intros m s.
    destruct (toFixed_close 4 m) as (m' & Em & Hm).
    destruct (toFixed_close 4 s) as (s' & Es & Hs).
    destruct (toFixed_close 4 (Qred (m + - s))) as (h' & Eh & Hh).
    exists m', s', h'. repeat split; try assumption.
    rewrite Qred_correct in Hh.
    change (inject_Z (pow10 4)) with 10000 in Hm, Hs, Hh.
    apply Qabs_Qle_condition in Hm, Hs, Hh. apply Qabs_Qle_condition.
    assert (E : 1 / (2 * 10000) == 1 # 20000) by reflexivity.
    rewrite E in Hm, Hs, Hh. split; lra.
Qed.

End MacdClaim.

(** ** The synthetic generator *)

Section MockData.
Import TechnicalIndicators StockService Examples.
Local Open Scope Q_scope.

Variable cfg : Config.
Variable w : World.

Lemma mockBar_unfold (i : Z) (basePrice : num) (s : State) :
  mockBar cfg w i basePrice s
  = (mockBarOf (isoDate (setDateBack cfg (Date_now w (reads s)) i))
       (Fin (Math_random w (draws s)))
       (Fin (Math_random w (S (draws s))))
       (Fin (Math_random w (S (S (draws s)))))
       (Fin (Math_random w (S (S (S (draws s))))))
       (Fin (Math_random w (S (S (S (S (draws s)))))))
       basePrice,
     {| draws := S (S (S (S (S (draws s))))); reads := S (reads s);
        stock_cache := stock_cache s; indicator_cache := indicator_cache s |}).
Proof. reflexivity. Qed.

Lemma mockLoop_length (idx : list Z) (basePrice : num) (s : State) :
  length (fst (mockLoop cfg w idx basePrice s)) = length idx.
Proof.
  revert basePrice s. induction idx as [|i idx IH]; intros bp s; [reflexivity|].
  cbn [mockLoop]. unfold bind at 1. rewrite mockBar_unfold.
  unfold bind at 1.
  match goal with |- context [mockLoop cfg w idx ?b ?s'] =>
    specialize (IH b s'); destruct (mockLoop cfg w idx b s') as [bars s''] end.
  cbn [ret fst length] in *. now rewrite IH.
Qed.

(** One round: whatever the base price, the close of the bar is positive
    and the base price carried on is at least 1. *)
Lemma mockBarOf_spec (d : Z) (x1 x2 x3 x4 x5 : Q) (basePrice : num) (q : Q) :
  is_fin basePrice q ->
  0 <= x2 < 1 -> 0 <= x3 < 1 -> 0 <= x4 < 1 ->
  Bar.date (fst (mockBarOf d (Fin x1) (Fin x2) (Fin x3) (Fin x4) (Fin x5) basePrice)) = d
  /\ finite_pos
       (Bar.close (fst (mockBarOf d (Fin x1) (Fin x2) (Fin x3) (Fin x4) (Fin x5) basePrice)))
  /\ exists q', is_fin (snd (mockBarOf d (Fin x1) (Fin x2) (Fin x3) (Fin x4) (Fin x5)
                               basePrice)) q' /\ 1 <= q'.
Proof.
  intros Hbp H2 H3 H4. unfold mockBarOf. cbv zeta. cbn [fst snd Bar.date Bar.close].
  split; [reflexivity|].
  set (bp1 := nadd basePrice _).
  assert (Hbp1 : is_fin bp1 (q + q * (2 # 100) * (x1 - (1 # 2)))).
  { subst bp1. apply is_fin_add; [assumption|].
    apply is_fin_mul; [apply is_fin_mul; [assumption | apply is_fin_Fin]|].
    apply is_fin_sub; apply is_fin_Fin. }
  set (bp2 := if nltb bp1 (of_Z 1) then of_Z 1 else bp1).
  assert (Hbp2 : exists q2, is_fin bp2 q2 /\ 1 <= q2).
  { subst bp2. destruct (nltb bp1 (of_Z 1)) eqn:E.
    - exists 1. split; [apply is_fin_of_Z | lra].
    - eexists. split; [exact Hbp1|].
      apply (nltb_fin_false _ _ _ _ Hbp1 (is_fin_of_Z 1)) in E. exact E. }
  destruct Hbp2 as (q2 & Hq2 & Hge). split; [|exists q2; split; assumption].
  set (high := nmul bp2 (nadd (of_Z 1) (nmul (Fin x2) (Fin (15 # 1000))))).
  set (low := nmul bp2 (nsub (of_Z 1) (nmul (Fin x3) (Fin (15 # 1000))))).
  assert (Hhigh : is_fin high (q2 * (1 + x2 * (15 # 1000)))).
  { subst high. apply is_fin_mul; [assumption|].
    apply is_fin_add; [apply is_fin_of_Z|]. apply is_fin_mul; apply is_fin_Fin. }
  assert (Hlow : is_fin low (q2 * (1 - x3 * (15 # 1000)))).
  { subst low. apply is_fin_mul; [assumption|].
    apply is_fin_sub; [apply is_fin_of_Z|]. apply is_fin_mul; apply is_fin_Fin. }
  assert (Hclose : is_fin (nadd low (nmul (Fin x4) (nsub high low)))
                     (q2 * (1 - x3 * (15 # 1000))
                      + x4 * (q2 * (1 + x2 * (15 # 1000)) - q2 * (1 - x3 * (15 # 1000))))).
  { apply is_fin_add; [assumption|]. apply is_fin_mul; [apply is_fin_Fin|].
    now apply is_fin_sub. }
  destruct Hclose as (c & -> & Hc).
  assert (Hlo : 985 # 1000 <= q2 * (1 - x3 * (15 # 1000))).
  { assert (0 <= (q2 - 1) * (1 - x3 * (15 # 1000))) by (apply Qmult_le_0_compat; lra).
    lra. }
  assert (Hspread : 0 <= x4 * (q2 * (1 + x2 * (15 # 1000)) - q2 * (1 - x3 * (15 # 1000)))).
  { apply Qmult_le_0_compat; [lra|].
    assert (0 <= q2 * (x2 * (15 # 1000) + x3 * (15 # 1000)))
      by (apply Qmult_le_0_compat; lra).
    lra. }
  destruct (toFixed_close 2 c) as (c' & -> & Hc').
  exists c'. split; [reflexivity|].
  change (inject_Z (pow10 2)) with 100 in Hc'.
  assert (E : 1 / (2 * 100) == 1 # 200) by reflexivity. rewrite E in Hc'.
  apply Qabs_Qle_condition in Hc'. lra.
Qed.


End MockData.

Section MockClaim.
Import TechnicalIndicators StockService Examples Further.


Lemma getNumDays_1m : getNumDaysFromTimeRange "1m" = 30.
Proof. reflexivity. Qed.








End MockClaim.

(** ** The provider chain and the orchestrator *)

Section ProviderChain.
Import TechnicalIndicators StockService Examples.

Variable cfg : Config.
Variable w : World.

Lemma cache_get_stock_state key s : snd (cache_get_stock w key s) = snd (now w s).
Proof. reflexivity. Qed.

Lemma cache_get_indicator_state key s : snd (cache_get_indicator w key s) = snd (now w s).
Proof. reflexivity. Qed.


End ProviderChain.

Section ProviderClaims.
Import TechnicalIndicators StockService Examples.

(** C2.  With live data on, when Yahoo Finance throws (or answers with
    nothing), no Alpha Vantage key is configured and the cache has no
    live entry for the key (so the chain is run), [getStockData(symbol,
    '1m')] does not throw: it returns the 31 bars of the synthetic
    generator. *)
Theorem getStockData_falls_back_to_mock
  (cfg : Config) (w : World) (s : State) (symbol yError : string) :
  USE_LIVE_DATA cfg = true ->
  key_configured cfg = false ->
  getYahooFinanceData w symbol "1m" = Throw yError ->
  fst (cache_get_stock w ("stock_" +:+ symbol +:+ "_" +:+ "1m") s) = None ->
  exists bars,
    fst (getStockData cfg w symbol "1m" s) = Ok bars
    /\ bars = fst (getMockStockData cfg w symbol "1m" (snd (now w s)))
    /\ length bars = 31%nat.
Proof.
  intros Hlive Hkey Hyahoo Hmiss.
  exists (fst (getMockStockData cfg w symbol "1m" (snd (now w s)))).
  split; [|split; [reflexivity|]].
  - unfold getStockData, fetchStockData, bind.
    pose proof (cache_get_stock_state w ("stock_" +:+ symbol +:+ "_" +:+ "1m") s) as Hst.
    destruct (cache_get_stock w _ s) as [c s1]. cbn [fst snd] in Hmiss, Hst. subst c s1.
    rewrite Hlive, Hyahoo, Hkey.
    destruct (getMockStockData cfg w symbol "1m" (snd (now w s))) as [bars s2].
    destruct (cache_set_stock _ _ _ _ _). reflexivity.
  - unfold getMockStockData. rewrite mockLoop_length, getNumDays_1m. reflexivity.
Qed.

Lemma getStockData_falls_back_to_mock_witness :
  exists bars,
    fst (getStockData liveNoKey yahooDown "AAPL" "1m" freshState) = Ok bars
    /\ bars = fst (getMockStockData liveNoKey yahooDown "AAPL" "1m"
                     (snd (now yahooDown freshState)))
    /\ length bars = 31%nat.
Proof.
  apply (getStockData_falls_back_to_mock liveNoKey yahooDown freshState "AAPL"
           "getaddrinfo ENOTFOUND"); reflexivity.
Defined.

End ProviderClaims.

Section UnsupportedIndicator.
Import TechnicalIndicators StockService Examples.




End UnsupportedIndicator.

(** ** Alignment of the RSI result

    [RSI.calculate] returns [L - 15] values for [L] closes, the first
    for the bar of index 15, and [mapIndicatorToData] is called with
    period 14: the values are placed from index 13 on and the last two
    positions are always [null].  So the latest RSI value that
    [generateTradingSignals] reads from this result is always [null]. *)

Section RsiAlignment.
Import TechnicalIndicators StockService.

Lemma rsi_loop_length period gains losses idx g l :
  length (RSI.loop period gains losses idx g l) = length idx.
Proof.
  revert g l. induction idx as [|i idx IH]; intros g l; [reflexivity|].
  cbn [RSI.loop length]. now rewrite IH.
Qed.

Lemma rsi_calculate_length (values : list num) (period : Z) :
  zlength (RSI.calculate values period)
  = Z.max 0 (Z.max 0 (zlength values - 1) - period).
Proof.
  unfold RSI.calculate, RSI.changes, zlength.
  rewrite rsi_loop_length, zrange_length, !length_map, zrange_length. lia.
Qed.

Lemma rsi_latest_value_is_null (hd : list Bar.t) :
  latest_value (mapIndicatorToData hd (RSI.calculate (closes hd) 14) 14) = None.
Proof.
  unfold latest_value. rewrite last_lookup.
  destruct (mapIndicatorToData hd _ 14 !! _) as [pt|] eqn:E; [|reflexivity].
  pose proof (lookup_lt_Some _ _ _ E) as Hlt.
  apply mapIndicatorToData_lookup in E. destruct E as (bar & _ & _ & _ & Hv).
  cbn [mbind option_bind]. rewrite Hv. cbv zeta.
  unfold mapIndicatorToData in *. rewrite length_imap in *.
  rewrite aget_out_of_range; [now rewrite andb_false_r|].
  pose proof (rsi_calculate_length (closes hd) 14) as Hl.
  assert (Hc : length (closes hd) = length hd) by apply length_map.
  unfold zlength in Hl. rewrite Hc in Hl. lia.
Qed.

End RsiAlignment.

(** * Further properties of the indicator library *)

Section EmaFacts.
Import TechnicalIndicators StockService Further.
Local Open Scope Q_scope.

Lemma nadd_NaN_l (b : num) : nadd NaN b = NaN.
Proof. now destruct b. Qed.

Lemma nadd_NaN_r (a : num) : nadd a NaN = NaN.
Proof. now destruct a. Qed.

Lemma fold_sum_NaN_acc (g : Z -> num) (l : list Z) :
  fold_left (fun sum j => nadd sum (g j)) l NaN = NaN.
Proof. induction l as [|j l IH]; cbn [fold_left]; [reflexivity|]. now rewrite nadd_NaN_l. Qed.

Lemma fold_sum_NaN (g : Z -> num) (l : list Z) (acc : num) (j : Z) :
  In j l -> g j = NaN -> fold_left (fun sum j => nadd sum (g j)) l acc = NaN.
Proof.
  revert acc. induction l as [|x l IH]; intros acc Hin Hj; [destruct Hin|].
  cbn [fold_left]. destruct Hin as [-> | Hin].
  - rewrite Hj, nadd_NaN_r. apply fold_sum_NaN_acc.
  - now apply IH.
Qed.

Lemma ema_of_short_series (period : Z) (values : list num) :
  (zlength values < period)%Z -> EMA.calculate period values = [NaN].
Proof.
  intros Hshort. unfold EMA.calculate, EMA.seed.
  rewrite (zrange_nil period) by lia. cbn [EMA.loop].
  rewrite (fold_sum_NaN (fun i => aget values i) _ _ (zlength values)).
  - reflexivity.
  - apply elem_of_zrange. unfold zlength in *. lia.
  - apply aget_out_of_range. right. unfold zlength. lia.
Qed.

End EmaFacts.

Section EmaProperties.
Import TechnicalIndicators StockService Further.
Local Open Scope Q_scope.

Lemma ndiv_Fin_of_Z (s : Q) (period : Z) :
  (1 <= period)%Z -> ndiv (Fin s) (of_Z period) = Fin (Qred (s / inject_Z period)).
Proof.
  intros Hp. unfold of_Z. cbn [ndiv].
  assert (E : Qeq_bool (inject_Z period) 0 = false).
  { apply Qeq_bool_false. intros H.
    assert (0 < inject_Z period)
      by (change 0 with (inject_Z 0); rewrite <- Zlt_Qlt; lia).
    lra. }
  now rewrite E.
Qed.

Lemma fold_finite (g : Z -> num) (l : list Z) (acc : num) :
  finite acc -> (forall j, In j l -> finite (g j)) ->
  finite (fold_left (fun sum j => nadd sum (g j)) l acc).
Proof.
  revert acc. induction l as [|j l IH]; intros acc Hacc Hg; [exact Hacc|].
  cbn [fold_left]. apply IH; [|intros j' Hj'; apply Hg; now right].
  destruct Hacc as (a & ->). destruct (Hg j (or_introl eq_refl)) as (x & ->).
  eexists; reflexivity.
Qed.

(** X4.  On a series shorter than the period, [EMA.calculate] returns
    the single value [NaN] (its seed reads past the end), not an empty
    list; the points built from it are all [null]. *)
Theorem ema_of_short_series_is_one_nan (period : Z) (hd : list Bar.t) :
  (zlength hd < period)%Z ->
  EMA.calculate period (closes hd) = [NaN]
  /\ Forall (fun pt => IndicatorPoint.value pt = None)
            (mapIndicatorToData hd (EMA.calculate period (closes hd)) period).
Proof.
  intros Hshort.
  assert (E : EMA.calculate period (closes hd) = [NaN]).
  { apply ema_of_short_series. unfold zlength, closes in *. now rewrite length_map. }
  split; [exact E|]. rewrite E.
  apply Forall_forall. intros pt Hpt.
  apply list_elem_of_lookup in Hpt. destruct Hpt as [i Hi].
  apply mapIndicatorToData_lookup in Hi. destruct Hi as (bar & _ & _ & _ & ->).
  cbv zeta. destruct (aget_NaN_or_elem [NaN] (Z.of_nat i - (period - 1))) as [-> | Hin].
  - now rewrite andb_false_r.
  - apply list_elem_of_singleton in Hin. rewrite Hin. now rewrite andb_false_r.
Qed.

Lemma ema_of_short_series_is_one_nan_witness :
  EMA.calculate 12 (closes Examples.oneToFive) = [NaN].
Proof.
  apply (ema_of_short_series_is_one_nan 12 Examples.oneToFive). reflexivity.
Defined.

End EmaProperties.

Section MacdSize.
Import TechnicalIndicators StockService Further.

Lemma macdLine_length (values : list num) :
  zlength (MACD.macdLine values 12 26) = Z.max 0 (zlength values - 25).
Proof.
  unfold MACD.macdLine.
  pose proof (ema_calculate_length 12 values) as Hf.
  unfold zlength in *. rewrite length_map, zrange_length. lia.
Qed.

Lemma aread_out_of_range (l : list num) (i : Z) :
  i < 0 \/ Z.of_nat (length l) <= i -> aread l i = None.
Proof.
  intros Hi. unfold aread. destruct (Z.ltb_spec i 0); [reflexivity|].
  apply lookup_ge_None_2. lia.
Qed.

(** X5.  [MACD.calculate] with the periods 12, 26, 9 needs 34 inputs:
    from 34 on it returns [L - 33] entries; below, it returns one
    entry, not an empty list: its [MACD] is [undefined] (the read is
    past the end of the MACD line) and its signal and histogram are
    [NaN]. *)
Theorem macd_needs_34_inputs (values : list num) :
  (34 <= zlength values ->
   zlength (MACD.calculate values 12 26 9) = zlength values - 33)
  /\ (zlength values < 34 ->
      MACD.calculate values 12 26 9
      = [{| MACD.MACD := None; MACD.signal := NaN; MACD.histogram := NaN |}]).
Proof.
  pose proof (macdLine_length values) as Hline. split; intros HL.
  - unfold MACD.calculate.
    pose proof (ema_calculate_length 9 (MACD.macdLine values 12 26)) as Hs.
    unfold zlength in *. rewrite length_map, zrange_length. lia.
  - unfold MACD.calculate.
    rewrite (ema_of_short_series 9 (MACD.macdLine values 12 26)) by lia.
    change (zrange 0 (zlength [NaN])) with [0]. cbn [map].
    rewrite (aread_out_of_range (MACD.macdLine values 12 26) (0 + (9 - 1)))
      by (unfold zlength in *; lia).
    reflexivity.
Qed.

Lemma macd_needs_34_inputs_witness :
  zlength (MACD.calculate (map of_Z Examples.macdCloses) 12 26 9) = 1
  /\ MACD.calculate (closes Examples.oneToFive) 12 26 9
     = [{| MACD.MACD := None; MACD.signal := NaN; MACD.histogram := NaN |}].
Proof.
  destruct (macd_needs_34_inputs (map of_Z Examples.macdCloses)) as (Hlong & _).
  destruct (macd_needs_34_inputs (closes Examples.oneToFive)) as (_ & Hshort).
  split.
  - rewrite Hlong; [reflexivity | vm_compute; discriminate].
  - apply Hshort. reflexivity.
Defined.

End MacdSize.

Section RoundingOrder.
Import Further.
Local Open Scope Q_scope.

Lemma round_half_up_nonneg_bounded (d : nat) (x : Q) (n : Z) :
  0 <= x -> x <= inject_Z n ->
  0 <= round_half_up d x /\ round_half_up d x <= inject_Z n.
Proof.
  intros H0 Hn. split.
  - rewrite <- (round_half_up_Z d 0). now apply round_half_up_mono.
  - rewrite <- (round_half_up_Z d n). now apply round_half_up_mono.
Qed.

(** The three branches of [toFixed] on a finite number. *)
Lemma toFixed_cases (d : nat) (x : Q) :
  let B := inject_Z (pow10 21) in
  ((x <= - B \/ B <= x) /\ toFixed d (Fin x) = Fin x)
  \/ (- B < x /\ x < 0 /\ toFixed d (Fin x) = Fin (- round_half_up d (- x)))
  \/ (0 <= x /\ x < B /\ toFixed d (Fin x) = Fin (round_half_up d x)).
Proof.
  intros B. cbn [toFixed]. fold B.
  destruct (Qle_bool B (Qabs x)) eqn:E.
  - left. split; [|reflexivity]. apply Qle_bool_iff in E. revert E.
    apply Qabs_case; intros Hx E; [right | left]; lra.
  - assert (Hlt : Qabs x < B).
    { apply Qnot_le_lt. intros H. apply Qle_bool_iff in H. congruence. }
    right. destruct (Qltb x 0) eqn:E0.
    + left. apply Qltb_true in E0. split; [|split; [assumption | reflexivity]].
      revert Hlt. apply Qabs_case; intros; lra.
    + right. apply Qltb_false in E0. split; [assumption|]. split; [|reflexivity].
      revert Hlt. apply Qabs_case; intros; lra.
Qed.

(** [toFixed] keeps the order of finite numbers. *)
Lemma toFixed_mono (d : nat) (x y : Q) :
  x <= y -> num_le (toFixed d (Fin x)) (toFixed d (Fin y)).
Proof.
  intros Hxy.
  assert (HB : 0 < inject_Z (pow10 21)) by apply pow10_posQ.
  destruct (toFixed_cases d x) as [(Hx & ->) | [(Hx1 & Hx2 & ->) | (Hx1 & Hx2 & ->)]];
    destruct (toFixed_cases d y) as [(Hy & ->) | [(Hy1 & Hy2 & ->) | (Hy1 & Hy2 & ->)]];
    eexists _, _; (split; [reflexivity|]); (split; [reflexivity|]);
    try lra.
  - destruct (round_half_up_nonneg_bounded d (- y) (pow10 21)); lra.
  - destruct (round_half_up_nonneg_bounded d y (pow10 21)); lra.
  - destruct (round_half_up_nonneg_bounded d (- x) (pow10 21)); lra.
  - assert (round_half_up d (- y) <= round_half_up d (- x))
      by (apply round_half_up_mono; lra).
    lra.
  - destruct (round_half_up_nonneg_bounded d (- x) (pow10 21)); try lra.
    destruct (round_half_up_nonneg_bounded d y (pow10 21)); lra.
  - destruct (round_half_up_nonneg_bounded d x (pow10 21)); lra.
  - now apply round_half_up_mono.
Qed.

Lemma toFixed_num_le (d : nat) (a b : num) :
  num_le a b -> num_le (toFixed d a) (toFixed d b).
Proof. intros (x & y & -> & -> & H). now apply toFixed_mono. Qed.

End RoundingOrder.

Section BollingerOrder.
Import TechnicalIndicators StockService Further.
Local Open Scope Q_scope.

Lemma fold_squares_nonneg (g : Z -> num) (l : list Z) (acc : num) :
  finite_nonneg acc -> (forall j, In j l -> finite (g j)) ->
  finite_nonneg (fold_left (fun variance j => nadd variance (nmul (g j) (g j))) l acc).
Proof.
  revert acc. induction l as [|j l IH]; intros acc Hacc Hg; [exact Hacc|].
  cbn [fold_left]. apply IH; [|intros j' Hj'; apply Hg; now right].
  destruct Hacc as (a & -> & Ha). destruct (Hg j (or_introl eq_refl)) as (x & ->).
  eexists. split; [reflexivity|]. rewrite !Qred_correct.
  assert (0 <= x * x) by nra.
  lra.
Qed.

Lemma band_is_ordered (sqrt : num -> num) (period : Z) (values : list num) (k : Q) (i : Z) :
  (forall x, finite_nonneg x -> finite_nonneg (sqrt x)) ->
  (1 <= period)%Z -> Forall finite values -> 0 <= k ->
  (period - 1 <= i < zlength values)%Z ->
  let e := BollingerBands.band sqrt period values (Fin k) i in
  num_le (BollingerBands.lower e) (BollingerBands.middle e)
  /\ num_le (BollingerBands.middle e) (BollingerBands.upper e).
Proof.
  intros Hsqrt Hp Hv Hk Hi. unfold BollingerBands.band. cbv zeta.
  cbn [BollingerBands.lower BollingerBands.middle BollingerBands.upper].
  assert (Hwin : forall j, In j (zrange 0 period) -> finite (aget values (i - j))).
  { intros j Hj. apply elem_of_zrange in Hj. unfold zlength in Hi.
    apply aget_Forall; [assumption | lia]. }
  destruct (fold_finite (fun j => aget values (i - j)%Z) (zrange 0 period) zero)
    as (s & Hs); [now exists 0 | exact Hwin |].
  unfold window_sum. rewrite Hs, ndiv_Fin_of_Z by assumption.
  set (m := Qred (s / inject_Z period)).
  assert (Hvar : finite_nonneg
            (fold_left (fun variance j =>
                          nadd variance (nmul (nsub (aget values (i - j)) (Fin m))
                                              (nsub (aget values (i - j)) (Fin m))))
                       (zrange 0 period) zero)).
  { apply (fold_squares_nonneg (fun j => nsub (aget values (i - j)%Z) (Fin m))).
    - exists 0. split; [reflexivity | lra].
    - intros j Hj. destruct (Hwin j Hj) as (x & ->). eexists; reflexivity. }
  assert (Hsd : finite_nonneg (sqrt (ndiv (fold_left (fun variance j =>
                          nadd variance (nmul (nsub (aget values (i - j)) (Fin m))
                                              (nsub (aget values (i - j)) (Fin m))))
                       (zrange 0 period) zero) (of_Z period)))).
  { apply Hsqrt. apply finite_nonneg_is_fin in Hvar. destruct Hvar as (v & Hv' & Hv0).
    assert (Hq : 0 < inject_Z period)
      by (change 0 with (inject_Z 0); rewrite <- Zlt_Qlt; lia).
    apply finite_nonneg_is_fin. exists (v / inject_Z period). split.
    - apply is_fin_div; [assumption | apply is_fin_of_Z | lra].
    - apply Qle_shift_div_l; [assumption | lra]. }
  destruct Hsd as (sd & -> & Hsd0).
  assert (0 <= sd * k) by (apply Qmult_le_0_compat; assumption).
  split; eexists _, _; (split; [reflexivity|]); (split; [reflexivity|]);
    rewrite !Qred_correct; lra.
Qed.

(** X6.  When [Math.sqrt] returns a non-negative number on non-negative
    numbers, the bands over finite closes are ordered: lower <= middle
    <= upper in every entry computed, and still so in every record
    returned, where the three are rounded to two decimals. *)
Theorem bollinger_bands_are_ordered (sqrt : num -> num) (hd : list Bar.t) :
  (forall x, finite_nonneg x -> finite_nonneg (sqrt x)) ->
  Forall finite (closes hd) ->
  Forall (fun e => num_le (BollingerBands.lower e) (BollingerBands.middle e)
                   /\ num_le (BollingerBands.middle e) (BollingerBands.upper e))
         (BollingerBands.calculate sqrt 20 (closes hd) (of_Z 2))
  /\ Forall (fun pt => optional_le (BollingerPoint.lower pt) (BollingerPoint.middle pt)
                       /\ optional_le (BollingerPoint.middle pt) (BollingerPoint.upper pt))
            (bollinger_points hd (BollingerBands.calculate sqrt 20 (closes hd) (of_Z 2))).
Proof.
  intros Hsqrt Hv.
  assert (Hraw : Forall (fun e => num_le (BollingerBands.lower e) (BollingerBands.middle e)
                   /\ num_le (BollingerBands.middle e) (BollingerBands.upper e))
         (BollingerBands.calculate sqrt 20 (closes hd) (of_Z 2))).
  { unfold BollingerBands.calculate. apply Forall_forall. intros e He.
    apply list_elem_of_In, in_map_iff in He. destruct He as (i & <- & Hi).
    apply elem_of_zrange in Hi.
    apply (band_is_ordered sqrt 20 (closes hd) 2 i); try assumption; try lia.
    discriminate. }
  split; [exact Hraw|].
  apply Forall_forall. intros pt Hpt. unfold bollinger_points in Hpt.
  apply elem_of_lookup_imap in Hpt. destruct Hpt as (i & bar & -> & _).
  cbn [BollingerPoint.lower BollingerPoint.middle BollingerPoint.upper].
  destruct (oget _ _) as [e|] eqn:E; [|split; exact I].
  cbn [fmap option_fmap option_map optional_le].
  assert (He : e ∈ BollingerBands.calculate sqrt 20 (closes hd) (of_Z 2)).
  { unfold oget in E. destruct (_ <? 0)%Z; [discriminate|].
    eapply list_elem_of_lookup_2; eassumption. }
  rewrite Forall_forall in Hraw. destruct (Hraw e He) as (H1 & H2).
  split; now apply toFixed_num_le.
Qed.

Lemma bollinger_bands_are_ordered_witness :
  Forall (fun pt => optional_le (BollingerPoint.lower pt) (BollingerPoint.middle pt)
                    /\ optional_le (BollingerPoint.middle pt) (BollingerPoint.upper pt))
         (bollinger_points Examples.macdSeries
            (BollingerBands.calculate sampleSqrt 20 (closes Examples.macdSeries) (of_Z 2))).
Proof.
  apply (bollinger_bands_are_ordered sampleSqrt Examples.macdSeries).
  - intros x (q & -> & Hq). eexists. split; [reflexivity|].
    change 0 with (inject_Z 0). rewrite <- Zle_Qle. apply Z.sqrt_nonneg.
  - change (closes Examples.macdSeries) with (map of_Z Examples.macdCloses).
    unfold Examples.macdCloses. cbn [map].
    repeat (apply List.Forall_cons; [eexists; reflexivity |]). apply List.Forall_nil.
Defined.

End BollingerOrder.

Section StochasticRange.
Import TechnicalIndicators StockService Further.
Local Open Scope Q_scope.

Lemma fold_highest (g : Z -> num) (l : list Z) (acc : num) (a x0 : Q) :
  is_fin acc a -> x0 <= a -> (forall j, In j l -> finite (g j)) ->
  exists h, is_fin (fold_left (fun hh j => if ngtb (g j) hh then g j else hh) l acc) h
            /\ x0 <= h.
Proof.
  revert acc a. induction l as [|j l IH]; intros acc a Hacc Ha Hg.
  - exists a. split; assumption.
  - cbn [fold_left]. destruct (Hg j (or_introl eq_refl)) as (x & Hx).
    assert (Hfx : is_fin (g j) x) by (rewrite Hx; apply is_fin_Fin).
    unfold ngtb. destruct (nltb acc (g j)) eqn:E.
    + apply (nltb_fin _ _ _ _ Hacc Hfx) in E.
      apply (IH (g j) x); [assumption | lra | intros j' Hj'; apply Hg; now right].
    + apply (IH acc a); [assumption | assumption | intros j' Hj'; apply Hg; now right].
Qed.

Lemma fold_lowest (g : Z -> num) (l : list Z) (acc : num) (a x0 : Q) :
  is_fin acc a -> a <= x0 -> (forall j, In j l -> finite (g j)) ->
  exists h, is_fin (fold_left (fun ll j => if nltb (g j) ll then g j else ll) l acc) h
            /\ h <= x0.
Proof.
  revert acc a. induction l as [|j l IH]; intros acc a Hacc Ha Hg.
  - exists a. split; assumption.
  - cbn [fold_left]. destruct (Hg j (or_introl eq_refl)) as (x & Hx).
    assert (Hfx : is_fin (g j) x) by (rewrite Hx; apply is_fin_Fin).
    destruct (nltb (g j) acc) eqn:E.
    + apply (nltb_fin _ _ _ _ Hfx Hacc) in E.
      apply (IH (g j) x); [assumption | lra | intros j' Hj'; apply Hg; now right].
    + apply (IH acc a); [assumption | assumption | intros j' Hj'; apply Hg; now right].
Qed.

Lemma aget_field (f : Bar.t -> num) (hd : list Bar.t) (i : Z) :
  (0 <= i < zlength hd)%Z ->
  exists bar, hd !! Z.to_nat i = Some bar /\ aget (map f hd) i = f bar.
Proof.
  intros Hi. unfold zlength in Hi.
  destruct (lookup_lt_is_Some_2 hd (Z.to_nat i)) as [bar Hbar]; [lia|].
  exists bar. split; [assumption|]. apply aget_lookup; [lia|].
  change (map f hd) with (f <$> hd). now rewrite list_lookup_fmap, Hbar.
Qed.

Lemma wellFormed_at (hd : list Bar.t) (i : Z) :
  Forall wellFormed hd -> (0 <= i < zlength hd)%Z ->
  exists l c h, aget (lows hd) i = Fin l /\ aget (closes hd) i = Fin c
                /\ aget (highs hd) i = Fin h /\ l <= c /\ c <= h.
Proof.
  intros Hwf Hi.
  destruct (aget_field Bar.low hd i Hi) as (bar & Hbar & El).
  destruct (aget_field Bar.close hd i Hi) as (bar' & Hbar' & Ec).
  destruct (aget_field Bar.high hd i Hi) as (bar'' & Hbar'' & Eh).
  rewrite Hbar in Hbar', Hbar''. injection Hbar' as <-. injection Hbar'' as <-.
  rewrite Forall_forall in Hwf.
  destruct (Hwf bar (list_elem_of_lookup_2 _ _ _ Hbar))
    as ((l & c & Hl & Hc & Hlc) & (c' & h & Hc' & Hh & Hch)).
  rewrite Hc in Hc'. injection Hc' as <-.
  exists l, c, h. unfold lows, closes, highs. rewrite El, Ec, Eh. auto.
Qed.

(** X7.  On bars with low <= close <= high, over a window of positive
    width, [%K] is a finite number in [0, 100]. *)
Theorem stochastic_k_within_0_100 (hd : list Bar.t) (period i : Z) :
  (1 <= period)%Z ->
  Forall wellFormed hd ->
  (period - 1 <= i < zlength hd)%Z ->
  nltb (Stochastic.lowestLow (lows hd) i period)
       (Stochastic.highestHigh (highs hd) i period) = true ->
  within 0 100 (Stochastic.percentK (highs hd) (lows hd) (closes hd) period i).
Proof.
  intros Hp Hwf Hi Hwidth.
  destruct (wellFormed_at hd i Hwf) as (l & c & h & El & Ec & Eh & Hlc & Hch); [lia|].
  assert (Hwin : forall j, In j (zrange 1 period) -> (0 <= i - j < zlength hd)%Z).
  { intros j Hj. apply elem_of_zrange in Hj. lia. }
  destruct (fold_highest (fun j => aget (highs hd) (i - j)%Z) (zrange 1 period)
              (aget (highs hd) i) h h) as (hh & Hhh & Hge).
  { rewrite Eh. apply is_fin_Fin. }
  { lra. }
  { intros j Hj. destruct (wellFormed_at hd (i - j) Hwf (Hwin j Hj))
      as (? & ? & x & _ & _ & -> & _). now exists x. }
  destruct (fold_lowest (fun j => aget (lows hd) (i - j)%Z) (zrange 1 period)
              (aget (lows hd) i) l l) as (ll & Hll & Hle).
  { rewrite El. apply is_fin_Fin. }
  { lra. }
  { intros j Hj. destruct (wellFormed_at hd (i - j) Hwf (Hwin j Hj))
      as (x & ? & ? & -> & _). now exists x. }
  fold (Stochastic.highestHigh (highs hd) i period) in Hhh.
  fold (Stochastic.lowestLow (lows hd) i period) in Hll.
  apply (nltb_fin _ _ _ _ Hll Hhh) in Hwidth.
  unfold Stochastic.percentK.
  assert (Hk : is_fin (nmul (ndiv (nsub (aget (closes hd) i)
                                        (Stochastic.lowestLow (lows hd) i period))
                                  (nsub (Stochastic.highestHigh (highs hd) i period)
                                        (Stochastic.lowestLow (lows hd) i period)))
                            (of_Z 100))
                     ((c - ll) / (hh - ll) * 100)).
  { apply is_fin_mul; [|apply is_fin_of_Z].
    apply is_fin_div; [| |lra].
    - apply is_fin_sub; [rewrite Ec; apply is_fin_Fin | assumption].
    - now apply is_fin_sub. }
  destruct Hk as (k & -> & Hk). exists k. split; [reflexivity|]. rewrite Hk.
  assert (H0 : 0 <= (c - ll) / (hh - ll)) by (apply Qle_shift_div_l; lra).
  assert (H1 : (c - ll) / (hh - ll) <= 1) by (apply Qle_shift_div_r; lra).
  split; lra.
Qed.

Lemma stochastic_k_within_0_100_witness :
  within 0 100
    (Stochastic.percentK (highs shuffled) (lows shuffled) (closes shuffled) 2 1).
Proof.
  apply (stochastic_k_within_0_100 shuffled 2 1).
  - lia.
  - unfold shuffled, wellFormed, bar3.
    repeat (apply List.Forall_cons;
            [split; eexists _, _; (split; [reflexivity|]); (split; [reflexivity|]);
             discriminate |]).
    apply List.Forall_nil.
  - vm_compute. split; [discriminate | reflexivity].
  - vm_compute. reflexivity.
Defined.

End StochasticRange.

Section AtrSign.
Import TechnicalIndicators StockService Further.
Local Open Scope Q_scope.

Lemma nmax_nonneg_r (a b : num) : finite a -> finite_nonneg b -> finite_nonneg (nmax a b).
Proof.
  intros (x & ->) (y & -> & Hy). unfold nmax, nltb, Qltb.
  destruct (Qle_bool y x) eqn:E; cbn [negb].
  - apply Qle_bool_iff in E. exists x. split; [reflexivity | lra].
  - exists y. split; [reflexivity | assumption].
Qed.

Lemma nabs_nsub_nonneg (a b : num) : finite a -> finite b -> finite_nonneg (nabs (nsub a b)).
Proof.
  intros (x & ->) (y & ->). cbn. eexists. split; [reflexivity | apply Qabs_nonneg].
Qed.

Lemma finite_nonneg_finite (a : num) : finite_nonneg a -> finite a.
Proof. intros (x & -> & _). now exists x. Qed.

Lemma finiteBar_at (hd : list Bar.t) (i : Z) :
  Forall finiteBar hd -> (0 <= i < zlength hd)%Z ->
  finite (aget (highs hd) i) /\ finite (aget (lows hd) i) /\ finite (aget (closes hd) i).
Proof.
  intros Hwf Hi.
  destruct (aget_field Bar.high hd i Hi) as (bar & Hbar & Hh).
  destruct (aget_field Bar.low hd i Hi) as (bar1 & Hbar1 & Hl).
  destruct (aget_field Bar.close hd i Hi) as (bar2 & Hbar2 & Hc).
  assert (bar1 = bar) by congruence. assert (bar2 = bar) by congruence. subst bar1 bar2.
  assert (Hb : finiteBar bar).
  { rewrite Forall_forall in Hwf. apply Hwf.
    eapply list_elem_of_lookup_2; eassumption. }
  unfold highs, lows, closes. rewrite Hh, Hl, Hc. exact Hb.
Qed.

Lemma trueRange_nonneg (hd : list Bar.t) (i : Z) :
  Forall finiteBar hd -> (1 <= i < zlength hd)%Z ->
  finite_nonneg (ATR.trueRange (highs hd) (lows hd) (closes hd) i).
Proof.
  intros Hwf Hi.
  destruct (finiteBar_at hd i Hwf) as (Hh & Hl & _); [lia|].
  destruct (finiteBar_at hd (i - 1) Hwf) as (_ & _ & Hc); [lia|].
  unfold ATR.trueRange. apply nmax_nonneg_r.
  - apply finite_nonneg_finite, nmax_nonneg_r.
    + destruct Hh as (x & ->), Hl as (y & ->). cbn. now eexists.
    + now apply nabs_nsub_nonneg.
  - now apply nabs_nsub_nonneg.
Qed.

Lemma fold_sum_nonneg (g : Z -> num) (l : list Z) (acc : num) :
  finite_nonneg acc -> (forall j, In j l -> finite_nonneg (g j)) ->
  finite_nonneg (fold_left (fun sum j => nadd sum (g j)) l acc).
Proof.
  revert acc. induction l as [|j l IH]; intros acc Hacc Hg; [exact Hacc|].
  cbn [fold_left]. apply IH; [|intros j' Hj'; apply Hg; now right].
  destruct Hacc as (a & -> & Ha). destruct (Hg j (or_introl eq_refl)) as (x & -> & Hx).
  cbn. eexists. split; [reflexivity|]. rewrite Qred_correct. lra.
Qed.

(** X8.  The average true range is never negative: over bars whose high,
    low and close are finite numbers (in any order), every value of
    [ATR.calculate] is a finite number that is at least 0, and there are
    [L - period] of them (none for [L <= period]). *)
Theorem atr_is_never_negative (hd : list Bar.t) (period : Z) :
  (1 <= period)%Z ->
  Forall finiteBar hd ->
  Forall finite_nonneg (ATR.calculate (highs hd) (lows hd) (closes hd) period)
  /\ zlength (ATR.calculate (highs hd) (lows hd) (closes hd) period)
     = Z.max 0 (zlength hd - period).
Proof.
  intros Hp Hwf.
  assert (Hc : zlength (closes hd) = zlength hd)
    by (unfold zlength, closes; now rewrite length_map).
  split.
  - unfold ATR.calculate, SMA.calculate. apply Forall_forall. intros x Hx.
    apply list_elem_of_In, in_map_iff in Hx. destruct Hx as (i & <- & Hi).
    apply elem_of_zrange in Hi.
    unfold zlength in Hi. rewrite length_map, zrange_length in Hi.
    assert (Hs : finite_nonneg
                   (window_sum (map (ATR.trueRange (highs hd) (lows hd) (closes hd))
                                    (zrange 1 (zlength (closes hd)))) i period)).
    { unfold window_sum. apply fold_sum_nonneg.
      - exists 0. split; [reflexivity | lra].
      - intros j Hj. apply elem_of_zrange in Hj.
        apply aget_Forall.
        + apply Forall_forall. intros y Hy.
          apply list_elem_of_In, in_map_iff in Hy. destruct Hy as (k & <- & Hk).
          apply elem_of_zrange in Hk. apply trueRange_nonneg; [assumption | lia].
        + rewrite length_map, zrange_length. unfold zlength. lia. }
    destruct Hs as (s & -> & Hs0). unfold ndiv, of_Z.
    assert (Hq : 0 < inject_Z period)
      by (change 0 with (inject_Z 0); rewrite <- Zlt_Qlt; lia).
    destruct (Qeq_bool (inject_Z period) 0) eqn:E.
    + apply Qeq_bool_iff in E. lra.
    + eexists. split; [reflexivity|]. rewrite Qred_correct.
      apply Qle_shift_div_l; [assumption | lra].
  - unfold ATR.calculate. rewrite sma_calculate_length.
    unfold zlength at 1. rewrite length_map, zrange_length. unfold zlength in *. lia.
Qed.

Lemma atr_is_never_negative_witness :
  Forall finite_nonneg
    (ATR.calculate (highs shuffled) (lows shuffled) (closes shuffled) 2)
  /\ zlength (ATR.calculate (highs shuffled) (lows shuffled) (closes shuffled) 2) = 1%Z.
Proof.
  apply (atr_is_never_negative shuffled 2); [lia|].
  repeat (apply List.Forall_cons; [repeat split; eexists; reflexivity |]).
  apply List.Forall_nil.
Defined.

End AtrSign.

(** * Further properties of the stock service *)

Section MockBars.
Import TechnicalIndicators StockService Further.
Local Open Scope Q_scope.

(** X9.  The base price of a symbol is a whole number from 10 to 499. *)
Theorem base_price_is_between_10_and_499 (symbol : string) :
  exists n : Z, getBasePrice symbol = of_Z n /\ (10 <= n <= 499)%Z.
Proof.
  unfold getBasePrice. eexists. split; [reflexivity|].
  pose proof (Z.mod_pos_bound (fold_left Z.add (charCodes symbol) 0%Z) 490) as H.
  lia.
Qed.

Lemma base_price_is_between_10_and_499_witness :
  exists n : Z, getBasePrice "AAPL" = of_Z n /\ (10 <= n <= 499)%Z.
Proof. apply (base_price_is_between_10_and_499 "AAPL"). Defined.

Lemma getNumDays_positive (timeRange : string) :
  (1 <= getNumDaysFromTimeRange timeRange)%Z.
Proof.
  unfold getNumDaysFromTimeRange.
  repeat match goal with |- context [String.eqb ?a ?b] => destruct (String.eqb a b) end;
    lia.
Qed.

Lemma mockLoop_Forall (cfg : Config) (w : World) (P : Bar.t -> Prop) :
  (forall n, 0 <= Math_random w n < 1) ->
  (forall t x1 x2 x3 x4 x5 bp,
      finite bp -> 0 <= x2 < 1 -> 0 <= x3 < 1 -> 0 <= x4 < 1 -> 0 <= x5 < 1 ->
      P (fst (mockBarOf t (Fin x1) (Fin x2) (Fin x3) (Fin x4) (Fin x5) bp))) ->
  forall idx bp s, finite bp -> Forall P (fst (mockLoop cfg w idx bp s)).
Proof.
  intros Hrand Hstep. induction idx as [|i idx IH]; intros bp s (q & Hq); [constructor|].
  cbn [mockLoop]. unfold bind at 1. rewrite mockBar_unfold. unfold bind at 1.
  destruct (mockBarOf_spec (isoDate (setDateBack cfg (Date_now w (reads s)) i))
              (Math_random w (draws s)) (Math_random w (S (draws s)))
              (Math_random w (S (S (draws s)))) (Math_random w (S (S (S (draws s)))))
              (Math_random w (S (S (S (S (draws s)))))) bp q)
    as (_ & _ & q' & (q'' & Hq' & _) & _);
    try apply Hrand; [subst bp; apply is_fin_Fin|].
  match goal with |- context [mockLoop cfg w idx ?b ?s'] =>
    specialize (IH b s' (ex_intro _ q'' Hq')); destruct (mockLoop cfg w idx b s') as [bars s'']
  end.
  cbn [ret fst] in *. constructor; [|exact IH].
  apply Hstep; try apply Hrand. now exists q.
Qed.

Lemma mockBarOf_consistent (t : Z) (x1 x2 x3 x4 x5 : Q) (bp : num) :
  finite bp -> 0 <= x2 < 1 -> 0 <= x3 < 1 -> 0 <= x4 < 1 -> 0 <= x5 < 1 ->
  let bar := fst (mockBarOf t (Fin x1) (Fin x2) (Fin x3) (Fin x4) (Fin x5) bp) in
  num_le (Bar.low bar) (Bar.open bar) /\ num_le (Bar.open bar) (Bar.high bar)
  /\ num_le (Bar.low bar) (Bar.close bar) /\ num_le (Bar.close bar) (Bar.high bar)
  /\ within 500000 10499999 (Bar.volume bar).
Proof.
  intros (q & ->) H2 H3 H4 H5. unfold mockBarOf. cbv zeta.
  cbn [fst Bar.low Bar.open Bar.high Bar.close Bar.volume].
  set (bp1 := nadd (Fin q) _).
  assert (Hbp1 : exists q1, is_fin bp1 q1).
  { subst bp1. eexists. apply is_fin_add; [apply is_fin_Fin|].
    apply is_fin_mul; [apply is_fin_mul; apply is_fin_Fin|].
    apply is_fin_sub; apply is_fin_Fin. }
  destruct Hbp1 as (q1 & Hbp1).
  set (bp2 := if nltb bp1 (of_Z 1) then of_Z 1 else bp1).
  assert (Hbp2 : exists q2, bp2 = Fin q2 /\ 1 <= q2).
  { subst bp2. destruct (nltb bp1 (of_Z 1)) eqn:E.
    - exists 1. split; [reflexivity | lra].
    - apply (nltb_fin_false _ _ _ _ Hbp1 (is_fin_of_Z 1)) in E.
      destruct Hbp1 as (q1' & -> & Hq1). exists q1'. split; [reflexivity|].
      rewrite Hq1. exact E. }
  destruct Hbp2 as (q2 & -> & Hge).
  set (high := nmul (Fin q2) (nadd (of_Z 1) (nmul (Fin x2) (Fin (15 # 1000))))).
  set (low := nmul (Fin q2) (nsub (of_Z 1) (nmul (Fin x3) (Fin (15 # 1000))))).
  assert (Hhigh : is_fin high (q2 * (1 + x2 * (15 # 1000)))).
  { subst high. apply is_fin_mul; [apply is_fin_Fin|].
    apply is_fin_add; [apply is_fin_of_Z|]. apply is_fin_mul; apply is_fin_Fin. }
  assert (Hlow : is_fin low (q2 * (1 - x3 * (15 # 1000)))).
  { subst low. apply is_fin_mul; [apply is_fin_Fin|].
    apply is_fin_sub; [apply is_fin_of_Z|]. apply is_fin_mul; apply is_fin_Fin. }
  assert (Hclose : is_fin (nadd low (nmul (Fin x4) (nsub high low)))
                     (q2 * (1 - x3 * (15 # 1000))
                      + x4 * (q2 * (1 + x2 * (15 # 1000)) - q2 * (1 - x3 * (15 # 1000))))).
  { apply is_fin_add; [assumption|]. apply is_fin_mul; [apply is_fin_Fin|].
    now apply is_fin_sub. }
  destruct Hhigh as (h & -> & Hh), Hlow as (l & -> & Hl), Hclose as (c & -> & Hc).
  assert (A2 : 0 <= q2 * x2) by (apply Qmult_le_0_compat; lra).
  assert (A3 : 0 <= q2 * x3) by (apply Qmult_le_0_compat; lra).
  assert (A4 : 0 <= x4 * (q2 * x2 + q2 * x3)) by (apply Qmult_le_0_compat; lra).
  assert (A5 : 0 <= (1 - x4) * (q2 * x2 + q2 * x3)) by (apply Qmult_le_0_compat; lra).
  assert (Hlq : l <= q2) by (rewrite Hl; lra).
  assert (Hqh : q2 <= h) by (rewrite Hh; lra).
  assert (Hlc : l <= c) by (rewrite Hl, Hc; lra).
  assert (Hch : c <= h) by (rewrite Hh, Hc; lra).
  repeat split; try (apply toFixed_mono; assumption).
  (* volume *)
  assert (EF : Qfloor (Qred (x5 * inject_Z 10000000)) = Qfloor (x5 * inject_Z 10000000))
    by apply Qfloor_comp, Qred_correct.
  pose proof (Qfloor_le (x5 * inject_Z 10000000)) as F1.
  assert (F0 : (0 <= Qfloor (x5 * inject_Z 10000000))%Z).
  { change 0%Z with (Qfloor 0). apply Qfloor_resp_le.
    change (inject_Z 10000000) with 10000000. lra. }
  assert (F3 : (Qfloor (x5 * inject_Z 10000000) < 10000000)%Z).
  { rewrite Zlt_Qlt. apply Qle_lt_trans with (x5 * inject_Z 10000000); [exact F1|].
    change (inject_Z 10000000) with 10000000. lra. }
  cbn [nmul nfloor of_Z nadd]. eexists. split; [reflexivity|].
  rewrite Qred_correct, EF, <- inject_Z_plus.
  change 500000 with (inject_Z 500000). change 10499999 with (inject_Z 10499999).
  rewrite <- !Zle_Qle. lia.
Qed.

(** X10.  With draws in [0, 1), for every symbol and every time range
    [getMockStockData] returns [numDays + 1] bars (at least two, 31 for
    an unknown range), and every bar has low <= open <= high, low <=
    close <= high and a volume from 500000 to 10499999. *)
Theorem mock_bars_are_consistent (cfg : Config) (w : World) (s : State)
  (symbol timeRange : string) :
  (forall n, 0 <= Math_random w n < 1) ->
  let bars := fst (getMockStockData cfg w symbol timeRange s) in
  Z.of_nat (length bars) = (getNumDaysFromTimeRange timeRange + 1)%Z
  /\ (2 <= length bars)%nat
  /\ Forall (fun bar =>
               num_le (Bar.low bar) (Bar.open bar) /\ num_le (Bar.open bar) (Bar.high bar)
               /\ num_le (Bar.low bar) (Bar.close bar)
               /\ num_le (Bar.close bar) (Bar.high bar)
               /\ within 500000 10499999 (Bar.volume bar)) bars.
Proof.
  intros Hrand bars. pose proof (getNumDays_positive timeRange) as Hn.
  assert (Hlen : Z.of_nat (length bars) = (getNumDaysFromTimeRange timeRange + 1)%Z).
  { subst bars. unfold getMockStockData.
    rewrite mockLoop_length, length_rev, zrange_length. lia. }
  split; [exact Hlen|]. split; [lia|].
  subst bars. unfold getMockStockData. apply mockLoop_Forall; [assumption | |].
  - intros. now apply mockBarOf_consistent.
  - eexists. reflexivity.
Qed.

Lemma mock_bars_are_consistent_witness :
  Z.of_nat (length (fst (getMockStockData Examples.liveNoKey Examples.yahooDown "MSFT" "2w"
                           Examples.freshState))) = 31%Z.
Proof.
  destruct (mock_bars_are_consistent Examples.liveNoKey Examples.yahooDown
              Examples.freshState "MSFT" "2w")
    as (Hlen & _).
  - intros n. split; [discriminate | reflexivity].
  - exact Hlen.
Defined.

End MockBars.

Section AlphaVantage.
Import TechnicalIndicators StockService Further.

Lemma insertByDate_perm (b : Bar.t) (l : list Bar.t) :
  Permutation (insertByDate b l) (b :: l).
Proof.
  induction l as [|x l IH]; cbn [insertByDate]; [reflexivity|].
  destruct (Bar.date b <? Bar.date x); [reflexivity|].
  rewrite IH. apply perm_swap.
Qed.

Lemma insertByDate_HdRel (a b : Bar.t) (l : list Bar.t) :
  Bar.date a <= Bar.date b ->
  HdRel (fun a b => Bar.date a <= Bar.date b) a l ->
  HdRel (fun a b => Bar.date a <= Bar.date b) a (insertByDate b l).
Proof.
  intros Hab Hl. destruct l as [|x l]; cbn [insertByDate].
  - now constructor.
  - destruct (Bar.date b <? Bar.date x); constructor; [assumption|].
    now inversion Hl.
Qed.

Lemma insertByDate_sorted (b : Bar.t) (l : list Bar.t) :
  sortedByDate l -> sortedByDate (insertByDate b l).
Proof.
  unfold sortedByDate. induction 1 as [|x l Hs IH Hhd]; cbn [insertByDate].
  - repeat constructor.
  - destruct (Z.ltb_spec (Bar.date b) (Bar.date x)) as [Hlt|Hge].
    + constructor; [now constructor|]. constructor. lia.
    + constructor; [exact IH|]. now apply insertByDate_HdRel.
Qed.

Lemma sortByDate_from (l acc : list Bar.t) :
  sortedByDate acc ->
  sortedByDate (fold_left (fun acc b => insertByDate b acc) l acc)
  /\ Permutation (fold_left (fun acc b => insertByDate b acc) l acc) (acc ++ l).
Proof.
  revert acc. induction l as [|b l IH]; intros acc Hacc; cbn [fold_left].
  - rewrite app_nil_r. split; [assumption | reflexivity].
  - destruct (IH (insertByDate b acc) (insertByDate_sorted b acc Hacc)) as (Hs & Hp).
    split; [exact Hs|]. rewrite Hp, insertByDate_perm.
    change (b :: acc) with ([b] ++ acc). rewrite (Permutation_app_comm [b] acc).
    now rewrite <- app_assoc.
Qed.

Lemma sortByDate_sorted_perm (l : list Bar.t) :
  sortedByDate (sortByDate l) /\ Permutation (sortByDate l) l.
Proof. apply (sortByDate_from l []). constructor. Qed.

(** X11.  When [getAlphaVantageData] returns a series, a key is
    configured and the series is the most recent part of the provider's
    answer in date order: together with the older bars left out it is a
    sorted rearrangement of the answer, and it has [min(L, numDays)]
    bars. *)
Theorem alpha_vantage_series_is_sorted_and_capped
  (cfg : Config) (w : World) (symbol timeRange : string) (data : list Bar.t) :
  getAlphaVantageData cfg w symbol timeRange = Ok data ->
  key_configured cfg = true
  /\ exists answer older,
       alpha_data w symbol timeRange = Ok answer
       /\ sortedByDate (older ++ data)
       /\ Permutation (older ++ data) answer
       /\ Z.of_nat (length data)
          = Z.min (Z.of_nat (length answer)) (getNumDaysFromTimeRange timeRange).
Proof.
  unfold getAlphaVantageData. destruct (key_configured cfg); [|discriminate].
  cbn [negb]. destruct (alpha_data w symbol timeRange) as [answer|e]; [|discriminate].
  intros [= <-]. split; [reflexivity|].
  destruct (sortByDate_sorted_perm answer) as (Hs & Hp).
  exists answer, (take (length (sortByDate answer)
                        - Z.to_nat (getNumDaysFromTimeRange timeRange))
                       (sortByDate answer)).
  rewrite take_drop. repeat split; try assumption.
  rewrite length_drop, (Permutation_length Hp).
  pose proof (getNumDays_positive timeRange). lia.
Qed.

Lemma alpha_vantage_series_is_sorted_and_capped_witness :
  getAlphaVantageData liveWithKey alphaWorld "AAPL" "1d" = Ok [bar3 3 1 2 3]
  /\ key_configured liveWithKey = true.
Proof.
  assert (E : getAlphaVantageData liveWithKey alphaWorld "AAPL" "1d" = Ok [bar3 3 1 2 3])
    by reflexivity.
  split; [exact E|].
  apply (alpha_vantage_series_is_sorted_and_capped liveWithKey alphaWorld "AAPL" "1d" _ E).
Defined.

End AlphaVantage.

Section SeriesFetch.
Import TechnicalIndicators StockService Further.

Lemma getMockStockData_nonempty (cfg : Config) (w : World) (symbol timeRange : string)
  (s : State) :
  fst (getMockStockData cfg w symbol timeRange s) <> [].
Proof.
  intros E. apply (f_equal length) in E. unfold getMockStockData in E.
  rewrite mockLoop_length, length_rev, zrange_length in E.
  pose proof (getNumDays_positive timeRange). cbn [length] in E. lia.
Qed.

Lemma getYahooFinanceData_nonempty (w : World) (symbol timeRange : string) (data : list Bar.t) :
  getYahooFinanceData w symbol timeRange = Ok data ->
  data <> []
  /\ exists answer, yahooFinance_historical w symbol timeRange = Ok answer
                    /\ data = rev answer.
Proof.
  unfold getYahooFinanceData.
  destruct (yahooFinance_historical w symbol timeRange) as [answer|e]; [|discriminate].
  destruct answer as [|b answer]; [discriminate|]. cbn [length Nat.eqb].
  intros [= <-]. split; [|exists (b :: answer); split; reflexivity].
  cbn [rev]. intros E. apply (f_equal length) in E. rewrite length_app in E.
  cbn [length] in E. lia.
Qed.

Lemma getStockData_on_miss (cfg : Config) (w : World) (s : State)
  (symbol timeRange : string) :
  fst (cache_get_stock w (stockKey symbol timeRange) s) = None ->
  getStockData cfg w symbol timeRange s
  = (Ok (fst (providerChain cfg w symbol timeRange (snd (now w s)))),
     snd (cache_set_stock w (stockKey symbol timeRange)
            (fst (providerChain cfg w symbol timeRange (snd (now w s))))
            (cacheTime cfg)
            (snd (providerChain cfg w symbol timeRange (snd (now w s)))))).
Proof.
  intros Hmiss. unfold getStockData, fetchStockData, bind.
  fold (stockKey symbol timeRange).
  pose proof (cache_get_stock_state w (stockKey symbol timeRange) s) as Hst.
  destruct (cache_get_stock w _ s) as [c s1]. cbn [fst snd] in Hmiss, Hst. subst c s1.
  fold (providerChain cfg w symbol timeRange). fold (cacheTime cfg).
  destruct (providerChain cfg w symbol timeRange (snd (now w s))) as [data s2].
  cbn [fst snd]. destruct (cache_set_stock _ _ _ _ _). reflexivity.
Qed.

(** X12.  Without a usable Alpha Vantage key and with no live cache
    entry, [getStockData] returns a series that is never empty: either
    the provider's answer in reverse (chronological) order, when live
    data is on and Yahoo Finance answers with at least one bar, or the
    synthetic series. *)
Theorem series_is_never_empty_without_alpha
  (cfg : Config) (w : World) (s : State) (symbol timeRange : string) :
  key_configured cfg = false ->
  fst (cache_get_stock w (stockKey symbol timeRange) s) = None ->
  exists data,
    fst (getStockData cfg w symbol timeRange s) = Ok data
    /\ data <> []
    /\ ((exists answer, USE_LIVE_DATA cfg = true
                        /\ yahooFinance_historical w symbol timeRange = Ok answer
                        /\ answer <> [] /\ data = rev answer)
        \/ data = fst (getMockStockData cfg w symbol timeRange (snd (now w s)))).
Proof.
  intros Hkey Hmiss. rewrite (getStockData_on_miss cfg w s symbol timeRange Hmiss).
  cbn [fst]. eexists. split; [reflexivity|].
  pose proof (getMockStockData_nonempty cfg w symbol timeRange (snd (now w s))) as Hne.
  unfold providerChain. rewrite Hkey. destruct (USE_LIVE_DATA cfg).
  - destruct (getYahooFinanceData w symbol timeRange) as [data|e] eqn:Ey.
    + destruct (getYahooFinanceData_nonempty w symbol timeRange data Ey)
        as (Hd & answer & Ha & ->).
      cbn [ret fst]. split; [exact Hd|]. left. exists answer.
      repeat split; try assumption. intros ->. now apply Hd.
    + split; [exact Hne | now right].
  - split; [exact Hne | now right].
Qed.

Lemma series_is_never_empty_without_alpha_witness :
  exists data,
    fst (getStockData Examples.liveNoKey yahooUp "AAPL" "1w" Examples.freshState) = Ok data
    /\ data <> [].
Proof.
  destruct (series_is_never_empty_without_alpha Examples.liveNoKey yahooUp
              Examples.freshState "AAPL" "1w") as (data & E & Hne & _);
    [reflexivity | reflexivity |].
  exists data. split; assumption.
Defined.

(** X13.  After [getStockData] has run the provider chain, a call for
    the same symbol and range made before the entry expires returns the
    same series from the cache: no draw is made and the store is left
    as it is. *)
Theorem series_is_served_from_cache_until_it_expires
  (cfg : Config) (w : World) (s : State) (symbol timeRange : string) :
  fst (cache_get_stock w (stockKey symbol timeRange) s) = None ->
  let first := getStockData cfg w symbol timeRange s in
  Date_now w (reads (snd first))
  <= Date_now w (pred (reads (snd first))) + cacheTime cfg * 1000 ->
  let second := getStockData cfg w symbol timeRange (snd first) in
  fst second = fst first
  /\ draws (snd second) = draws (snd first)
  /\ stock_cache (snd second) = stock_cache (snd first).
Proof.
  intros Hmiss first. subst first.
  rewrite (getStockData_on_miss cfg w s symbol timeRange Hmiss).
  destruct (providerChain cfg w symbol timeRange (snd (now w s))) as [data s2].
  cbn [fst snd]. unfold cache_set_stock at 1 2. unfold bind, now. cbn [fst snd reads pred].
  intros Hlive.
  unfold getStockData, fetchStockData, bind. fold (stockKey symbol timeRange).
  unfold cache_get_stock, cache_set_stock, bind, now.
  cbn [fst snd reads stock_cache draws indicator_cache].
  rewrite lookup_insert_eq. unfold live.
  apply Z.leb_le in Hlive. rewrite Hlive. cbn [ret fst snd draws stock_cache].
  repeat split.
Qed.

Lemma series_is_served_from_cache_until_it_expires_witness :
  fst (getStockData mockOnly Examples.yahooDown "AAPL" "1w"
         (snd (getStockData mockOnly Examples.yahooDown "AAPL" "1w" Examples.freshState)))
  = fst (getStockData mockOnly Examples.yahooDown "AAPL" "1w" Examples.freshState).
Proof.
  destruct (series_is_served_from_cache_until_it_expires mockOnly Examples.yahooDown
              Examples.freshState "AAPL" "1w") as (E & _).
  - reflexivity.
  - vm_compute. discriminate.
  - exact E.
Defined.

Lemma mockLoop_same_draws (cfg : Config) (w w' : World) (idx : list Z) (bp : num)
  (s : State) :
  Math_random w = Math_random w' -> Date_now w = Date_now w' ->
  mockLoop cfg w idx bp s = mockLoop cfg w' idx bp s.
Proof.
  intros Hr Hc. revert bp s. induction idx as [|i idx IH]; intros bp s; [reflexivity|].
  cbn [mockLoop]. unfold bind at 1 3. rewrite !mockBar_unfold, Hr, Hc.
  unfold bind. now rewrite IH.
Qed.

(** X14.  With live data off, [getStockData] never consults a provider:
    two worlds with the same draws and the same clock give the same
    result and the same state, whatever their providers answer. *)
Theorem live_data_off_ignores_the_providers
  (cfg : Config) (w w' : World) (s : State) (symbol timeRange : string) :
  USE_LIVE_DATA cfg = false ->
  Math_random w = Math_random w' ->
  Date_now w = Date_now w' ->
  getStockData cfg w symbol timeRange s = getStockData cfg w' symbol timeRange s.
Proof.
  intros Hoff Hr Hc.
  assert (Hmock : forall st, getMockStockData cfg w symbol timeRange st
                             = getMockStockData cfg w' symbol timeRange st).
  { intros st. unfold getMockStockData. now apply mockLoop_same_draws. }
  unfold getStockData, fetchStockData, bind. rewrite Hoff.
  unfold cache_get_stock, cache_set_stock, bind, now. rewrite Hc.
  cbn [fst snd reads stock_cache draws indicator_cache].
  match goal with |- context [stock_cache s !! ?key] =>
    destruct (stock_cache s !! key) as [[v e]|] end;
    [destruct (live e _)|]; try reflexivity; now rewrite Hmock.
Qed.

Lemma live_data_off_ignores_the_providers_witness :
  getStockData mockOnly Examples.yahooDown "AAPL" "1w" Examples.freshState
  = getStockData mockOnly yahooUp "AAPL" "1w" Examples.freshState.
Proof.
  apply (live_data_off_ignores_the_providers mockOnly Examples.yahooDown yahooUp);
    reflexivity.
Defined.

End SeriesFetch.

Section IndicatorFetch.
Import TechnicalIndicators StockService Further.

Lemma mapM_cons {A B} (f : A -> M B) (a : A) (l : list A) (s : State) :
  mapM f (a :: l) s
  = let (b, s1) := f a s in let (bs, s2) := mapM f l s1 in (b :: bs, s2).
Proof.
  cbn [mapM]. unfold bind. destruct (f a s) as [b s1].
  destruct (mapM f l s1) as [bs s2]. reflexivity.
Qed.

Lemma mockValue_point (w : World) (bar : Bar.t) (s : State) :
  MockPoint.date (fst (mockValue w bar s)) = Bar.date bar
  /\ MockPoint.value (fst (mockValue w bar s)) <> None.
Proof. unfold mockValue, bind, random, ret. cbn. split; [reflexivity | discriminate]. Qed.

Lemma mapM_mockValue (w : World) (l : list Bar.t) (s : State) :
  map MockPoint.date (fst (mapM (mockValue w) l s)) = map Bar.date l
  /\ Forall (fun pt => MockPoint.value pt <> None) (fst (mapM (mockValue w) l s)).
Proof.
  revert s. induction l as [|bar l IH]; intros s; [split; [reflexivity | constructor]|].
  rewrite mapM_cons. destruct (mockValue_point w bar s) as (Hd0 & Hv0).
  destruct (mockValue w bar s) as [pt s1]. cbn [fst] in Hd0, Hv0.
  destruct (IH s1) as (Hd & Hv). destruct (mapM (mockValue w) l s1) as [pts s2].
  cbn [fst map] in *. split; [now rewrite Hd0, Hd|].
  constructor; assumption.
Qed.

Lemma mockSma_shape (stockData : list Bar.t) :
  map MockPoint.date (mockSma stockData) = map Bar.date stockData
  /\ forall i pt, mockSma stockData !! i = Some pt ->
                  (MockPoint.value pt = None <-> (i < 13)%nat).
Proof.
  unfold mockSma. split.
  - apply map_imap_proj. intros i x. now destruct (Z.of_nat i <? 14 - 1).
  - intros i pt Hi. rewrite list_lookup_imap in Hi.
    destruct (stockData !! i) as [bar|]; [|discriminate]. cbn in Hi.
    destruct (Z.ltb_spec (Z.of_nat i) (14 - 1)); injection Hi as <-;
      cbn [MockPoint.value]; split; intros; try lia; try discriminate; reflexivity.
Qed.

Lemma mock_indicator_dates (cfg : Config) (w : World) (s : State)
  (symbol indicator timeRange : string) :
  map MockPoint.date (fst (getMockIndicatorData cfg w symbol indicator timeRange s))
  = map Bar.date (fst (getMockStockData cfg w symbol timeRange s))
  /\ Z.of_nat (length (fst (getMockIndicatorData cfg w symbol indicator timeRange s)))
     = getNumDaysFromTimeRange timeRange + 1.
Proof.
  assert (Hd : map MockPoint.date (fst (getMockIndicatorData cfg w symbol indicator timeRange s))
               = map Bar.date (fst (getMockStockData cfg w symbol timeRange s))).
  { unfold getMockIndicatorData, bind.
    destruct (getMockStockData cfg w symbol timeRange s) as [stockData s1]. cbn [fst].
    destruct (String.eqb indicator "sma").
    - cbn [ret fst]. apply mockSma_shape.
    - apply mapM_mockValue. }
  split; [exact Hd|]. apply (f_equal length) in Hd. rewrite !length_map in Hd.
  rewrite Hd. unfold getMockStockData.
  rewrite mockLoop_length, length_rev, zrange_length.
  pose proof (getNumDays_positive timeRange). lia.
Qed.

(** X15.  [getMockIndicatorData] returns one point per synthetic bar,
    with its date.  For the name "sma" (in lower case only) the first 13
    values are [null] and all later ones are numbers; for every other
    name, "SMA" included, every value is a number. *)
Theorem mock_indicator_shape (cfg : Config) (w : World) (s : State)
  (symbol indicator timeRange : string) :
  let bars := fst (getMockStockData cfg w symbol timeRange s) in
  let points := fst (getMockIndicatorData cfg w symbol indicator timeRange s) in
  map MockPoint.date points = map Bar.date bars
  /\ (indicator = "sma"%string ->
      forall i pt, points !! i = Some pt -> (MockPoint.value pt = None <-> (i < 13)%nat))
  /\ (indicator <> "sma"%string ->
      Forall (fun pt => MockPoint.value pt <> None) points).
Proof.
  intros bars points. subst bars points. unfold getMockIndicatorData, bind.
  destruct (getMockStockData cfg w symbol timeRange s) as [stockData s1]. cbn [fst].
  destruct (String.eqb_spec indicator "sma") as [-> | Hne].
  - cbn [ret fst]. destruct (mockSma_shape stockData) as (Hd & Hv).
    split; [exact Hd|]. split; [intros _; exact Hv | congruence].
  - destruct (mapM_mockValue w stockData s1) as (Hd & Hv).
    split; [exact Hd|]. split; [congruence | intros _; exact Hv].
Qed.

Lemma mock_indicator_shape_witness :
  map MockPoint.date
      (fst (getMockIndicatorData Examples.liveNoKey Examples.yahooDown "AAPL" "sma" "1w"
              Examples.freshState))
  = map Bar.date (fst (getMockStockData Examples.liveNoKey Examples.yahooDown "AAPL" "1w"
                         Examples.freshState)).
Proof.
  apply (mock_indicator_shape Examples.liveNoKey Examples.yahooDown Examples.freshState
           "AAPL" "sma" "1w").
Defined.

Lemma getStockIndicator_on_miss (cfg : Config) (w : World) (s : State)
  (symbol indicator timeRange : string) (hd : list Bar.t) :
  fst (cache_get_indicator w
         ("indicator_" +:+ symbol +:+ "_" +:+ indicator +:+ "_" +:+ timeRange) s) = None ->
  fst (getStockData cfg w symbol timeRange (snd (now w s))) = Ok hd ->
  hd <> [] ->
  fst (getStockIndicator cfg w symbol indicator timeRange s)
  = if USE_LIVE_DATA cfg then
      match calculateTechnicalIndicator (Math_sqrt w) hd indicator with
      | Ok data => Ok data
      | Throw _ =>
          Ok (MockData (fst (getMockIndicatorData cfg w symbol indicator timeRange
                               (snd (getStockData cfg w symbol timeRange (snd (now w s)))))))
      end
    else
      Ok (MockData (fst (getMockIndicatorData cfg w symbol indicator timeRange
                           (snd (getStockData cfg w symbol timeRange (snd (now w s))))))).
Proof.
  intros Hmiss Hhd Hne. unfold getStockIndicator, fetchStockIndicator, bind.
  pose proof (cache_get_indicator_state w
                ("indicator_" +:+ symbol +:+ "_" +:+ indicator +:+ "_" +:+ timeRange) s)
    as Hst.
  destruct (cache_get_indicator w _ s) as [c s1]. cbn [fst snd] in Hmiss, Hst. subst c s1.
  destruct (getStockData cfg w symbol timeRange (snd (now w s))) as [r s2].
  cbn [fst snd] in Hhd |- *. subst r.
  destruct hd as [|bar hd]; [contradiction|]. cbn [length Nat.eqb].
  destruct (USE_LIVE_DATA cfg).
  - destruct (calculateTechnicalIndicator (Math_sqrt w) (bar :: hd) indicator) as [data|e].
    + cbn [ret]. destruct (cache_set_indicator _ _ _ _ _). reflexivity.
    + destruct (getMockIndicatorData cfg w symbol indicator timeRange s2) as [mock s3].
      cbn [ret fst]. destruct (cache_set_indicator _ _ _ _ _). reflexivity.
  - destruct (getMockIndicatorData cfg w symbol indicator timeRange s2) as [mock s3].
    cbn [ret fst]. destruct (cache_set_indicator _ _ _ _ _). reflexivity.
Qed.

(** X16.  With live data on, for a supported indicator name, no cached
    result and a non-empty series, [getStockIndicator] returns what
    [calculateTechnicalIndicator] computes on the series that
    [getStockData] fetched: one record per bar, with the bar's date. *)
Theorem supported_indicator_is_computed_on_the_fetched_series
  (cfg : Config) (w : World) (s : State) (symbol indicator timeRange : string)
  (hd : list Bar.t) :
  USE_LIVE_DATA cfg = true ->
  supported indicator = true ->
  fst (cache_get_indicator w
         ("indicator_" +:+ symbol +:+ "_" +:+ indicator +:+ "_" +:+ timeRange) s) = None ->
  fst (getStockData cfg w symbol timeRange (snd (now w s))) = Ok hd ->
  hd <> [] ->
  exists data,
    calculateTechnicalIndicator (Math_sqrt w) hd indicator = Ok data
    /\ fst (getStockIndicator cfg w symbol indicator timeRange s) = Ok data
    /\ dates data = map Bar.date hd.
Proof.
  intros Hlive Hsup Hmiss Hhd Hne.
  destruct (calculateTechnicalIndicator_supported (Math_sqrt w) hd indicator Hsup)
    as (data & Hdata).
  exists data. split; [exact Hdata|]. split.
  - rewrite (getStockIndicator_on_miss cfg w s symbol indicator timeRange hd Hmiss Hhd Hne).
    now rewrite Hlive, Hdata.
  - now apply (calculateTechnicalIndicator_dates (Math_sqrt w) hd indicator).
Qed.

Lemma supported_indicator_is_computed_on_the_fetched_series_witness :
  exists data,
    fst (getStockIndicator Examples.liveNoKey yahooUp "AAPL" "EMA" "1w"
           Examples.freshState) = Ok data
    /\ dates data = [2; 1; 3].
Proof.
  destruct (supported_indicator_is_computed_on_the_fetched_series
              Examples.liveNoKey yahooUp Examples.freshState "AAPL" "EMA" "1w"
              (rev shuffled)) as (data & _ & E & Hd); try reflexivity.
  - discriminate.
  - exists data. split; [exact E | exact Hd].
Defined.

(** X17.  With live data off, [getStockIndicator] computes no indicator:
    whatever the name, supported or not, with nothing cached it returns
    the points of the synthetic indicator generator, one per synthetic
    bar. *)
Theorem live_data_off_returns_mock_indicators
  (cfg : Config) (w : World) (s : State) (symbol indicator timeRange : string) :
  USE_LIVE_DATA cfg = false ->
  fst (cache_get_indicator w
         ("indicator_" +:+ symbol +:+ "_" +:+ indicator +:+ "_" +:+ timeRange) s) = None ->
  fst (cache_get_stock w (stockKey symbol timeRange) (snd (now w s))) = None ->
  exists points,
    fst (getStockIndicator cfg w symbol indicator timeRange s) = Ok (MockData points)
    /\ Z.of_nat (length points) = getNumDaysFromTimeRange timeRange + 1.
Proof.
  intros Hoff Hmiss Hmiss'.
  pose proof (getStockData_on_miss cfg w (snd (now w s)) symbol timeRange Hmiss') as Hget.
  assert (Hne : fst (providerChain cfg w symbol timeRange (snd (now w (snd (now w s))))) <> []).
  { unfold providerChain. rewrite Hoff. apply getMockStockData_nonempty. }
  rewrite (getStockIndicator_on_miss cfg w s symbol indicator timeRange _ Hmiss
             (f_equal fst Hget) Hne).
  rewrite Hoff. eexists. split; [reflexivity|].
  match goal with |- context [getMockIndicatorData cfg w symbol indicator timeRange ?st] =>
    destruct (mock_indicator_dates cfg w st symbol indicator timeRange) as (Hd & Hl) end.
  exact Hl.
Qed.

Lemma live_data_off_returns_mock_indicators_witness :
  exists points,
    fst (getStockIndicator mockOnly Examples.yahooDown "AAPL" "rsi" "1w"
           Examples.freshState) = Ok (MockData points)
    /\ Z.of_nat (length points) = 8.
Proof.
  apply (live_data_off_returns_mock_indicators mockOnly Examples.yahooDown
           Examples.freshState "AAPL" "rsi" "1w"); reflexivity.
Defined.

End IndicatorFetch.

(** * Further properties of the analysis *)

Section AnalysisPipeline.
Import TechnicalIndicators StockService AnalysisService AnalysisView Further.

Lemma zrange_map_lookup {A} (f : Z -> A) (lo hi : Z) (k : nat) (x : A) :
  map f (zrange lo hi) !! k = Some x -> x = f (lo + Z.of_nat k) /\ lo + Z.of_nat k < hi.
Proof.
  change (map f (zrange lo hi)) with (f <$> zrange lo hi).
  rewrite list_lookup_fmap. intros H.
  destruct (zrange lo hi !! k) as [i|] eqn:E; [|discriminate].
  pose proof (lookup_lt_Some _ _ _ E) as Hk. rewrite zrange_length in Hk.
  rewrite zrange_lookup in E by assumption. injection E as <-.
  cbn in H. injection H as <-. split; [reflexivity | lia].
Qed.

(** The MACD record of the last bar never has a truthy [macd] field: the
    entries are placed 8 positions early, so that position is beyond the
    entries, or holds the one entry of a short series, whose MACD is
    [undefined]. *)
Lemma macd_latest_is_not_truthy (hd : list Bar.t) (pt : MacdPoint.t) :
  last (macd_points hd (MACD.calculate (closes hd) 12 26 9)) = Some pt ->
  truthy_opt (MacdPoint.macd pt) = false.
Proof.
  rewrite last_lookup. unfold macd_points. rewrite length_imap, list_lookup_imap.
  destruct (hd !! pred (length hd)) as [bar|] eqn:Eb; [|discriminate].
  pose proof (lookup_lt_Some _ _ _ Eb) as Hlt.
  cbn [fmap option_fmap option_map]. intros [= <-]. cbn [MacdPoint.macd].
  destruct (oget _ _) as [e|] eqn:E; [|reflexivity].
  cbn [fmap option_fmap option_map truthy_opt].
  unfold oget in E. destruct (Z.ltb_spec (Z.of_nat (pred (length hd)) - 25) 0); [discriminate|].
  unfold MACD.calculate in E. apply zrange_map_lookup in E. destruct E as (-> & _).
  cbn [MACD.MACD]. rewrite aread_out_of_range; [reflexivity|].
  right. pose proof (macdLine_length (closes hd)) as Hl. unfold zlength in Hl.
  assert (Hc : length (closes hd) = length hd) by apply length_map.
  rewrite Hc in Hl. lia.
Qed.

Lemma macd_latest_gives_no_signal (hd : list Bar.t) :
  macdSignals (last (macd_points hd (MACD.calculate (closes hd) 12 26 9))) = [].
Proof.
  destruct (last _) as [pt|] eqn:E; [|reflexivity].
  unfold macdSignals. now rewrite (macd_latest_is_not_truthy hd pt E).
Qed.

Lemma analyse_result (w : World) (hd : list Bar.t) (bar : Bar.t) :
  last hd = Some bar ->
  let sma20 := mapIndicatorToData hd (SMA.calculate 20 (closes hd)) 20 in
  let sma50 := mapIndicatorToData hd (SMA.calculate 50 (closes hd)) 50 in
  let bb := bollinger_points hd
              (BollingerBands.calculate (Math_sqrt w) 20 (closes hd) (of_Z 2)) in
  exists indicators,
    analyse w hd
    = Ok (indicators,
          movingAverageSignals (Bar.close bar) (latest_value sma20) (latest_value sma50)
          ++ bollingerSignals (Bar.close bar) (last bb))
    /\ StockService.sma20 indicators = sma20
    /\ StockService.sma50 indicators = sma50
    /\ StockService.bb indicators = bb
    /\ StockService.macd indicators
       = macd_points hd (MACD.calculate (closes hd) 12 26 9)
    /\ StockService.rsi indicators
       = mapIndicatorToData hd (RSI.calculate (closes hd) 14) 14.
Proof.
  intros Hlast sma20 sma50 bb. eexists. unfold analyse.
  change (calculateTechnicalIndicator (Math_sqrt w) hd "sma20")
    with (Ok (A := IndicatorData) (Points sma20)).
  change (calculateTechnicalIndicator (Math_sqrt w) hd "sma50")
    with (Ok (A := IndicatorData) (Points sma50)).
  change (calculateTechnicalIndicator (Math_sqrt w) hd "ema12")
    with (Ok (A := IndicatorData) (Points (mapIndicatorToData hd (EMA.calculate 12 (closes hd)) 12))).
  change (calculateTechnicalIndicator (Math_sqrt w) hd "ema26")
    with (Ok (A := IndicatorData) (Points (mapIndicatorToData hd (EMA.calculate 26 (closes hd)) 26))).
  change (calculateTechnicalIndicator (Math_sqrt w) hd "rsi")
    with (Ok (A := IndicatorData) (Points (mapIndicatorToData hd (RSI.calculate (closes hd) 14) 14))).
  change (calculateTechnicalIndicator (Math_sqrt w) hd "macd")
    with (Ok (A := IndicatorData) (MacdData (macd_points hd (MACD.calculate (closes hd) 12 26 9)))).
  change (calculateTechnicalIndicator (Math_sqrt w) hd "bollinger")
    with (Ok (A := IndicatorData) (BollingerData bb)).
  cbv iota beta. unfold generateTradingSignals. rewrite Hlast.
  cbn [StockService.sma20 StockService.sma50 StockService.rsi StockService.macd
       StockService.bb].
  rewrite rsi_latest_value_is_null, macd_latest_gives_no_signal.
  cbn [rsiSignals truthy_opt app]. repeat split.
Qed.

Lemma getTechnicalAnalysis_fresh (cfg : Config) (w : World) (symbol timeRange : string)
  (s : AState) (a : Analysis) :
  fst (cache_get_analysis w (analysisKey symbol timeRange) s) = None ->
  fst (getTechnicalAnalysis cfg w symbol timeRange s) = Ok a ->
  exists hd bar,
    fst (getStockData cfg w symbol timeRange (snd (now w (service s)))) = Ok hd
    /\ last hd = Some bar
    /\ analyse w hd = Ok (indicators a, signals a).
Proof.
  unfold getTechnicalAnalysis, buildTechnicalAnalysis. cbv zeta.
  change ("technical_analysis_" +:+ symbol +:+ "_" +:+ timeRange)
    with (analysisKey symbol timeRange).
  destruct (cache_get_analysis w (analysisKey symbol timeRange) s) as [c s1] eqn:Ec.
  cbn [fst]. intros ->.
  assert (Hs1 : service s1 = snd (now w (service s))).
  { unfold cache_get_analysis in Ec. destruct (now w (service s)) as [t s'].
    injection Ec as _ <-. reflexivity. }
  unfold lift at 1. rewrite Hs1.
  destruct (getStockData cfg w symbol timeRange (snd (now w (service s)))) as [r s2].
  destruct r as [hd|e]; [|discriminate].
  destruct (length hd =? 0)%nat eqn:El; [discriminate|].
  destruct (analyse w hd) as [[ind sg]|e] eqn:Ea; [|discriminate].
  destruct (lift (now w) _) as [t s3]. destruct (cache_set_analysis w _ _ _ s3) as [u s4].
  cbn [fst]. intros [= <-]. cbn [indicators signals].
  destruct (last hd) as [bar|] eqn:Elast.
  - exists hd, bar. repeat split; assumption.
  - apply last_None in Elast. subst hd. discriminate.
Qed.

Lemma movingAverageSignals_one_of (price : num) (a b : option num) :
  movingAverageSignals price a b = []
  \/ movingAverageSignals price a b = [goldenCross]
  \/ movingAverageSignals price a b = [deathCross].
Proof.
  unfold movingAverageSignals.
  repeat match goal with |- context [if ?c then _ else _] => destruct c end; auto.
Qed.

Lemma bollingerSignals_one_of (price : num) (b : option BollingerPoint.t) :
  bollingerSignals price b = []
  \/ bollingerSignals price b = [bollingerUpper]
  \/ bollingerSignals price b = [bollingerLower].
Proof.
  unfold bollingerSignals. destruct b as [b|]; [|auto].
  repeat match goal with |- context [if ?c then _ else _] => destruct c end; auto.
Qed.

(** Three analyses computed on sample series: closes that rise and jump
    at the end, their mirror image, and closes that move sideways. *)
Lemma up_analysis :
  exists a,
    fst (getTechnicalAnalysis Examples.liveNoKey marketWorld "UP" "3m" freshAnalysisState)
    = Ok a
    /\ signals a = [goldenCross; bollingerUpper]
    /\ mostRecentDefined (rsi (indicators a)) = Some (of_Z 100)
    /\ getBollingerPosition (getLatestBollinger (bb (indicators a))) = "Above Upper".
Proof.
  eexists. split; [vm_compute; reflexivity|].
  split; [vm_compute; reflexivity|]. split; vm_compute; reflexivity.
Qed.

Lemma down_analysis :
  exists a,
    fst (getTechnicalAnalysis Examples.liveNoKey marketWorld "DOWN" "3m" freshAnalysisState)
    = Ok a
    /\ signals a = [deathCross; bollingerLower]
    /\ getBollingerPosition (getLatestBollinger (bb (indicators a))) = "Below Lower".
Proof.
  eexists. split; [vm_compute; reflexivity|]. split; vm_compute; reflexivity.
Qed.

Lemma flat_analysis :
  exists a,
    fst (getTechnicalAnalysis Examples.liveNoKey marketWorld "FLAT" "3m" freshAnalysisState)
    = Ok a
    /\ getBollingerPosition (getLatestBollinger (bb (indicators a))) = "In Range".
Proof. eexists. split; vm_compute; reflexivity. Qed.

(** X18.  In an analysis that [getTechnicalAnalysis] computes (no cached
    one is returned) the RSI rule and the MACD rule never fire: the
    latest RSI value and the latest MACD record it reads are always
    empty.  The signals are at most two, a cross signal and a Bollinger
    signal. *)
Theorem analysis_signals_are_cross_or_band
  (cfg : Config) (w : World) (symbol timeRange : string) (s : AState) (a : Analysis) :
  fst (cache_get_analysis w (analysisKey symbol timeRange) s) = None ->
  fst (getTechnicalAnalysis cfg w symbol timeRange s) = Ok a ->
  (length (signals a) <= 2)%nat
  /\ Forall (fun sg => In sg [goldenCross; deathCross; bollingerUpper; bollingerLower])
            (signals a).
Proof.
  intros Hmiss Hok.
  destruct (getTechnicalAnalysis_fresh cfg w symbol timeRange s a Hmiss Hok)
    as (hd & bar & _ & Hlast & Ha).
  destruct (analyse_result w hd bar Hlast) as (ind & Hr & _).
  rewrite Hr in Ha. injection Ha as _ <-.
  match goal with |- context [movingAverageSignals ?p ?x ?y] =>
    destruct (movingAverageSignals_one_of p x y) as [-> | [-> | ->]] end;
  match goal with |- context [bollingerSignals ?p ?x] =>
    destruct (bollingerSignals_one_of p x) as [-> | [-> | ->]] end;
  (split; [cbn; lia |]);
  repeat (apply List.Forall_cons; [cbn; tauto |]); apply List.Forall_nil.
Qed.

Lemma analysis_signals_are_cross_or_band_witness :
  exists a,
    fst (getTechnicalAnalysis Examples.liveNoKey marketWorld "UP" "3m" freshAnalysisState)
    = Ok a
    /\ signals a = [goldenCross; bollingerUpper]
    /\ mostRecentDefined (rsi (indicators a)) = Some (of_Z 100)
    /\ (length (signals a) <= 2)%nat
    /\ Forall (fun sg => In sg [goldenCross; deathCross; bollingerUpper; bollingerLower])
              (signals a).
Proof.
  destruct up_analysis as (a & E & Hsig & Hrsi & _).
  exists a. split; [exact E|]. split; [exact Hsig|]. split; [exact Hrsi|].
  apply (analysis_signals_are_cross_or_band Examples.liveNoKey marketWorld "UP" "3m"
           freshAnalysisState a eq_refl E).
Defined.

Lemma latest_value_of_short_series (hd : list Bar.t) (vals : list num) (period : Z) :
  Z.of_nat (length hd) < period ->
  latest_value (mapIndicatorToData hd vals period) = None.
Proof.
  intros Hshort. unfold latest_value. rewrite last_lookup.
  destruct (mapIndicatorToData hd vals period !! _) as [pt|] eqn:E; [|reflexivity].
  pose proof (lookup_lt_Some _ _ _ E) as Hlt.
  apply mapIndicatorToData_lookup in E. destruct E as (bar & _ & _ & _ & Hv).
  cbn [mbind option_bind]. rewrite Hv. cbv zeta.
  unfold mapIndicatorToData in *. rewrite length_imap in *.
  destruct (Z.leb_spec 0 (Z.of_nat (pred (length hd)) - (period - 1)));
    [lia | reflexivity].
Qed.

Lemma bollinger_latest (hd : list Bar.t) (bands : list BollingerBands.entry) (bar : Bar.t) :
  last hd = Some bar ->
  exists b, last (bollinger_points hd bands) = Some b
            /\ BollingerPoint.price b = Bar.close bar
            /\ ((length hd < 20)%nat -> BollingerPoint.upper b = None).
Proof.
  intros Hlast. rewrite last_lookup in Hlast. eexists. split.
  { rewrite last_lookup. unfold bollinger_points.
    rewrite length_imap, list_lookup_imap, Hlast. reflexivity. }
  split; [reflexivity|].
  intros Hs. cbn [BollingerPoint.upper]. unfold oget.
  destruct (Z.ltb_spec (Z.of_nat (pred (length hd)) - 19) 0); [reflexivity | lia].
Qed.

Lemma getLatestValue_latest_value (l : list IndicatorPoint.t) :
  getLatestValue l = latest_value l.
Proof. destruct l; reflexivity. Qed.

Lemma getLatestBollinger_last (l : list BollingerPoint.t) : getLatestBollinger l = last l.
Proof. destruct l; reflexivity. Qed.

Lemma getLatestMACD_last (l : list MacdPoint.t) : getLatestMACD l = last l.
Proof. destruct l; reflexivity. Qed.

(** What a computed analysis is made of: the series that was fetched,
    its last bar, and the lists and signals derived from them. *)
Lemma fresh_analysis (cfg : Config) (w : World) (symbol timeRange : string)
  (s : AState) (a : Analysis) :
  fst (cache_get_analysis w (analysisKey symbol timeRange) s) = None ->
  fst (getTechnicalAnalysis cfg w symbol timeRange s) = Ok a ->
  exists hd bar,
    fst (getStockData cfg w symbol timeRange (snd (now w (service s)))) = Ok hd
    /\ last hd = Some bar
    /\ sma20 (indicators a) = mapIndicatorToData hd (SMA.calculate 20 (closes hd)) 20
    /\ sma50 (indicators a) = mapIndicatorToData hd (SMA.calculate 50 (closes hd)) 50
    /\ bb (indicators a)
       = bollinger_points hd
           (BollingerBands.calculate (Math_sqrt w) 20 (closes hd) (of_Z 2))
    /\ macd (indicators a) = macd_points hd (MACD.calculate (closes hd) 12 26 9)
    /\ rsi (indicators a) = mapIndicatorToData hd (RSI.calculate (closes hd) 14) 14
    /\ signals a
       = movingAverageSignals (Bar.close bar) (latest_value (sma20 (indicators a)))
                              (latest_value (sma50 (indicators a)))
         ++ bollingerSignals (Bar.close bar) (last (bb (indicators a))).
Proof.
  intros Hmiss Hok.
  destruct (getTechnicalAnalysis_fresh cfg w symbol timeRange s a Hmiss Hok)
    as (hd & bar & Hget & Hlast & Ha).
  destruct (analyse_result w hd bar Hlast) as (ind & Hr & H20 & H50 & Hbb & Hm & Hrsi).
  rewrite Hr in Ha. injection Ha as Hind Hsig. subst ind.
  exists hd, bar. rewrite H20, H50, Hbb. repeat split; try assumption.
  now symmetry.
Qed.

Lemma rsi_signal_is_no_cross_or_band (r : num) (price : num) (x y : option num)
  (b : option BollingerPoint.t) :
  ~ In (rsiOverbought r) (movingAverageSignals price x y ++ bollingerSignals price b)
  /\ ~ In (rsiOversold r) (movingAverageSignals price x y ++ bollingerSignals price b).
Proof.
  destruct (movingAverageSignals_one_of price x y) as [-> | [-> | ->]];
    destruct (bollingerSignals_one_of price b) as [-> | [-> | ->]];
    cbn; intuition discriminate.
Qed.

(** C4 fails in the program.  On sixty bars whose closes rise from bar
    to bar, RSI is 100 wherever it has a value, so the most recent
    defined RSI value is 100, above 70, and price > SMA20 > SMA50: the
    specification asks for "Golden Cross Pattern" and "RSI Overbought".  The
    analysis carries "Golden Cross Pattern" and "Bollinger Upper Breach"
    and no RSI signal. *)
Lemma overbought_series_gets_no_rsi_signal :
  exists a,
    fst (getTechnicalAnalysis Examples.liveNoKey marketWorld "UP" "3m" freshAnalysisState)
    = Ok a
    /\ mostRecentDefined (rsi (indicators a)) = Some (of_Z 100)
    /\ ngtb (of_Z 100) (of_Z 70) = true
    /\ signals a = [goldenCross; bollingerUpper]
    /\ forall r, ~ In (rsiOverbought r) (signals a).
Proof.
  destruct up_analysis as (a & E & Hsig & Hrsi & _).
  exists a. split; [exact E|]. split; [exact Hrsi|]. split; [reflexivity|].
  split; [exact Hsig|]. intros r. rewrite Hsig. cbn. intuition discriminate.
Qed.

(** C4 (the behaviour of the program).  In every analysis that
    [getTechnicalAnalysis] computes, the last point of the RSI list has
    no value, whatever RSI values were computed: the values are placed
    two positions early among the dates.  [generateTradingSignals]
    reads that point, so an analysis never carries "RSI Overbought" or
    "RSI Oversold". *)
Theorem rsi_rule_never_fires_in_an_analysis
  (cfg : Config) (w : World) (symbol timeRange : string) (s : AState) (a : Analysis) :
  fst (cache_get_analysis w (analysisKey symbol timeRange) s) = None ->
  fst (getTechnicalAnalysis cfg w symbol timeRange s) = Ok a ->
  latest_value (rsi (indicators a)) = None
  /\ forall r, ~ In (rsiOverbought r) (signals a) /\ ~ In (rsiOversold r) (signals a).
Proof.
  intros Hmiss Hok.
  destruct (fresh_analysis cfg w symbol timeRange s a Hmiss Hok)
    as (hd & bar & _ & _ & _ & _ & _ & _ & Hrsi & Hsig).
  split.
  - rewrite Hrsi. apply rsi_latest_value_is_null.
  - intros r. rewrite Hsig. apply rsi_signal_is_no_cross_or_band.
Qed.

Lemma rsi_rule_never_fires_in_an_analysis_witness :
  exists a,
    fst (getTechnicalAnalysis Examples.liveNoKey marketWorld "UP" "3m" freshAnalysisState)
    = Ok a
    /\ mostRecentDefined (rsi (indicators a)) = Some (of_Z 100)
    /\ latest_value (rsi (indicators a)) = None.
Proof.
  destruct up_analysis as (a & E & _ & Hrsi & _).
  exists a. split; [exact E|]. split; [exact Hrsi|].
  apply (rsi_rule_never_fires_in_an_analysis Examples.liveNoKey marketWorld "UP" "3m"
           freshAnalysisState a eq_refl E).
Defined.

(** X19.  The RSI card and the MACD card of the analysis view never show
    a reading for an analysis the service has computed: the helpers of
    the view read the last record of each list, which is empty. *)
Theorem rsi_and_macd_cards_are_empty
  (cfg : Config) (w : World) (symbol timeRange : string) (s : AState) (a : Analysis) :
  fst (cache_get_analysis w (analysisKey symbol timeRange) s) = None ->
  fst (getTechnicalAnalysis cfg w symbol timeRange s) = Ok a ->
  getRSIStatusText (getLatestValue (rsi (indicators a))) = "N/A"
  /\ getRSIStatus (getLatestValue (rsi (indicators a))) = "neutral"
  /\ getMACDStatusText (getLatestMACD (macd (indicators a))) = "N/A"
  /\ getMACDStatus (getLatestMACD (macd (indicators a))) = "neutral".
Proof.
  intros Hmiss Hok.
  destruct (fresh_analysis cfg w symbol timeRange s a Hmiss Hok)
    as (hd & bar & _ & _ & _ & _ & _ & Hm & Hrsi & _).
  rewrite getLatestValue_latest_value, getLatestMACD_last, Hrsi, Hm.
  rewrite rsi_latest_value_is_null.
  split; [reflexivity|]. split; [reflexivity|].
  unfold getMACDStatusText, getMACDStatus, macdMissing.
  destruct (last (macd_points hd _)) as [pt|] eqn:E; [|split; reflexivity].
  rewrite (macd_latest_is_not_truthy hd pt E). split; reflexivity.
Qed.

Lemma rsi_and_macd_cards_are_empty_witness :
  exists a,
    fst (getTechnicalAnalysis Examples.liveNoKey marketWorld "UP" "3m" freshAnalysisState)
    = Ok a
    /\ mostRecentDefined (rsi (indicators a)) = Some (of_Z 100)
    /\ getRSIStatusText (getLatestValue (rsi (indicators a))) = "N/A"
    /\ getMACDStatusText (getLatestMACD (macd (indicators a))) = "N/A".
Proof.
  destruct up_analysis as (a & E & _ & Hrsi & _).
  exists a. split; [exact E|]. split; [exact Hrsi|].
  destruct (rsi_and_macd_cards_are_empty Examples.liveNoKey marketWorld "UP" "3m"
              freshAnalysisState a eq_refl E) as (H1 & _ & H2 & _).
  split; assumption.
Defined.

(** X20.  A short series gives few signals: with fewer than 50 bars
    fetched the analysis has no cross signal (there is no SMA50 value),
    and with fewer than 20 bars it has no signal at all, so the view
    shows a neutral sentiment. *)
Theorem short_series_has_no_cross_signal
  (cfg : Config) (w : World) (symbol timeRange : string) (s : AState) (a : Analysis)
  (hd : list Bar.t) :
  fst (cache_get_analysis w (analysisKey symbol timeRange) s) = None ->
  fst (getTechnicalAnalysis cfg w symbol timeRange s) = Ok a ->
  fst (getStockData cfg w symbol timeRange (snd (now w (service s)))) = Ok hd ->
  (length hd < 50)%nat ->
  ~ In goldenCross (signals a) /\ ~ In deathCross (signals a)
  /\ (length (signals a) <= 1)%nat
  /\ ((length hd < 20)%nat ->
      signals a = [] /\ getOverallSentiment (signals a) = "neutral").
Proof.
  intros Hmiss Hok Hget Hshort.
  destruct (fresh_analysis cfg w symbol timeRange s a Hmiss Hok)
    as (hd' & bar & Hget' & Hlast & H20 & H50 & Hbb & _ & _ & Hsig).
  assert (hd' = hd) by congruence. subst hd'.
  assert (Hma : movingAverageSignals (Bar.close bar) (latest_value (sma20 (indicators a)))
                  (latest_value (sma50 (indicators a))) = []).
  { rewrite H50, (latest_value_of_short_series hd _ 50) by lia.
    unfold movingAverageSignals. cbn [truthy_opt]. now rewrite andb_false_r. }
  rewrite Hma in Hsig. cbn [app] in Hsig. rewrite Hsig.
  destruct (bollinger_latest hd (BollingerBands.calculate (Math_sqrt w) 20 (closes hd) (of_Z 2))
              bar Hlast) as (b & Hb & _ & Hup).
  rewrite Hbb, Hb.
  split; [|split; [|split]].
  - destruct (bollingerSignals_one_of (Bar.close bar) (Some b)) as [-> | [-> | ->]];
      cbn; intros H; try tauto; destruct H as [H|[]]; discriminate H.
  - destruct (bollingerSignals_one_of (Bar.close bar) (Some b)) as [-> | [-> | ->]];
      cbn; intros H; try tauto; destruct H as [H|[]]; discriminate H.
  - destruct (bollingerSignals_one_of (Bar.close bar) (Some b)) as [-> | [-> | ->]];
      cbn; lia.
  - intros H20'. unfold bollingerSignals. rewrite (Hup H20'). cbn [truthy_opt andb].
    split; reflexivity.
Qed.

Lemma short_series_has_no_cross_signal_witness :
  exists a,
    fst (getTechnicalAnalysis mockOnly alphaWorld "AAPL" "1w" freshAnalysisState) = Ok a
    /\ signals a = [].
Proof.
  destruct (fst (getTechnicalAnalysis mockOnly alphaWorld "AAPL" "1w" freshAnalysisState))
    as [a|e] eqn:E; [|vm_compute in E; discriminate].
  destruct (fst (getStockData mockOnly alphaWorld "AAPL" "1w"
                   (snd (now alphaWorld (service freshAnalysisState)))))
    as [hd|e] eqn:Eh; [|vm_compute in Eh; discriminate].
  assert (Hlen : length hd = 8%nat).
  { vm_compute in Eh. injection Eh as <-. reflexivity. }
  exists a. split; [reflexivity|].
  destruct (short_series_has_no_cross_signal mockOnly alphaWorld "AAPL" "1w"
              freshAnalysisState a hd eq_refl E Eh) as (_ & _ & _ & H).
  - rewrite Hlen. lia.
  - apply H. rewrite Hlen. lia.
Defined.

Lemma nltb_asym (a b : num) : nltb a b = true -> nltb b a = false.
Proof.
  destruct a as [x| | |], b as [y| | |]; cbn; try congruence.
  unfold Qltb. intros H. apply negb_true_iff in H. apply negb_false_iff.
  destruct (Qle_bool x y) eqn:E; [reflexivity|].
  destruct (Qlt_le_dec y x) as [Hlt|Hle].
  - apply Qlt_le_weak, Qle_bool_iff in Hlt. congruence.
  - apply Qle_bool_iff in Hle. congruence.
Qed.

Lemma golden_in_movingAverageSignals (price : num) (x y : option num) :
  In goldenCross (movingAverageSignals price x y) ->
  truthy_opt x && truthy_opt y = true /\ gt x y = true.
Proof.
  unfold movingAverageSignals.
  destruct (truthy_opt x && truthy_opt y); [|intros []].
  destruct (gt (Some price) x) eqn:E1; cbn [andb].
  - destruct (gt x y); [auto|].
    destruct (lt (Some price) x && lt x y); intros H; [|destruct H].
    destruct H as [H|[]]; discriminate H.
  - destruct (lt (Some price) x && lt x y); intros H; [|destruct H].
    destruct H as [H|[]]; discriminate H.
Qed.

Lemma death_in_movingAverageSignals (price : num) (x y : option num) :
  In deathCross (movingAverageSignals price x y) ->
  truthy_opt x && truthy_opt y = true /\ gt x y = false.
Proof.
  unfold movingAverageSignals.
  destruct (truthy_opt x && truthy_opt y); [|intros []].
  destruct (gt (Some price) x && gt x y).
  - intros H. destruct H as [H|[]]; discriminate H.
  - destruct (lt (Some price) x) eqn:E1; cbn [andb]; [|intros []].
    destruct (lt x y) eqn:E2; [|intros []].
    intros _. split; [reflexivity|]. unfold gt, ngtb. unfold lt in E2.
    now apply nltb_asym.
Qed.

(** X21.  The moving-average card of the view agrees with the cross
    signals of the service: where the analysis carries "Golden Cross
    Pattern" the card reads bullish, where it carries "Death Cross
    Pattern" the card reads bearish, and the two never come together. *)
Theorem cross_signal_matches_the_moving_average_card
  (cfg : Config) (w : World) (symbol timeRange : string) (s : AState) (a : Analysis) :
  fst (cache_get_analysis w (analysisKey symbol timeRange) s) = None ->
  fst (getTechnicalAnalysis cfg w symbol timeRange s) = Ok a ->
  let card := getMAStatus (getLatestValue (sma20 (indicators a)))
                          (getLatestValue (sma50 (indicators a))) in
  let text := getMARelationship (getLatestValue (sma20 (indicators a)))
                                (getLatestValue (sma50 (indicators a))) in
  (In goldenCross (signals a) -> card = "bullish" /\ text = "Bullish")
  /\ (In deathCross (signals a) -> card = "bearish" /\ text = "Bearish")
  /\ ~ (In goldenCross (signals a) /\ In deathCross (signals a)).
Proof.
  intros Hmiss Hok card text. subst card text.
  destruct (fresh_analysis cfg w symbol timeRange s a Hmiss Hok)
    as (hd & bar & _ & _ & _ & _ & _ & _ & _ & Hsig).
  rewrite !getLatestValue_latest_value, Hsig.
  set (x := latest_value (sma20 (indicators a))).
  set (y := latest_value (sma50 (indicators a))).
  assert (Hg : In goldenCross
                 (movingAverageSignals (Bar.close bar) x y
                  ++ bollingerSignals (Bar.close bar) (last (bb (indicators a)))) ->
               truthy_opt x && truthy_opt y = true /\ gt x y = true).
  { intros H. apply in_app_or in H. destruct H as [H|H].
    - now apply golden_in_movingAverageSignals in H.
    - exfalso.
      destruct (bollingerSignals_one_of (Bar.close bar) (last (bb (indicators a))))
        as [E | [E | E]]; rewrite E in H; cbn in H;
        try tauto; destruct H as [H|[]]; discriminate H. }
  assert (Hd : In deathCross
                 (movingAverageSignals (Bar.close bar) x y
                  ++ bollingerSignals (Bar.close bar) (last (bb (indicators a)))) ->
               truthy_opt x && truthy_opt y = true /\ gt x y = false).
  { intros H. apply in_app_or in H. destruct H as [H|H].
    - now apply death_in_movingAverageSignals in H.
    - exfalso.
      destruct (bollingerSignals_one_of (Bar.close bar) (last (bb (indicators a))))
        as [E | [E | E]]; rewrite E in H; cbn in H;
        try tauto; destruct H as [H|[]]; discriminate H. }
  unfold getMAStatus, getMARelationship. split; [|split].
  - intros H. destruct (Hg H) as (Ht & Hgt). apply andb_true_iff in Ht.
    destruct Ht as (-> & ->). rewrite Hgt. split; reflexivity.
  - intros H. destruct (Hd H) as (Ht & Hgt). apply andb_true_iff in Ht.
    destruct Ht as (-> & ->). rewrite Hgt. split; reflexivity.
  - intros (H1 & H2). destruct (Hg H1) as (_ & E1). destruct (Hd H2) as (_ & E2).
    congruence.
Qed.

Lemma cross_signal_matches_the_moving_average_card_witness :
  (exists a,
      fst (getTechnicalAnalysis Examples.liveNoKey marketWorld "UP" "3m" freshAnalysisState)
      = Ok a
      /\ In goldenCross (signals a)
      /\ getMAStatus (getLatestValue (sma20 (indicators a)))
                     (getLatestValue (sma50 (indicators a))) = "bullish")
  /\ (exists a,
         fst (getTechnicalAnalysis Examples.liveNoKey marketWorld "DOWN" "3m"
                freshAnalysisState) = Ok a
         /\ In deathCross (signals a)
         /\ getMAStatus (getLatestValue (sma20 (indicators a)))
                        (getLatestValue (sma50 (indicators a))) = "bearish").
Proof.
  split.
  - destruct up_analysis as (a & E & Hsig & _).
    assert (Hin : In goldenCross (signals a)) by (rewrite Hsig; now left).
    exists a. split; [exact E|]. split; [exact Hin|].
    destruct (cross_signal_matches_the_moving_average_card Examples.liveNoKey marketWorld
                "UP" "3m" freshAnalysisState a eq_refl E) as (Hg & _).
    apply (Hg Hin).
  - destruct down_analysis as (a & E & Hsig & _).
    assert (Hin : In deathCross (signals a)) by (rewrite Hsig; now left).
    exists a. split; [exact E|]. split; [exact Hin|].
    destruct (cross_signal_matches_the_moving_average_card Examples.liveNoKey marketWorld
                "DOWN" "3m" freshAnalysisState a eq_refl E) as (_ & Hd & _).
    apply (Hd Hin).
Defined.

(** X22.  The Bollinger card of the view agrees with the Bollinger
    signals of the service: "Above Upper" comes with "Bollinger Upper
    Breach", "Below Lower" with "Bollinger Lower Breach", and "In Range"
    with neither. *)
Theorem bollinger_card_matches_the_signals
  (cfg : Config) (w : World) (symbol timeRange : string) (s : AState) (a : Analysis) :
  fst (cache_get_analysis w (analysisKey symbol timeRange) s) = None ->
  fst (getTechnicalAnalysis cfg w symbol timeRange s) = Ok a ->
  let card := getBollingerPosition (getLatestBollinger (bb (indicators a))) in
  (card = "Above Upper" -> In bollingerUpper (signals a))
  /\ (card = "Below Lower" -> In bollingerLower (signals a))
  /\ (card = "In Range" ->
      ~ In bollingerUpper (signals a) /\ ~ In bollingerLower (signals a)).
Proof.
  intros Hmiss Hok card. subst card.
  destruct (fresh_analysis cfg w symbol timeRange s a Hmiss Hok)
    as (hd & bar & _ & Hlast & _ & _ & Hbb & _ & _ & Hsig).
  destruct (bollinger_latest hd (BollingerBands.calculate (Math_sqrt w) 20 (closes hd) (of_Z 2))
              bar Hlast) as (b & Hb & Hprice & _).
  rewrite getLatestBollinger_last, Hsig, Hbb, Hb.
  unfold getBollingerPosition, bollingerMissing, bollingerSignals. rewrite Hprice.
  destruct (movingAverageSignals_one_of (Bar.close bar)
              (latest_value (sma20 (indicators a)))
              (latest_value (sma50 (indicators a)))) as [-> | [-> | ->]];
    destruct (truthy_opt (BollingerPoint.upper b));
    destruct (truthy_opt (BollingerPoint.lower b));
    destruct (truthy (Bar.close bar));
    destruct (gt (Some (Bar.close bar)) (BollingerPoint.upper b));
    destruct (lt (Some (Bar.close bar)) (BollingerPoint.lower b));
    cbn; intuition (discriminate || auto).
Qed.

Lemma bollinger_card_matches_the_signals_witness :
  (exists a,
      fst (getTechnicalAnalysis Examples.liveNoKey marketWorld "UP" "3m" freshAnalysisState)
      = Ok a
      /\ getBollingerPosition (getLatestBollinger (bb (indicators a))) = "Above Upper"
      /\ In bollingerUpper (signals a))
  /\ (exists a,
         fst (getTechnicalAnalysis Examples.liveNoKey marketWorld "DOWN" "3m"
                freshAnalysisState) = Ok a
         /\ getBollingerPosition (getLatestBollinger (bb (indicators a))) = "Below Lower"
         /\ In bollingerLower (signals a))
  /\ (exists a,
         fst (getTechnicalAnalysis Examples.liveNoKey marketWorld "FLAT" "3m"
                freshAnalysisState) = Ok a
         /\ getBollingerPosition (getLatestBollinger (bb (indicators a))) = "In Range"
         /\ ~ In bollingerUpper (signals a) /\ ~ In bollingerLower (signals a)).
Proof.
  split; [|split].
  - destruct up_analysis as (a & E & _ & _ & Hcard).
    exists a. split; [exact E|]. split; [exact Hcard|].
    destruct (bollinger_card_matches_the_signals Examples.liveNoKey marketWorld
                "UP" "3m" freshAnalysisState a eq_refl E) as (Hup & _).
    apply (Hup Hcard).
  - destruct down_analysis as (a & E & _ & Hcard).
    exists a. split; [exact E|]. split; [exact Hcard|].
    destruct (bollinger_card_matches_the_signals Examples.liveNoKey marketWorld
                "DOWN" "3m" freshAnalysisState a eq_refl E) as (_ & Hlow & _).
    apply (Hlow Hcard).
  - destruct flat_analysis as (a & E & Hcard).
    exists a. split; [exact E|]. split; [exact Hcard|].
    destruct (bollinger_card_matches_the_signals Examples.liveNoKey marketWorld
                "FLAT" "3m" freshAnalysisState a eq_refl E) as (_ & _ & Hin).
    apply (Hin Hcard).
Defined.

(** X23.  When the series that was fetched is empty, [getTechnicalAnalysis]
    fails with its own message and stores nothing: the empty answer of a
    provider is not turned into an analysis. *)
Theorem analysis_of_empty_series_fails
  (cfg : Config) (w : World) (symbol timeRange : string) (s : AState) :
  fst (cache_get_analysis w (analysisKey symbol timeRange) s) = None ->
  fst (getStockData cfg w symbol timeRange (snd (now w (service s)))) = Ok [] ->
  fst (getTechnicalAnalysis cfg w symbol timeRange s)
  = Throw ("Failed to generate technical analysis for " +:+ symbol)
  /\ analysis_cache (snd (getTechnicalAnalysis cfg w symbol timeRange s))
     = analysis_cache s.
Proof.
  unfold getTechnicalAnalysis, buildTechnicalAnalysis. cbv zeta.
  change ("technical_analysis_" +:+ symbol +:+ "_" +:+ timeRange)
    with (analysisKey symbol timeRange).
  destruct (cache_get_analysis w (analysisKey symbol timeRange) s) as [c s1] eqn:Ec.
  cbn [fst]. intros ->.
  assert (Hs1 : service s1 = snd (now w (service s)) /\ analysis_cache s1 = analysis_cache s).
  { unfold cache_get_analysis in Ec. destruct (now w (service s)) as [t s'].
    injection Ec as _ <-. split; reflexivity. }
  destruct Hs1 as (Hs1 & Hc1). unfold lift. rewrite Hs1.
  destruct (getStockData cfg w symbol timeRange (snd (now w (service s)))) as [r s2].
  cbn [fst]. intros ->. cbn. split; [reflexivity | exact Hc1].
Qed.

Lemma analysis_of_empty_series_fails_witness :
  fst (getTechnicalAnalysis liveWithKey alphaEmpty "AAPL" "1m" freshAnalysisState)
  = Throw "Failed to generate technical analysis for AAPL".
Proof.
  apply (analysis_of_empty_series_fails liveWithKey alphaEmpty "AAPL" "1m"
           freshAnalysisState); reflexivity.
Defined.

End AnalysisPipeline.

Section Alignment.
Import TechnicalIndicators StockService Further.

Lemma value_beyond_the_values (hd : list Bar.t) (vals : list num) (period : Z)
  (i : nat) (pt : IndicatorPoint.t) :
  mapIndicatorToData hd vals period !! i = Some pt ->
  Z.of_nat i - (period - 1) < 0 \/ zlength vals <= Z.of_nat i - (period - 1) ->
  IndicatorPoint.value pt = None.
Proof.
  intros E Hout. apply mapIndicatorToData_lookup in E.
  destruct E as (bar & _ & _ & _ & ->). cbv zeta.
  rewrite aget_out_of_range by (unfold zlength in Hout; lia).
  now rewrite andb_false_r.
Qed.

Lemma atr_calculate_length (hd : list Bar.t) :
  zlength (ATR.calculate (highs hd) (lows hd) (closes hd) 14) = Z.max 0 (zlength hd - 14).
Proof.
  unfold ATR.calculate. rewrite sma_calculate_length.
  unfold zlength, closes. rewrite !length_map, zrange_length. lia.
Qed.

Lemma macd_calculate_length (values : list num) :
  zlength (MACD.calculate values 12 26 9)
  = 1 + Z.max 0 (Z.max 0 (zlength values - 25) - 9).
Proof.
  unfold MACD.calculate. cbv zeta.
  pose proof (ema_calculate_length 9 (MACD.macdLine values 12 26)) as He.
  rewrite macdLine_length in He.
  unfold zlength in *. rewrite length_map, zrange_length. lia.
Qed.

Lemma macd_record_beyond_the_entries (hd : list Bar.t) (i : nat) (pt : MacdPoint.t) :
  macd_points hd (MACD.calculate (closes hd) 12 26 9) !! i = Some pt ->
  (length hd <= i + 8)%nat ->
  truthy_opt (MacdPoint.macd pt) = false
  /\ (MacdPoint.macd pt = None \/ MacdPoint.macd pt = Some NaN)
  /\ ((34 <= length hd)%nat ->
      MacdPoint.macd pt = None /\ MacdPoint.signal pt = None
      /\ MacdPoint.histogram pt = None).
Proof.
  unfold macd_points. rewrite list_lookup_imap.
  destruct (hd !! i) as [bar|] eqn:Eb; [|discriminate].
  cbn [fmap option_fmap option_map]. intros [= <-] Hlate.
  cbn [MacdPoint.macd MacdPoint.signal MacdPoint.histogram].
  assert (Hc : zlength (closes hd) = zlength hd)
    by (unfold zlength, closes; now rewrite length_map).
  destruct (oget _ _) as [e|] eqn:E;
    [|split; [reflexivity | split; [now left | intros _; repeat split]]].
  unfold oget in E. destruct (Z.ltb_spec (Z.of_nat i - 25) 0); [discriminate|].
  pose proof (lookup_lt_Some _ _ _ E) as Hlen.
  pose proof (macd_calculate_length (closes hd)) as Hl.
  rewrite Hc in Hl. unfold zlength in Hl.
  unfold MACD.calculate in E. apply zrange_map_lookup in E. destruct E as (-> & _).
  cbn [fmap option_fmap option_map MACD.MACD truthy_opt].
  rewrite aread_out_of_range.
  - split; [reflexivity|]. split; [now right|]. intros Hlong. exfalso. lia.
  - right. pose proof (macdLine_length (closes hd)) as Hline.
    rewrite Hc in Hline. unfold zlength in Hline. lia.
Qed.

(** X24.  The values of RSI, ATR and MACD are placed too early among the
    dates: in the result of [calculateTechnicalIndicator] the last 2
    records of "rsi" and the last record of "atr" never hold a value,
    and the last 8 records of "macd" never hold a number in [macd]: it
    is [null] or [NaN] there (all three fields are [null] when the
    series has 34 bars or more). *)
Theorem trailing_records_are_empty (Math_sqrt : num -> num) (hd : list Bar.t) (i : nat) :
  (i < length hd)%nat ->
  (exists l pt,
      calculateTechnicalIndicator Math_sqrt hd "rsi" = Ok (Points l)
      /\ l !! i = Some pt
      /\ ((length hd <= i + 2)%nat -> IndicatorPoint.value pt = None))
  /\ (exists l pt,
         calculateTechnicalIndicator Math_sqrt hd "atr" = Ok (Points l)
         /\ l !! i = Some pt
         /\ ((length hd <= i + 1)%nat -> IndicatorPoint.value pt = None))
  /\ (exists l pt,
         calculateTechnicalIndicator Math_sqrt hd "macd" = Ok (MacdData l)
         /\ l !! i = Some pt
         /\ ((length hd <= i + 8)%nat ->
             truthy_opt (MacdPoint.macd pt) = false
             /\ (MacdPoint.macd pt = None \/ MacdPoint.macd pt = Some NaN)
             /\ ((34 <= length hd)%nat ->
                 MacdPoint.macd pt = None /\ MacdPoint.signal pt = None
                 /\ MacdPoint.histogram pt = None))).
Proof.
  intros Hi.
  assert (Hc : zlength (closes hd) = zlength hd)
    by (unfold zlength, closes; now rewrite length_map).
  split; [|split].
  - destruct (lookup_lt_is_Some_2
                (mapIndicatorToData hd (RSI.calculate (closes hd) 14) 14) i) as [pt Hpt].
    { unfold mapIndicatorToData. now rewrite length_imap. }
    exists (mapIndicatorToData hd (RSI.calculate (closes hd) 14) 14), pt.
    split; [reflexivity|]. split; [exact Hpt|]. intros Hlate.
    apply (value_beyond_the_values _ _ _ _ _ Hpt).
    rewrite rsi_calculate_length, Hc. unfold zlength. lia.
  - destruct (lookup_lt_is_Some_2
                (mapIndicatorToData hd (ATR.calculate (highs hd) (lows hd) (closes hd) 14) 14)
                i) as [pt Hpt].
    { unfold mapIndicatorToData. now rewrite length_imap. }
    exists (mapIndicatorToData hd (ATR.calculate (highs hd) (lows hd) (closes hd) 14) 14), pt.
    split; [reflexivity|]. split; [exact Hpt|]. intros Hlate.
    apply (value_beyond_the_values _ _ _ _ _ Hpt).
    rewrite atr_calculate_length. unfold zlength. lia.
  - destruct (lookup_lt_is_Some_2
                (macd_points hd (MACD.calculate (closes hd) 12 26 9)) i) as [pt Hpt].
    { unfold macd_points. now rewrite length_imap. }
    exists (macd_points hd (MACD.calculate (closes hd) 12 26 9)), pt.
    split; [reflexivity|]. split; [exact Hpt|].
    apply (macd_record_beyond_the_entries hd i pt Hpt).
Qed.

Lemma trailing_records_are_empty_witness :
  exists l pt,
    calculateTechnicalIndicator (fun x => x) Examples.macdSeries "macd" = Ok (MacdData l)
    /\ l !! 33%nat = Some pt
    /\ MacdPoint.macd pt = None.
Proof.
  destruct (trailing_records_are_empty (fun x => x) Examples.macdSeries 33)
    as (_ & _ & l & pt & Hcalc & Hpt & H).
  - vm_compute. lia.
  - exists l, pt. split; [exact Hcalc|]. split; [exact Hpt|].
    apply H; vm_compute; lia.
Defined.

End Alignment.

Section SignalCount.
Import TechnicalIndicators StockService Further.

Lemma rsiSignals_one_of (latestRSI : option num) :
  rsiSignals latestRSI = []
  \/ (exists r, rsiSignals latestRSI = [rsiOverbought r])
  \/ (exists r, rsiSignals latestRSI = [rsiOversold r]).
Proof.
  unfold rsiSignals.
  repeat match goal with |- context [if ?c then _ else _] => destruct c end; eauto.
Qed.

Lemma macdSignals_one_of (latestMACD : option MacdPoint.t) :
  macdSignals latestMACD = []
  \/ macdSignals latestMACD = [macdBullish]
  \/ macdSignals latestMACD = [macdBearish].
Proof.
  unfold macdSignals. destruct latestMACD as [m|]; [|auto].
  repeat match goal with |- context [if ?c then _ else _] => destruct c end; auto.
Qed.

(** X25.  On a series that is not empty [generateTradingSignals] returns
    at most four signals, at most one from each rule, and no signal name
    twice; it never throws there, whatever the indicator lists hold. *)
Theorem signals_are_few_and_distinct (hd : list Bar.t) (indicators : Indicators) :
  hd <> [] ->
  exists sigs,
    generateTradingSignals hd indicators = Ok sigs
    /\ (length sigs <= 4)%nat
    /\ NoDup (map signal sigs)
    /\ ~ (In goldenCross sigs /\ In deathCross sigs)
    /\ ~ (In macdBullish sigs /\ In macdBearish sigs)
    /\ ~ (In bollingerUpper sigs /\ In bollingerLower sigs).
Proof.
  intros Hne. unfold generateTradingSignals.
  destruct (last hd) as [bar|] eqn:E; [|apply last_None in E; contradiction].
  eexists. split; [reflexivity|].
  match goal with |- context [movingAverageSignals ?p ?x ?y] =>
    destruct (movingAverageSignals_one_of p x y) as [-> | [-> | ->]] end;
  match goal with |- context [rsiSignals ?x] =>
    destruct (rsiSignals_one_of x) as [-> | [(r & ->) | (r & ->)]] end;
  match goal with |- context [macdSignals ?x] =>
    destruct (macdSignals_one_of x) as [-> | [-> | ->]] end;
  match goal with |- context [bollingerSignals ?p ?x] =>
    destruct (bollingerSignals_one_of p x) as [-> | [-> | ->]] end;
  (split; [cbn; lia |]);
  (split; [cbn; repeat (apply NoDup_cons_2;
                          [rewrite list_elem_of_In; cbn; intuition discriminate |]);
           apply NoDup_nil_2 |]);
  cbn; intuition discriminate.
Qed.

Lemma signals_are_few_and_distinct_witness :
  exists sigs,
    generateTradingSignals Examples.oneToFive
      (Examples.bundle (Examples.latestIs (of_Z 4)) (Examples.latestIs (of_Z 3))
         (Examples.latestIs (of_Z 75))) = Ok sigs
    /\ (length sigs <= 4)%nat.
Proof.
  destruct (signals_are_few_and_distinct Examples.oneToFive
              (Examples.bundle (Examples.latestIs (of_Z 4)) (Examples.latestIs (of_Z 3))
         (Examples.latestIs (of_Z 75))))
    as (sigs & H & Hlen & _).
  - discriminate.
  - exists sigs. split; assumption.
Defined.

End SignalCount.

Section Performance.
Import TechnicalIndicators StockService AnalysisView Further.
Local Open Scope Q_scope.

(** X26.  [calculatePerformance] of the comparison view, on a series of
    two bars or more whose first close is positive: the result is the
    relative change of the close in percent, it is at least 0 exactly
    when the last close is not below the first (the colour of the
    view), and it is not below -100 when the last close is not
    negative. *)
Theorem performance_sign_follows_the_closes
  (first last : Bar.t) (between : list Bar.t) (x y : Q) :
  Bar.close first = Fin x -> Bar.close last = Fin y -> 0 < x ->
  exists q,
    calculatePerformance (first :: between ++ [last]) = Fin q
    /\ q == (y - x) / x * 100
    /\ (0 <= q <-> x <= y)
    /\ (0 <= y -> -100 <= q).
Proof.
  intros Hx Hy Hpos. unfold calculatePerformance.
  assert (Hlen : length (first :: between ++ [last]) = S (S (length between)))
    by (cbn [length]; rewrite length_app; cbn [length]; lia).
  rewrite Hlen.
  destruct (Nat.ltb_spec (S (S (length between))) 2); [lia|].
  assert (H0 : aget (closes (first :: between ++ [last])) 0 = Fin x)
    by (cbn; exact Hx).
  assert (H1 : aget (closes (first :: between ++ [last]))
                 (Z.of_nat (S (S (length between))) - 1) = Fin y).
  { apply aget_lookup; [lia|].
    replace (Z.to_nat (Z.of_nat (S (S (length between))) - 1))
      with (S (length between)) by lia.
    unfold closes. rewrite app_comm_cons, map_app.
    change (map Bar.close [last]) with [Bar.close last]. rewrite <- Hy.
    apply list_lookup_middle. cbn [map length]. now rewrite length_map. }
  rewrite H0, H1.
  destruct (is_fin_sub (Fin y) (Fin x) y x (is_fin_Fin y) (is_fin_Fin x)) as (d & Hd & Ed).
  rewrite Hd.
  destruct (is_fin_div (Fin d) (Fin x) (y - x) x) as (r & Hr & Er);
    [exists d; split; [reflexivity | exact Ed] | apply is_fin_Fin | lra |].
  rewrite Hr.
  destruct (is_fin_mul (Fin r) (of_Z 100) ((y - x) / x) (inject_Z 100))
    as (q & Hq & Eq); [exists r; split; [reflexivity | exact Er] | apply is_fin_of_Z |].
  rewrite Hq. exists q. split; [reflexivity|].
  change (inject_Z 100) with 100 in Eq. split; [exact Eq|].
  assert (Hdx : (y - x) / x * x == y - x) by (field; lra).
  set (e := (y - x) / x) in *. rewrite Eq. split; [split|]; intros H'; nra.
Qed.

Lemma performance_sign_follows_the_closes_witness :
  exists q,
    calculatePerformance shuffled = Fin q /\ 0 <= q.
Proof.
  destruct (performance_sign_follows_the_closes (bar3 3 1 2 3) (bar3 2 7 8 9)
              [bar3 1 4 5 6] 2 8) as (q & Hq & _ & Hsign & _);
    [reflexivity | reflexivity | lra |].
  exists q. split; [exact Hq|]. apply Hsign. lra.
Defined.

End Performance.
